(** * inventory_api: cursor pagination, read cache and keyed rate limiter

    A shallow embedding of [utils/item_service.go], [utils/rate_limiter.go],
    the list handler of [controllers] and the request models, together with
    the library functions they call ([encoding/base64], [encoding/json],
    [time.Format], gorm's query builder, ristretto's cache and
    [x/time/rate]'s token bucket), and the properties of the specification
    stated over this embedding. *)

From Stdlib Require Import ZArith List Ascii String Bool Lia Sorted.
From stdpp Require Import base option list gmap strings.

Import ListNotations.
Open Scope Z_scope.

#[global] Set Warnings "-clear-no-such-hyp".

(** ** Bytes

    A Go [string] is a [string] (a sequence of 8-bit [ascii] characters), a Go
    [[]byte] is a [list ascii]. *)

Definition bytes := list ascii.

Definition bv (c : ascii) : Z := Z.of_N (N_of_ascii c).
Definition byte_of (z : Z) : ascii := ascii_of_N (Z.to_N z).

Definition bytes_of_string (s : string) : bytes := list_ascii_of_string s.
Definition string_of_bytes (b : bytes) : string := string_of_list_ascii b.

Lemma bv_range c : 0 <= bv c < 256.
Proof.
  unfold bv. pose proof (N_ascii_bounded c). lia.
Qed.

Lemma byte_of_bv c : byte_of (bv c) = c.
Proof.
  unfold byte_of, bv. rewrite N2Z.id. apply ascii_N_embedding.
Qed.

Lemma bv_byte_of z : 0 <= z < 256 -> bv (byte_of z) = z.
Proof.
  intros Hz. unfold byte_of, bv.
  rewrite N_ascii_embedding by lia. lia.
Qed.

Lemma bv_inj c d : bv c = bv d -> c = d.
Proof.
  intros H. rewrite <- (byte_of_bv c), <- (byte_of_bv d). now rewrite H.
Qed.

Lemma string_of_bytes_of_string s : string_of_bytes (bytes_of_string s) = s.
Proof. apply string_of_list_ascii_of_string. Qed.

Lemma bytes_of_string_of_bytes b : bytes_of_string (string_of_bytes b) = b.
Proof. apply list_ascii_of_string_of_list_ascii. Qed.

(** ** encoding/base64, [StdEncoding]

    The standard alphabet with [=] padding.  [DecodeString] ignores carriage
    returns and line feeds, wants full quanta of four characters, and accepts
    padding only in the last one. *)

Module Base64.

Definition encodeStd : bytes :=
  bytes_of_string
    "ABCDEFGHIJKLMNOPQRSTUVWXYZabcdefghijklmnopqrstuvwxyz0123456789+/".

Definition padChar : ascii := "="%char.

(** [enc.encode[i]] for a 6-bit [i]. *)
Definition enc (i : Z) : ascii := nth (Z.to_nat i) encodeStd padChar.

Fixpoint index_of (c : ascii) (l : bytes) (i : Z) : option Z :=
  match l with
  | [] => None
  | x :: l' => if Ascii.eqb x c then Some i else index_of c l' (i + 1)
  end.

(** [enc.decodeMap[c]], [None] for a character outside the alphabet. *)
Definition dec (c : ascii) : option Z := index_of c encodeStd 0.

(** [EncodeToString]: three bytes give four characters; one or two
    remaining bytes give a padded quantum. *)
Fixpoint EncodeToString_go (src : bytes) : bytes :=
  match src with
  | [] => []
  | [a] =>
      [enc (bv a / 4); enc (bv a mod 4 * 16); padChar; padChar]
  | [a; b] =>
      [enc (bv a / 4); enc (bv a mod 4 * 16 + bv b / 16);
       enc (bv b mod 16 * 4); padChar]
  | a :: b :: c :: rest =>
      enc (bv a / 4)
      :: enc (bv a mod 4 * 16 + bv b / 16)
      :: enc (bv b mod 16 * 4 + bv c / 64)
      :: enc (bv c mod 64)
      :: EncodeToString_go rest
  end.

Definition EncodeToString (src : bytes) : string :=
  string_of_bytes (EncodeToString_go src).

Definition is_newline (c : ascii) : bool :=
  Ascii.eqb c "010"%char || Ascii.eqb c "013"%char.

Definition strip_newlines (s : bytes) : bytes :=
  List.filter (fun c => negb (is_newline c)) s.

(** One quantum at a time.  The last two bits of a padded quantum are not
    checked (the encoding is not in strict mode). *)
Fixpoint decode_quanta (s : bytes) : option bytes :=
  match s with
  | [] => Some []
  | c1 :: c2 :: c3 :: c4 :: rest =>
      match dec c1, dec c2 with
      | Some i1, Some i2 =>
          let b1 := byte_of (i1 * 4 + i2 / 16) in
          if Ascii.eqb c3 padChar then
            if Ascii.eqb c4 padChar then
              match rest with [] => Some [b1] | _ => None end
            else None
          else
            match dec c3 with
            | Some i3 =>
                let b2 := byte_of (i2 mod 16 * 16 + i3 / 4) in
                if Ascii.eqb c4 padChar then
                  match rest with [] => Some [b1; b2] | _ => None end
                else
                  match dec c4 with
                  | Some i4 =>
                      let b3 := byte_of (i3 mod 4 * 64 + i4) in
                      match decode_quanta rest with
                      | Some out => Some (b1 :: b2 :: b3 :: out)
                      | None => None
                      end
                  | None => None
                  end
            | None => None
            end
      | _, _ => None
      end
  | _ => None
  end.

(** [DecodeString]; [None] stands for [CorruptInputError]. *)
Definition DecodeString (s : string) : option bytes :=
  decode_quanta (strip_newlines (bytes_of_string s)).

End Base64.

(** ** unicode/utf8 and unicode/utf16 *)

Module Utf8.

Definition RuneError : Z := 0xFFFD.

Definition in_range (c : ascii) (lo hi : Z) : bool :=
  (lo <=? bv c) && (bv c <=? hi).

(** A continuation byte, [10xxxxxx]. *)
Definition cont (c : ascii) : bool := in_range c 0x80 0xBF.

(** The range of the second byte, which depends on the first
    (the [acceptRanges] table). *)
Definition second (c0 c1 : ascii) : bool :=
  if bv c0 =? 0xE0 then in_range c1 0xA0 0xBF
  else if bv c0 =? 0xED then in_range c1 0x80 0x9F
  else if bv c0 =? 0xF0 then in_range c1 0x90 0xBF
  else if bv c0 =? 0xF4 then in_range c1 0x80 0x8F
  else cont c1.

(** [DecodeRune]: the rune at the head of [p] and its width in bytes;
    [(RuneError, 0)] for the empty input and [(RuneError, 1)] for an
    encoding that is not valid UTF-8. *)
Definition DecodeRune (p : bytes) : Z * nat :=
  match p with
  | [] => (RuneError, 0%nat)
  | c0 :: t =>
      if bv c0 <? 0x80 then (bv c0, 1%nat)
      else if in_range c0 0xC2 0xDF then
        match t with
        | c1 :: _ =>
            if cont c1 then (bv c0 mod 32 * 64 + bv c1 mod 64, 2%nat)
            else (RuneError, 1%nat)
        | _ => (RuneError, 1%nat)
        end
      else if in_range c0 0xE0 0xEF then
        match t with
        | c1 :: c2 :: _ =>
            if second c0 c1 && cont c2 then
              (bv c0 mod 16 * 4096 + bv c1 mod 64 * 64 + bv c2 mod 64, 3%nat)
            else (RuneError, 1%nat)
        | _ => (RuneError, 1%nat)
        end
      else if in_range c0 0xF0 0xF4 then
        match t with
        | c1 :: c2 :: c3 :: _ =>
            if second c0 c1 && cont c2 && cont c3 then
              (bv c0 mod 8 * 262144 + bv c1 mod 64 * 4096
               + bv c2 mod 64 * 64 + bv c3 mod 64, 4%nat)
            else (RuneError, 1%nat)
        | _ => (RuneError, 1%nat)
        end
      else (RuneError, 1%nat)
  end.

Definition surrogate (r : Z) : bool := (0xD800 <=? r) && (r <? 0xE000).

(** [EncodeRune] (as [AppendRune] on an empty buffer): out-of-range runes
    and surrogates are written as [RuneError]. *)
Definition EncodeRune (r : Z) : bytes :=
  let r := if (r <? 0) || (0x10FFFF <? r) || surrogate r then RuneError
           else r in
  if r <=? 0x7F then [byte_of r]
  else if r <=? 0x7FF then [byte_of (0xC0 + r / 64); byte_of (0x80 + r mod 64)]
  else if r <=? 0xFFFF then
    [byte_of (0xE0 + r / 4096); byte_of (0x80 + r / 64 mod 64);
     byte_of (0x80 + r mod 64)]
  else
    [byte_of (0xF0 + r / 262144); byte_of (0x80 + r / 4096 mod 64);
     byte_of (0x80 + r / 64 mod 64); byte_of (0x80 + r mod 64)].

(** [ValidString]: every rune of [s] is a valid encoding. *)
Fixpoint ValidString (s : bytes) : bool :=
  match s with
  | [] => true
  | c0 :: t =>
      if bv c0 <? 0x80 then ValidString t
      else
        match snd (DecodeRune s), t with
        | 2%nat, _ :: t2 => ValidString t2
        | 3%nat, _ :: _ :: t3 => ValidString t3
        | 4%nat, _ :: _ :: _ :: t4 => ValidString t4
        | _, _ => false
        end
  end.

(** [utf16.DecodeRune]: the rune of a surrogate pair, [RuneError] when the
    two halves are not one. *)
Definition utf16_DecodeRune (r1 r2 : Z) : Z :=
  if (0xD800 <=? r1) && (r1 <? 0xDC00) && (0xDC00 <=? r2) && (r2 <? 0xE000)
  then (r1 - 0xD800) * 1024 + (r2 - 0xDC00) + 0x10000
  else RuneError.

End Utf8.

(** ** Errors

    Go's [(value, error)] results are sums; the left side carries the error. *)

Inductive result (E A : Type) : Type :=
| Ok (a : A)
| Err (e : E).
Arguments Ok {E A} a.
Arguments Err {E A} e.

Definition bind {E A B} (r : result E A) (k : A -> result E B) : result E B :=
  match r with
  | Ok a => k a
  | Err e => Err e
  end.

Definition is_ok {E A} (r : result E A) : bool :=
  match r with Ok _ => true | Err _ => false end.

(** ** encoding/json *)

Module Json.
Import Utf8.

Definition ch (s : string) : ascii :=
  match s with String c _ => c | EmptyString => Ascii.zero end.

Definition quote : ascii := byte_of 34.
Definition backslash : ascii := ch "\".

Definition lit (s : string) : bytes := bytes_of_string s.

Definition hex : bytes := lit "0123456789abcdef".
Definition hexdigit (i : Z) : ascii := nth (Z.to_nat i) hex (ch "0").

(** [htmlSafeSet]: the ASCII characters that are written as they are. *)
Definition htmlSafeSet (b : ascii) : bool :=
  (0x20 <=? bv b) && (bv b <? 0x80)
  && negb (Ascii.eqb b quote) && negb (Ascii.eqb b backslash)
  && negb (Ascii.eqb b (ch "<")) && negb (Ascii.eqb b (ch ">"))
  && negb (Ascii.eqb b (ch "&")).

(** The escape of an ASCII byte that is not in [htmlSafeSet]. *)
Definition escape (b : ascii) : bytes :=
  if Ascii.eqb b backslash || Ascii.eqb b quote then [backslash; b]
  else if bv b =? 8 then [backslash; ch "b"]
  else if bv b =? 12 then [backslash; ch "f"]
  else if bv b =? 10 then [backslash; ch "n"]
  else if bv b =? 13 then [backslash; ch "r"]
  else if bv b =? 9 then [backslash; ch "t"]
  else [backslash; ch "u"; ch "0"; ch "0";
        hexdigit (bv b / 16); hexdigit (bv b mod 16)].

(** The body of [appendString] with [escapeHTML] set, between the two
    quotes: the loop over [src] that advances by one byte or by the width
    of the rune at the head. *)
Fixpoint appendString_go (src : bytes) : bytes :=
  match src with
  | [] => []
  | b :: t =>
      if bv b <? 0x80 then
        if htmlSafeSet b then b :: appendString_go t
        else escape b ++ appendString_go t
      else
        let (c, size) := DecodeRune src in
        let out (raw : bytes) :=
          if (c =? 0x2028) || (c =? 0x2029)
          then lit "\u202" ++ [hexdigit (c mod 16)]
          else raw in
        match size, t with
        | 2%nat, c1 :: t2 => out [b; c1] ++ appendString_go t2
        | 3%nat, c1 :: c2 :: t3 => out [b; c1; c2] ++ appendString_go t3
        | 4%nat, c1 :: c2 :: c3 :: t4 =>
            out [b; c1; c2; c3] ++ appendString_go t4
        | _, _ => lit "\ufffd" ++ appendString_go t
        end
  end.

Definition appendString (src : string) : bytes :=
  quote :: appendString_go (bytes_of_string src) ++ [quote].

(** *** Decoding *)

#[warnings="-register-all"]
Inductive value : Type :=
| Null
| Bool (b : bool)
| Number (n : bytes)
| Str (s : bytes)
| Array (l : list value)
| Object (members : list (bytes * value)).

Definition isSpace (c : ascii) : bool :=
  Ascii.eqb c (ch " ") || (bv c =? 9) || (bv c =? 13) || (bv c =? 10).

Fixpoint skip_ws (s : bytes) : bytes :=
  match s with
  | c :: t => if isSpace c then skip_ws t else s
  | [] => []
  end.

Definition hexval (c : ascii) : option Z :=
  if in_range c 48 57 then Some (bv c - 48)
  else if in_range c 97 102 then Some (bv c - 97 + 10)
  else if in_range c 65 70 then Some (bv c - 65 + 10)
  else None.

(** [getu4] on the four characters after [\u]. *)
Definition getu4 (h1 h2 h3 h4 : ascii) : option Z :=
  match hexval h1, hexval h2, hexval h3, hexval h4 with
  | Some a, Some b, Some c, Some d => Some (a * 4096 + b * 256 + c * 16 + d)
  | _, _, _, _ => None
  end.

Definition push (out : bytes) (r : option (bytes * bytes)) :
  option (bytes * bytes) :=
  match r with
  | Some (s, rest) => Some (out ++ s, rest)
  | None => None
  end.

(** A string literal after its opening quote: the unquoted bytes and the
    input after the closing quote.  It joins what the scanner accepts
    (no control character, the escapes of the grammar) with [unquoteBytes]
    (escapes replaced, surrogate pairs joined, invalid UTF-8 replaced by
    U+FFFD). *)
Fixpoint unquote (s : bytes) : option (bytes * bytes) :=
  match s with
  | [] => None
  | c :: t =>
      if Ascii.eqb c quote then Some ([], t)
      else if Ascii.eqb c backslash then
        match t with
        | [] => None
        | e :: t1 =>
            if Ascii.eqb e quote || Ascii.eqb e backslash
               || Ascii.eqb e (ch "/")
            then push [e] (unquote t1)
            else if Ascii.eqb e (ch "b") then push [byte_of 8] (unquote t1)
            else if Ascii.eqb e (ch "f") then push [byte_of 12] (unquote t1)
            else if Ascii.eqb e (ch "n") then push [byte_of 10] (unquote t1)
            else if Ascii.eqb e (ch "r") then push [byte_of 13] (unquote t1)
            else if Ascii.eqb e (ch "t") then push [byte_of 9] (unquote t1)
            else if Ascii.eqb e (ch "u") then
              match t1 with
              | h1 :: h2 :: h3 :: h4 :: t5 =>
                  match getu4 h1 h2 h3 h4 with
                  | None => None
                  | Some rr =>
                      if surrogate rr then
                        match t5 with
                        | b1 :: u1 :: g1 :: g2 :: g3 :: g4 :: t11 =>
                            match
                              (if Ascii.eqb b1 backslash
                                  && Ascii.eqb u1 (ch "u")
                               then getu4 g1 g2 g3 g4 else None)
                            with
                            | Some rr1 =>
                                let d := utf16_DecodeRune rr rr1 in
                                if d =? RuneError
                                then push (EncodeRune RuneError) (unquote t5)
                                else push (EncodeRune d) (unquote t11)
                            | None =>
                                push (EncodeRune RuneError) (unquote t5)
                            end
                        | _ => push (EncodeRune RuneError) (unquote t5)
                        end
                      else push (EncodeRune rr) (unquote t5)
                  end
              | _ => None
              end
            else None
        end
      else if bv c <? 0x20 then None
      else if bv c <? 0x80 then push [c] (unquote t)
      else
        let (rr, size) := DecodeRune s in
        match size, t with
        | 2%nat, _ :: t2 => push (EncodeRune rr) (unquote t2)
        | 3%nat, _ :: _ :: t3 => push (EncodeRune rr) (unquote t3)
        | 4%nat, _ :: _ :: _ :: t4 => push (EncodeRune rr) (unquote t4)
        | _, _ => push (EncodeRune rr) (unquote t)
        end
  end.

(** *** Values

    The scanner and the decoder in one pass: the grammar of RFC 8259 with
    the nesting limit of the scanner.  [fuel] bounds the number of nested
    calls; every call consumes input, so the length of the input is
    enough. *)

Definition maxNestingDepth : Z := 10000.

Definition isDigit (c : ascii) : bool := in_range c 48 57.

Fixpoint digits (s : bytes) : bytes * bytes :=
  match s with
  | c :: t =>
      if isDigit c then let (d, r) := digits t in (c :: d, r) else ([], s)
  | [] => ([], [])
  end.

Definition scan_exp (acc s : bytes) : option (bytes * bytes) :=
  match s with
  | e :: t =>
      if Ascii.eqb e (ch "e") || Ascii.eqb e (ch "E") then
        let (sg, t1) :=
          match t with
          | c :: t' =>
              if Ascii.eqb c (ch "+") || Ascii.eqb c (ch "-")
              then ([c], t') else ([], t)
          | [] => ([], t)
          end in
        match digits t1 with
        | ([], _) => None
        | (d, r) => Some (acc ++ e :: sg ++ d, r)
        end
      else Some (acc, s)
  | [] => Some (acc, s)
  end.

Definition scan_frac (acc s : bytes) : option (bytes * bytes) :=
  match s with
  | p :: t =>
      if Ascii.eqb p (ch ".") then
        match digits t with
        | ([], _) => None
        | (d, r) => scan_exp (acc ++ p :: d) r
        end
      else scan_exp acc s
  | [] => scan_exp acc s
  end.

Definition scan_number (s : bytes) : option (bytes * bytes) :=
  let (sign, s1) :=
    match s with
    | c :: t => if Ascii.eqb c (ch "-") then ([c], t) else ([], s)
    | [] => ([], s)
    end in
  match s1 with
  | c :: t =>
      if Ascii.eqb c (ch "0") then scan_frac (sign ++ [c]) t
      else if in_range c 49 57 then
        let (d, r) := digits t in scan_frac (sign ++ c :: d) r
      else None
  | [] => None
  end.

(** [s] without the prefix [l], when it starts with it. *)
Fixpoint expect (l s : bytes) : option bytes :=
  match l, s with
  | [], _ => Some s
  | x :: l', c :: t => if Ascii.eqb x c then expect l' t else None
  | _ :: _, [] => None
  end.

Fixpoint parse_value (fuel : nat) (depth : Z) (s : bytes) {struct fuel}
  : option (value * bytes) :=
  match fuel with
  | O => None
  | S fuel' =>
      match skip_ws s with
      | [] => None
      | c :: t =>
          if Ascii.eqb c (ch "{") then
            if depth <? maxNestingDepth then
              match skip_ws t with
              | c' :: t' =>
                  if Ascii.eqb c' (ch "}") then Some (Object [], t')
                  else
                    match parse_members fuel' (depth + 1) t with
                    | Some (ms, r) => Some (Object ms, r)
                    | None => None
                    end
              | [] => None
              end
            else None
          else if Ascii.eqb c (ch "[") then
            if depth <? maxNestingDepth then
              match skip_ws t with
              | c' :: t' =>
                  if Ascii.eqb c' (ch "]") then Some (Array [], t')
                  else
                    match parse_elements fuel' (depth + 1) t with
                    | Some (vs, r) => Some (Array vs, r)
                    | None => None
                    end
              | [] => None
              end
            else None
          else if Ascii.eqb c quote then
            match unquote t with
            | Some (str, r) => Some (Str str, r)
            | None => None
            end
          else if Ascii.eqb c (ch "t") then
            match expect (lit "rue") t with
            | Some r => Some (Bool true, r)
            | None => None
            end
          else if Ascii.eqb c (ch "f") then
            match expect (lit "alse") t with
            | Some r => Some (Bool false, r)
            | None => None
            end
          else if Ascii.eqb c (ch "n") then
            match expect (lit "ull") t with
            | Some r => Some (Null, r)
            | None => None
            end
          else
            match scan_number (c :: t) with
            | Some (n, r) => Some (Number n, r)
            | None => None
            end
      end
  end

with parse_members (fuel : nat) (depth : Z) (s : bytes) {struct fuel}
  : option (list (bytes * value) * bytes) :=
  match fuel with
  | O => None
  | S fuel' =>
      match skip_ws s with
      | [] => None
      | c :: t =>
          if Ascii.eqb c quote then
            match unquote t with
            | None => None
            | Some (key, r1) =>
                match skip_ws r1 with
                | [] => None
                | c2 :: t2 =>
                    if Ascii.eqb c2 (ch ":") then
                      match parse_value fuel' depth t2 with
                      | None => None
                      | Some (v, r3) =>
                          match skip_ws r3 with
                          | [] => None
                          | c4 :: t4 =>
                              if Ascii.eqb c4 (ch ",") then
                                match parse_members fuel' depth t4 with
                                | Some (ms, r) => Some ((key, v) :: ms, r)
                                | None => None
                                end
                              else if Ascii.eqb c4 (ch "}")
                              then Some ([(key, v)], t4)
                              else None
                          end
                      end
                    else None
                end
            end
          else None
      end
  end

with parse_elements (fuel : nat) (depth : Z) (s : bytes) {struct fuel}
  : option (list value * bytes) :=
  match fuel with
  | O => None
  | S fuel' =>
      match parse_value fuel' depth s with
      | None => None
      | Some (v, r1) =>
          match skip_ws r1 with
          | [] => None
          | c :: t =>
              if Ascii.eqb c (ch ",") then
                match parse_elements fuel' depth t with
                | Some (vs, r) => Some (v :: vs, r)
                | None => None
                end
              else if Ascii.eqb c (ch "]") then Some ([v], t)
              else None
          end
      end
  end.

(** The whole input is one value between optional white space;
    [None] is a [SyntaxError]. *)
Definition parse (data : bytes) : option value :=
  match parse_value (S (List.length data)) 0 data with
  | Some (v, rest) =>
      match skip_ws rest with
      | [] => Some v
      | _ :: _ => None
      end
  | None => None
  end.

(** Keys match field names without regard to the case of ASCII letters. *)
Definition lower (c : ascii) : ascii :=
  if in_range c 65 90 then byte_of (bv c + 32) else c.

Definition equalFold (key : bytes) (name : string) : bool :=
  String.eqb (string_of_bytes (List.map lower key))
             (string_of_bytes (List.map lower (bytes_of_string name))).

End Json.

(** ** time

    A [time.Time] in UTC is the number of nanoseconds since the Unix epoch
    (gorm's [NowFunc] is [time.Now().UTC()]). *)

Module time.

Definition Time := Z.

Definition Second : Z := 1000000000.
Definition Minute : Z := 60 * Second.

(** The zero [Time], January 1 of the year 1. *)
Definition zero : Time := -62135596800 * Second.

(** Days since 1970-01-01 to the proleptic Gregorian (year, month, day). *)
Definition civil_from_days (z : Z) : Z * Z * Z :=
  let z := z + 719468 in
  let era := z / 146097 in
  let doe := z - era * 146097 in
  let yoe := (doe - doe / 1460 + doe / 36524 - doe / 146096) / 365 in
  let doy := doe - (365 * yoe + yoe / 4 - yoe / 100) in
  let mp := (5 * doy + 2) / 153 in
  let d := doy - (153 * mp + 2) / 5 + 1 in
  let m := if mp <? 10 then mp + 3 else mp - 9 in
  let y := yoe + era * 400 + (if m <=? 2 then 1 else 0) in
  (y, m, d).

Definition days_from_civil (y m d : Z) : Z :=
  let y := if m <=? 2 then y - 1 else y in
  let era := y / 400 in
  let yoe := y - era * 400 in
  let doy := (153 * (if 2 <? m then m - 3 else m + 9) + 2) / 5 + d - 1 in
  let doe := yoe * 365 + yoe / 4 - yoe / 100 + doy in
  era * 146097 + doe - 719468.

(** [w] decimal digits of [n], the most significant first. *)
Fixpoint decimal (w : nat) (n : Z) : bytes :=
  match w with
  | O => []
  | S w' => decimal w' (n / 10) ++ [byte_of (48 + n mod 10)]
  end.

Fixpoint drop_zeros_rev (r : bytes) : bytes :=
  match r with
  | c :: t => if Ascii.eqb c (Json.ch "0") then drop_zeros_rev t else r
  | [] => []
  end.

(** The [.999999999] part of the layout: nine digits without the trailing
    zeros, and nothing at all for a whole second. *)
Definition fraction (ns : Z) : bytes :=
  match rev (drop_zeros_rev (rev (decimal 9 ns))) with
  | [] => []
  | d => Json.ch "." :: d
  end.

(** [t.Format(time.RFC3339Nano)] for a UTC time of the years 0000 to 9999:
    the layout [2006-01-02T15:04:05.999999999Z07:00]. *)
Definition FormatRFC3339Nano (t : Time) : string :=
  let secs := t / Second in
  let ns := t mod Second in
  let days := secs / 86400 in
  let rem := secs mod 86400 in
  let '(y, m, d) := civil_from_days days in
  string_of_bytes
    (decimal 4 y ++ Json.lit "-" ++ decimal 2 m ++ Json.lit "-" ++ decimal 2 d
     ++ Json.lit "T" ++ decimal 2 (rem / 3600) ++ Json.lit ":"
     ++ decimal 2 (rem mod 3600 / 60) ++ Json.lit ":"
     ++ decimal 2 (rem mod 60) ++ fraction ns ++ Json.lit "Z").

Fixpoint number (acc : Z) (s : bytes) : option Z :=
  match s with
  | [] => Some acc
  | c :: t =>
      if Json.isDigit c then number (acc * 10 + (bv c - 48)) t else None
  end.

Definition days_in_month (y m : Z) : Z :=
  if m =? 2 then
    if ((y mod 4 =? 0) && negb (y mod 100 =? 0)) || (y mod 400 =? 0)
    then 29 else 28
  else if (m =? 4) || (m =? 6) || (m =? 9) || (m =? 11) then 30
  else 31.

(** The nanoseconds of a fraction of one to nine digits. *)
Definition parse_fraction (s : bytes) : option Z :=
  match s with
  | [] => Some 0
  | p :: d =>
      if Ascii.eqb p (Json.ch ".")
         && negb (Nat.eqb (List.length d) 0) && Nat.leb (List.length d) 9
      then
        match number 0 d with
        | Some n => Some (n * 10 ^ (9 - Z.of_nat (List.length d)))
        | None => None
        end
      else None
  end.

(** What the store reads from a timestamp parameter written in the layout
    above, [YYYY-MM-DDTHH:MM:SS[.fraction]Z]; anything else is refused. *)
Definition ParseRFC3339 (s : string) : option Time :=
  match bytes_of_string s with
  | y1 :: y2 :: y3 :: y4 :: h1 :: m1 :: m2 :: h2 :: d1 :: d2 :: sep
    :: hh1 :: hh2 :: c1 :: mi1 :: mi2 :: c2 :: s1 :: s2 :: rest =>
      match number 0 [y1; y2; y3; y4], number 0 [m1; m2], number 0 [d1; d2],
            number 0 [hh1; hh2], number 0 [mi1; mi2], number 0 [s1; s2],
            rev rest with
      | Some y, Some m, Some d, Some hh, Some mi, Some ss, z :: rfrac =>
          if Ascii.eqb h1 (Json.ch "-") && Ascii.eqb h2 (Json.ch "-")
             && Ascii.eqb sep (Json.ch "T") && Ascii.eqb c1 (Json.ch ":")
             && Ascii.eqb c2 (Json.ch ":") && Ascii.eqb z (Json.ch "Z")
             && (1 <=? m) && (m <=? 12) && (1 <=? d)
             && (d <=? days_in_month y m)
             && (hh <? 24) && (mi <? 60) && (ss <? 60)
          then
            match parse_fraction (rev rfrac) with
            | Some ns =>
                Some (((days_from_civil y m d * 24 + hh) * 60 + mi) * 60
                      * Second + ss * Second + ns)
            | None => None
            end
          else None
      | _, _, _, _, _, _, _ => None
      end
  | _ => None
  end.

End time.

(** ** github.com/google/uuid

    A [uuid.UUID] is the 128-bit number of its sixteen bytes, the first
    byte the most significant, so that the order of the numbers is the
    order of the byte strings. *)

Module uuid.

Definition UUID := Z.
Definition Nil : UUID := 0.

Fixpoint hexadecimal (w : nat) (n : Z) : bytes :=
  match w with
  | O => []
  | S w' => hexadecimal w' (n / 16) ++ [Json.hexdigit (n mod 16)]
  end.

(** [u.String()]: [xxxxxxxx-xxxx-xxxx-xxxx-xxxxxxxxxxxx]. *)
Definition String (u : UUID) : string :=
  let h := hexadecimal 32 u in
  let dash := Json.lit "-" in
  string_of_bytes
    (firstn 8 h ++ dash ++ firstn 4 (skipn 8 h) ++ dash
     ++ firstn 4 (skipn 12 h) ++ dash ++ firstn 4 (skipn 16 h) ++ dash
     ++ skipn 20 h).

Fixpoint hexnumber (acc : Z) (s : bytes) : option Z :=
  match s with
  | [] => Some acc
  | c :: t =>
      match Json.hexval c with
      | Some v => hexnumber (acc * 16 + v) t
      | None => None
      end
  end.

(** [Parse] of the 36-character form. *)
Definition Parse (s : string) : option UUID :=
  let b := bytes_of_string s in
  let dash c := Ascii.eqb c (Json.ch "-") in
  if Nat.eqb (List.length b) 36
     && forallb dash (firstn 1 (skipn 8 b))
     && forallb dash (firstn 1 (skipn 13 b))
     && forallb dash (firstn 1 (skipn 18 b))
     && forallb dash (firstn 1 (skipn 23 b))
  then
    hexnumber 0 (firstn 8 b ++ firstn 4 (skipn 9 b) ++ firstn 4 (skipn 14 b)
                 ++ firstn 4 (skipn 19 b) ++ skipn 24 b)
  else None.

End uuid.

(** ** models *)

Module models.

(** Prices are amounts in hundredths, as the [decimal(10,2)] column holds
    them. *)
Module Item.
Record t := mk {
    ID : uuid.UUID;
    Name : string;
    Stock : Z;
    Price : Z;
    CreatedAt : time.Time;
    UpdatedAt : time.Time;
    DeletedAt : option time.Time
  }.
End Item.

Module CreateItemRequest.
Record t := mk { Name : string; Stock : Z; Price : Z }.
End CreateItemRequest.

(** The three fields are pointers: [None] is a field that was not sent. *)
Module UpdateItemRequest.
Record t := mk {
    Name : option string;
    Stock : option Z;
    Price : option Z
  }.
End UpdateItemRequest.

Module PaginationRequest.
Record t := mk { Limit : Z; Cursor : string }.
End PaginationRequest.

Module FilterRequest.
Record t := mk {
    Name : string;
    MinStock : option Z;
    MinPrice : option Z;
    MaxPrice : option Z
  }.
End FilterRequest.

Module SortRequest.
Record t := mk { SortBy : string; SortOrder : string }.
End SortRequest.

Module PaginatedResponse.
Record t := mk {
    Items : list Item.t;
    NextCursor : string;
    HasMore : bool;
    Total : Z
  }.
End PaginatedResponse.

(** *** The [binding] tags, as the validator reads them *)

(** [binding:"omitempty,min=1,max=100"] on [Limit]. *)
Definition valid_PaginationRequest (p : PaginationRequest.t) : bool :=
  (PaginationRequest.Limit p =? 0)
  || ((1 <=? PaginationRequest.Limit p) && (PaginationRequest.Limit p <=? 100)).

(** [binding:"omitempty,min=0"] on the three optional bounds. *)
Definition valid_min0 (v : option Z) : bool :=
  match v with
  | None => true
  | Some n => 0 <=? n
  end.

Definition valid_FilterRequest (f : FilterRequest.t) : bool :=
  valid_min0 (FilterRequest.MinStock f)
  && valid_min0 (FilterRequest.MinPrice f)
  && valid_min0 (FilterRequest.MaxPrice f).

(** [oneof=...] after [omitempty]: the empty string passes. *)
Definition oneof (allowed : list string) (v : string) : bool :=
  String.eqb v "" || existsb (String.eqb v) allowed.

(** [binding:"omitempty,oneof=name stock price created_at"] on [SortBy] and
    [binding:"omitempty,oneof=asc desc"] on [SortOrder]. *)
Definition valid_SortRequest (s : SortRequest.t) : bool :=
  oneof ["name"; "stock"; "price"; "created_at"]%string (SortRequest.SortBy s)
  && oneof ["asc"; "desc"]%string (SortRequest.SortOrder s).

End models.

(** ** gorm over the [items] table

    The table is the list of its rows in storage order.  [conn_ok] tells
    whether statements reach the database; [log] records every statement
    that was issued. *)

Module gorm.
Import models.

Inductive stmt : Type :=
| SelectCount
| SelectRows
| SelectFirst
| Insert
| Update
| SoftDelete.

Inductive error : Type :=
| ErrRecordNotFound
| ErrConnection
| ErrSQL.

Record DB := mkDB {
  rows : list Item.t;
  conn_ok : bool;
  log : list stmt
}.

Definition issue (q : stmt) (db : DB) : DB :=
  mkDB (rows db) (conn_ok db) (log db ++ [q]).

Definition with_rows (l : list Item.t) (db : DB) : DB :=
  mkDB l (conn_ok db) (log db).

(** The model has a [DeletedAt] field, so every read and update carries
    [deleted_at IS NULL]. *)
Definition live (it : Item.t) : bool :=
  match Item.DeletedAt it with
  | None => true
  | Some _ => false
  end.

(** *** Conditions *)

Inductive cond : Type :=
| NameILike (pattern : string)
| StockGe (n : Z)
| PriceGe (n : Z)
| PriceLe (n : Z)
| After (created_at : string) (id : string).

(** [LIKE] with [%], [_] and the backslash escape, on bytes. *)
Fixpoint like (p : bytes) : bytes -> bool :=
  match p with
  | [] => fun s => match s with [] => true | _ :: _ => false end
  | c :: p' =>
      if Ascii.eqb c (Json.ch "%") then
        fix any (s : bytes) : bool :=
          like p' s || match s with [] => false | _ :: s' => any s' end
      else if Ascii.eqb c (Json.ch "_") then
        fun s => match s with [] => false | _ :: s' => like p' s' end
      else if Ascii.eqb c Json.backslash then
        match p' with
        | e :: p'' =>
            fun s => match s with
                     | [] => false
                     | x :: s' => Ascii.eqb x e && like p'' s'
                     end
        | [] => fun _ => false
        end
      else
        fun s => match s with
                 | [] => false
                 | x :: s' => Ascii.eqb x c && like p' s'
                 end
  end.

(** [ILIKE]: [LIKE] without regard to the case of ASCII letters. *)
Definition ilike (pattern s : string) : bool :=
  like (List.map Json.lower (bytes_of_string pattern))
       (List.map Json.lower (bytes_of_string s)).

(** A condition on a row; [None] when a parameter cannot be read as the
    type of its column, which fails the statement. *)
Definition holds (c : cond) (it : Item.t) : option bool :=
  match c with
  | NameILike pattern => Some (ilike pattern (Item.Name it))
  | StockGe n => Some (n <=? Item.Stock it)
  | PriceGe n => Some (n <=? Item.Price it)
  | PriceLe n => Some (Item.Price it <=? n)
  | After created_at id =>
      match time.ParseRFC3339 created_at, uuid.Parse id with
      | Some ts, Some u =>
          Some ((Item.CreatedAt it <? ts)
                || ((Item.CreatedAt it =? ts) && (Item.ID it <? u)))
      | _, _ => None
      end
  end.

(** Whether the parameters of a condition can be read at all. *)
Definition well_typed (c : cond) : bool :=
  match c with
  | After created_at id =>
      match time.ParseRFC3339 created_at, uuid.Parse id with
      | Some _, Some _ => true
      | _, _ => false
      end
  | _ => true
  end.

Definition satisfies (cs : list cond) (it : Item.t) : bool :=
  forallb (fun c => match holds c it with Some b => b | None => false end) cs.

(** The rows a [WHERE] of the conditions [cs] selects, in storage order. *)
Definition matching (cs : list cond) (l : list Item.t) : list Item.t :=
  List.filter (fun it => live it && satisfies cs it) l.

(** *** Order *)

(** [ORDER BY column direction].  A column is compared by its type; an
    unknown column fails the statement. *)
Definition column_le (column : string) : option (Item.t -> Item.t -> bool) :=
  if String.eqb column "id" then
    Some (fun a b => Item.ID a <=? Item.ID b)
  else if String.eqb column "name" then
    Some (fun a b => String.leb (Item.Name a) (Item.Name b))
  else if String.eqb column "stock" then
    Some (fun a b => Item.Stock a <=? Item.Stock b)
  else if String.eqb column "price" then
    Some (fun a b => Item.Price a <=? Item.Price b)
  else if String.eqb column "created_at" then
    Some (fun a b => Item.CreatedAt a <=? Item.CreatedAt b)
  else if String.eqb column "updated_at" then
    Some (fun a b => Item.UpdatedAt a <=? Item.UpdatedAt b)
  else None.

Fixpoint insert_by (le : Item.t -> Item.t -> bool) (x : Item.t)
  (l : list Item.t) : list Item.t :=
  match l with
  | [] => [x]
  | y :: l' => if le x y then x :: l else y :: insert_by le x l'
  end.

(** SQL leaves the order of rows with equal keys open; here they stay in
    storage order. *)
Definition sort_by (le : Item.t -> Item.t -> bool) (l : list Item.t)
  : list Item.t :=
  List.fold_right (insert_by le) [] l.

Definition ordered (column : string) (desc : bool) (l : list Item.t)
  : option (list Item.t) :=
  match column_le column with
  | Some le => Some (sort_by (if desc then fun a b => le b a else le) l)
  | None => None
  end.

(** *** Statements *)

Record Query := mkQuery {
  conds : list cond;
  order : string * bool;
  limit : option Z
}.

Definition Where (c : cond) (q : Query) : Query :=
  mkQuery (conds q ++ [c]) (order q) (limit q).

Definition Order (column : string) (desc : bool) (q : Query) : Query :=
  mkQuery (conds q) (column, desc) (limit q).

Definition Limit (n : Z) (q : Query) : Query :=
  mkQuery (conds q) (order q) (Some n).

(** A negative limit is no limit. *)
Definition limited (n : option Z) (l : list Item.t) : list Item.t :=
  match n with
  | Some n => if 0 <=? n then firstn (Z.to_nat n) l else l
  | None => l
  end.

(** [Count]: the order and the limit play no part. *)
Definition Count (q : Query) (db : DB) : DB * result error Z :=
  let db := issue SelectCount db in
  if negb (conn_ok db) then (db, Err ErrConnection)
  else if negb (forallb well_typed (conds q)) then (db, Err ErrSQL)
  else (db, Ok (Z.of_nat (List.length (matching (conds q) (rows db))))).

Definition Find (q : Query) (db : DB) : DB * result error (list Item.t) :=
  let db := issue SelectRows db in
  if negb (conn_ok db) then (db, Err ErrConnection)
  else if negb (forallb well_typed (conds q)) then (db, Err ErrSQL)
  else
    match ordered (fst (order q)) (snd (order q))
                  (matching (conds q) (rows db)) with
    | Some l => (db, Ok (limited (limit q) l))
    | None => (db, Err ErrSQL)
    end.

(** [Where("id = ?", id).First(item)]. *)
Definition First (id : string) (db : DB) : DB * result error Item.t :=
  let db := issue SelectFirst db in
  if negb (conn_ok db) then (db, Err ErrConnection)
  else
    match uuid.Parse id with
    | None => (db, Err ErrSQL)
    | Some u =>
        match List.find (fun it => live it && (Item.ID it =? u)) (rows db) with
        | Some it => (db, Ok it)
        | None => (db, Err ErrRecordNotFound)
        end
    end.

Definition IsZero (t : time.Time) : bool := t =? time.zero.

(** [Create]: the [BeforeCreate] hook gives a row without identifier a new
    one, the two time stamps that are zero are set to [now], and the row is
    inserted; the primary key must be new. *)
Definition Create (it : Item.t) (now : time.Time) (new_id : uuid.UUID)
  (db : DB) : DB * result error Item.t :=
  let it :=
    Item.mk (if Item.ID it =? uuid.Nil then new_id else Item.ID it)
            (Item.Name it) (Item.Stock it) (Item.Price it)
            (if IsZero (Item.CreatedAt it) then now else Item.CreatedAt it)
            (if IsZero (Item.UpdatedAt it) then now else Item.UpdatedAt it)
            (Item.DeletedAt it) in
  let db := issue Insert db in
  if negb (conn_ok db) then (db, Err ErrConnection)
  else if existsb (fun r => Item.ID r =? Item.ID it) (rows db)
  then (db, Err ErrSQL)
  else (with_rows (rows db ++ [it]) db, Ok it).

Definition touch (now : time.Time) (it : Item.t) : Item.t :=
  Item.mk (Item.ID it) (Item.Name it) (Item.Stock it) (Item.Price it)
          (Item.CreatedAt it) now (Item.DeletedAt it).

(** [Save] of a row that has its primary key: every column is written and
    [updated_at] becomes [now], in the table and in the value that was
    passed; a row that is not there is inserted. *)
Definition Save (it : Item.t) (now : time.Time) (db : DB)
  : DB * result error Item.t :=
  let it := touch now it in
  let db := issue Update db in
  if negb (conn_ok db) then (db, Err ErrConnection)
  else if existsb (fun r => Item.ID r =? Item.ID it) (rows db) then
    (with_rows
       (List.map (fun r => if Item.ID r =? Item.ID it then it else r)
                 (rows db)) db,
     Ok it)
  else (with_rows (rows db ++ [it]) db, Ok it).

(** [Where("id = ?", id).Delete(&models.Item{})]: a soft delete; the
    result is [RowsAffected]. *)
Definition Delete (id : string) (now : time.Time) (db : DB)
  : DB * result error Z :=
  let db := issue SoftDelete db in
  if negb (conn_ok db) then (db, Err ErrConnection)
  else
    match uuid.Parse id with
    | None => (db, Err ErrSQL)
    | Some u =>
        let hit it := live it && (Item.ID it =? u) in
        (with_rows
           (List.map (fun it =>
                        if hit it then
                          Item.mk (Item.ID it) (Item.Name it) (Item.Stock it)
                                  (Item.Price it) (Item.CreatedAt it)
                                  (Item.UpdatedAt it) (Some now)
                        else it)
                     (rows db)) db,
         Ok (Z.of_nat (List.length (List.filter hit (rows db)))))
    end.

End gorm.

(** ** ristretto

    The cache as its code has it.  [Get] reads [storedItems], and misses
    an entry after its expiry.  A [Set] of a key that [storedItems] holds
    writes the new value there at once; a [Set] of a new key only puts the
    item on the channel [setBuf], where it is dropped when the channel is
    full, and [Get] sees it after the goroutine [processItems] has taken it
    from the channel and the policy has admitted it.  [Clear] empties the
    channel and the map.

    What the admission policy answers for an item (TinyLFU over sampled
    counters) is not computed here: it is the [verdict] that a turn of the
    goroutine is given, and so are the expired entries that a tick of the
    cleanup removes.  Collisions of the 64-bit hashes of two keys are left
    out. *)

Module ristretto.
Import models.

(** [expiration] is [None] for the zero time: no expiry. *)
Record entry := mkEntry { value : Item.t; expiration : option time.Time }.

Inductive itemFlag : Type := itemNew | itemUpdate.

Record item := mkItem { flag : itemFlag; Key : string; Entry : entry }.

Record Cache := mkCache {
  storedItems : gmap string entry;
  setBuf : list item
}.

(** The capacity of the channel [setBuf]. *)
Definition setBufSize : Z := 32 * 1024.

(** [NewCache]: nothing stored, nothing queued. *)
#[global] Instance NewCache : Empty Cache := mkCache ∅ [].

Definition Get (key : string) (now : time.Time) (c : Cache)
  : option Item.t :=
  match storedItems c !! key with
  | Some e =>
      match expiration e with
      | Some expiry => if expiry <? now then None else Some (value e)
      | None => Some (value e)
      end
  | None => None
  end.

(** The [select] on the channel: the item is sent when there is room. *)
Definition send (i : item) (c : Cache) : option Cache :=
  if Z.of_nat (List.length (setBuf c)) <? setBufSize
  then Some (mkCache (storedItems c) (setBuf c ++ [i]))
  else None.

(** A negative [ttl] is a no-op and a zero one means no expiry.  The
    boolean is what [SetWithTTL] returns. *)
Definition SetWithTTL (key : string) (v : Item.t) (ttl : Z)
  (now : time.Time) (c : Cache) : Cache * bool :=
  if ttl <? 0 then (c, false)
  else
    let e := mkEntry v (if ttl =? 0 then None else Some (now + ttl)) in
    match storedItems c !! key with
    | Some _ =>
        let c := mkCache (<[key := e]> (storedItems c)) (setBuf c) in
        match send (mkItem itemUpdate key e) c with
        | Some c' => (c', true)
        | None => (c, true)
        end
    | None =>
        match send (mkItem itemNew key e) c with
        | Some c' => (c', true)
        | None => (c, false)
        end
    end.

Definition Clear (c : Cache) : Cache := mkCache ∅ [].

(** What [cachePolicy.Add] answers for a new item: whether it is admitted,
    and the keys that are evicted for it. *)
Record verdict := mkVerdict { added : bool; victims : list string }.

Definition expired (now : time.Time) (e : entry) : bool :=
  match expiration e with
  | Some expiry => expiry <? now
  | None => false
  end.

(** One turn of the loop of [processItems].  [Process]: the first item of
    the channel is taken; a new item is stored when the policy admits it,
    and the victims of the policy are removed.  [Cleanup]: the ticker
    fires, and the entries of the buckets it visits, which have expired,
    are removed. *)
Inductive turn : Type :=
| Process (v : verdict)
| Cleanup (now : time.Time) (keys : list string).

Definition remove_expired (now : time.Time) (m : gmap string entry)
  (k : string) : gmap string entry :=
  match m !! k with
  | Some e => if expired now e then delete k m else m
  | None => m
  end.

Definition processItem (c : Cache) (t : turn) : Cache :=
  match t with
  | Process v =>
      match setBuf c with
      | [] => c
      | i :: rest =>
          match flag i with
          | itemNew =>
              let stored :=
                if added v then <[Key i := Entry i]> (storedItems c)
                else storedItems c in
              mkCache
                (List.fold_left (fun m k => delete k m) (victims v) stored)
                rest
          | itemUpdate => mkCache (storedItems c) rest
          end
      end
  | Cleanup now keys =>
      mkCache (List.fold_left (remove_expired now) keys (storedItems c))
              (setBuf c)
  end.

(** The goroutine, turn after turn. *)
Definition processItems (turns : list turn) (c : Cache) : Cache :=
  List.fold_left processItem turns c.

End ristretto.

(** ** float64

    The finite numbers of IEEE 754 binary64, which is what the limiter
    computes with.  Every such number is a whole multiple of [2^-1074], the
    least subnormal, and is written here as that multiple: [scale] stands
    for [1.0].  An operation gives the exact result rounded to the nearest
    number of 53 significant bits, ties to even.  Infinities and NaN are
    not written: the numbers of the limiter stay far below [2^1024]. *)

Module float64.

Definition t : Type := Z.

Definition scale : Z := 2 ^ 1074.

(** The distance of two neighbouring numbers near [a]: [1] below [2^53]
    multiples of the least subnormal, and the power of two that leaves 53
    bits above. *)
Definition ulp (a : Z) : Z := 2 ^ Z.max 0 (Z.log2 a - 52).

(** The whole number nearest to [n / d], the even one of two that are as
    near. *)
Definition nearest_even (n d : Z) : Z :=
  let q := n / d in
  match 2 * (n mod d) ?= d with
  | Lt => q
  | Gt => q + 1
  | Eq => if Z.even q then q else q + 1
  end.

(** The number nearest to [n / d], for [0 < d]. *)
Definition round (n d : Z) : t :=
  let u := ulp (Z.abs n / d) in u * nearest_even n (d * u).

(** [float64(n)] of an integer. *)
Definition of_int (n : Z) : t := round (n * scale) 1.

Definition add (x y : t) : t := round (x + y) 1.
Definition sub (x y : t) : t := round (x - y) 1.
Definition mul (x y : t) : t := round (x * y) scale.

(** [x / y] for a [y] that is not zero. *)
Definition div (x y : t) : t :=
  if 0 <? y then round (x * scale) y else round (- (x * scale)) (- y).

Definition opp (x : t) : t := - x.

(** The conversion to an integer, which drops the fraction. *)
Definition to_int (x : t) : Z := Z.quot x scale.

End float64.

(** ** golang.org/x/time/rate

    A token bucket of [burst] tokens refilled at [limit] tokens per second,
    as [Limiter.reserveN] computes it for one token and no wait.  The
    tokens are a [float64].  A new limiter has no tokens and the zero time
    as the time of its last admission, so that its first check earns the
    tokens of the whole time since the year 1, up to [burst].  A check
    adds the tokens of the time since the last admission, takes one token,
    and admits when the time to wait for what is missing, cut to whole
    nanoseconds, is zero. *)

Module rate.

Record Limiter := mkLimiter {
  limit : float64.t;
  burst : Z;
  tokens : float64.t;
  last : time.Time
}.

Definition NewLimiter (r : float64.t) (b : Z) : Limiter :=
  mkLimiter r b 0 time.zero.

Definition maxDuration : Z := 2 ^ 63 - 1.
Definition minDuration : Z := - 2 ^ 63.
Definition InfDuration : Z := maxDuration.

(** [t.Sub(u)]: the difference, or the largest or least duration when it
    does not fit. *)
Definition Sub (t u : time.Time) : Z :=
  if maxDuration <? t - u then maxDuration
  else if t - u <? minDuration then minDuration
  else t - u.

(** [d.Seconds()]. *)
Definition Seconds (d : Z) : float64.t :=
  let sec := Z.quot d time.Second in
  let nsec := Z.rem d time.Second in
  float64.add (float64.of_int sec)
    (float64.div (float64.of_int nsec) (float64.of_int 1000000000)).

Definition tokensFromDuration (limit : float64.t) (d : Z) : float64.t :=
  if limit <=? 0 then 0 else float64.mul (Seconds d) limit.

Definition durationFromTokens (limit : float64.t) (tokens : float64.t) : Z :=
  if limit <=? 0 then InfDuration
  else
    let duration :=
      float64.mul (float64.div tokens limit) (float64.of_int time.Second) in
    if float64.of_int (2 ^ 63 - 1) <? duration then InfDuration
    else float64.to_int duration.

(** [advance]: the tokens at time [t]. *)
Definition advance (lim : Limiter) (t : time.Time) : float64.t :=
  let last := if t <? last lim then t else last lim in
  let elapsed := Sub t last in
  let delta := tokensFromDuration (limit lim) elapsed in
  let tokens := float64.add (tokens lim) delta in
  let burst := float64.of_int (burst lim) in
  if burst <? tokens then burst else tokens.

(** [Allow] at the time [now] of the clock.  With the limit zero the burst
    itself is counted down. *)
Definition Allow (lim : Limiter) (now : time.Time) : Limiter * bool :=
  if limit lim =? 0 then
    if 1 <=? burst lim
    then (mkLimiter (limit lim) (burst lim - 1) (tokens lim) (last lim), true)
    else (lim, false)
  else
    let tokens := float64.sub (advance lim now) (float64.of_int 1) in
    let waitDuration :=
      if tokens <? 0
      then durationFromTokens (limit lim) (float64.opp tokens)
      else 0 in
    if (1 <=? burst lim) && (waitDuration <=? 0)
    then (mkLimiter (limit lim) (burst lim) tokens now, true)
    else (lim, false).

End rate.

(** ** utils *)

Module utils.
Import models.

(** *** rate_limiter.go *)

Record RateLimiter := mkRateLimiter {
  limiters : gmap string rate.Limiter;
  rate_ : float64.t;
  burst : Z
}.

(** [rate.Limit(requestsPerSecond)] is the conversion to [float64]. *)
Definition NewRateLimiter (requestsPerSecond : Z) (burst : Z) : RateLimiter :=
  mkRateLimiter ∅ (float64.of_int requestsPerSecond) burst.

Definition GetLimiter (rl : RateLimiter) (key : string)
  : RateLimiter * rate.Limiter :=
  match limiters rl !! key with
  | Some limiter => (rl, limiter)
  | None =>
      let limiter := rate.NewLimiter (rate_ rl) (burst rl) in
      (mkRateLimiter (<[key := limiter]> (limiters rl)) (rate_ rl) (burst rl),
       limiter)
  end.

(** The map holds pointers: the limiter that [Allow] changes is the one in
    the map. *)
Definition Allow (rl : RateLimiter) (key : string) (now : time.Time)
  : RateLimiter * bool :=
  let (rl, limiter) := GetLimiter rl key in
  let (limiter, ok) := rate.Allow limiter now in
  (mkRateLimiter (<[key := limiter]> (limiters rl)) (rate_ rl) (burst rl), ok).

(** One tick of the ticker of [CleanupOldLimiters]: the loop over the keys
    of the map, whose body is [_ = key]. *)
Definition sweep (maxAge : Z) (rl : RateLimiter) : RateLimiter :=
  List.fold_left
    (fun (acc : RateLimiter) (key : string) => let _ := key in acc)
    (List.map fst (map_to_list (limiters rl))) rl.

(** The background loop after [ticks] ticks. *)
Definition CleanupOldLimiters (maxAge : Z) (ticks : nat) (rl : RateLimiter)
  : RateLimiter :=
  Nat.iter ticks (sweep maxAge) rl.

(** What happens to a limiter that is being cleaned up: admission checks
    and ticks of the ticker, in any order. *)
Inductive event : Type :=
| Request (key : string) (now : time.Time)
| Tick.

Definition step (maxAge : Z) (rl : RateLimiter) (e : event) : RateLimiter :=
  match e with
  | Request key now => fst (Allow rl key now)
  | Tick => sweep maxAge rl
  end.

Definition run (maxAge : Z) (rl : RateLimiter) (es : list event)
  : RateLimiter :=
  List.fold_left (step maxAge) es rl.

Fixpoint nondecreasing (ts : list time.Time) : bool :=
  match ts with
  | t :: ts' =>
      match ts' with
      | t' :: _ => (t <=? t') && nondecreasing ts'
      | [] => true
      end
  | [] => true
  end.

(** The keys of the admission checks among the events. *)
Fixpoint requested (es : list event) : list string :=
  match es with
  | Request key _ :: es' => key :: requested es'
  | Tick :: es' => requested es'
  | [] => []
  end.


(** *** item_service.go: the cursor *)

Module CursorData.
Record t := mk { ID : string; CreatedAt : string }.
End CursorData.

(** [json.Marshal] of a [CursorData]: its two string fields under their
    [json] tags. *)
Definition Marshal (c : CursorData.t) : bytes :=
  Json.lit "{" ++ Json.appendString "id" ++ Json.lit ":"
  ++ Json.appendString (CursorData.ID c)
  ++ Json.lit "," ++ Json.appendString "created_at" ++ Json.lit ":"
  ++ Json.appendString (CursorData.CreatedAt c)
  ++ Json.lit "}".

Inductive decode_error : Type :=
| CorruptInputError
| SyntaxError
| UnmarshalTypeError.

(** One member of the object: a string goes to the field of that name,
    [null] leaves the field as it is, any other value for one of the two
    fields is a type error (the first one is kept), and unknown keys are
    skipped. *)
Definition set_member (acc : CursorData.t * option decode_error)
  (m : bytes * Json.value) : CursorData.t * option decode_error :=
  let (c, e) := acc in
  let (key, v) := m in
  let mismatch := match e with
                  | Some _ => e
                  | None => Some UnmarshalTypeError
                  end in
  if Json.equalFold key "id" then
    match v with
    | Json.Str s => (CursorData.mk (string_of_bytes s) (CursorData.CreatedAt c), e)
    | Json.Null => (c, e)
    | _ => (c, mismatch)
    end
  else if Json.equalFold key "created_at" then
    match v with
    | Json.Str s => (CursorData.mk (CursorData.ID c) (string_of_bytes s), e)
    | Json.Null => (c, e)
    | _ => (c, mismatch)
    end
  else (c, e).

(** [json.Unmarshal] into a zero [CursorData]. *)
Definition Unmarshal (data : bytes) : result decode_error CursorData.t :=
  match Json.parse data with
  | None => Err SyntaxError
  | Some Json.Null => Ok (CursorData.mk "" "")
  | Some (Json.Object members) =>
      match List.fold_left set_member members (CursorData.mk "" "", None) with
      | (c, None) => Ok c
      | (_, Some e) => Err e
      end
  | Some _ => Err UnmarshalTypeError
  end.

Definition encodeCursor (cursor : CursorData.t) : result decode_error string :=
  Ok (Base64.EncodeToString (Marshal cursor)).

Definition decodeCursor (cursor : string) : result decode_error CursorData.t :=
  match Base64.DecodeString cursor with
  | None => Err CorruptInputError
  | Some data => Unmarshal data
  end.

(** *** item_service.go: the service *)

Record ItemService := mkItemService {
  db : gorm.DB;
  cache : option ristretto.Cache
}.

(** The errors of the service, one for each message it formats. *)
Inductive error : Type :=
| FailedToCreate (e : gorm.error)
| ItemNotFound
| FailedToGet (e : gorm.error)
| FailedToUpdate (e : gorm.error)
| FailedToDelete (e : gorm.error)
| FailedToCount (e : gorm.error)
| InvalidCursor (e : decode_error)
| FailedToGetItems (e : gorm.error).

Definition getFromCache (s : ItemService) (id : string) (now : time.Time)
  : option Item.t :=
  match cache s with
  | None => None
  | Some c => ristretto.Get id now c
  end.

Definition setCache (s : ItemService) (id : string) (item : Item.t)
  (now : time.Time) : ItemService :=
  match cache s with
  | None => s
  | Some c =>
      mkItemService (db s)
        (Some (fst (ristretto.SetWithTTL id item (5 * time.Minute) now c)))
  end.

Definition invalidateCache (s : ItemService) : ItemService :=
  match cache s with
  | None => s
  | Some c => mkItemService (db s) (Some (ristretto.Clear c))
  end.

Definition with_db (d : gorm.DB) (s : ItemService) : ItemService :=
  mkItemService d (cache s).

(** What the goroutine of the cache does between two calls of the
    service. *)
Definition processItems (turns : list ristretto.turn) (s : ItemService)
  : ItemService :=
  match cache s with
  | None => s
  | Some c => mkItemService (db s) (Some (ristretto.processItems turns c))
  end.

Definition CreateItem (s : ItemService) (req : CreateItemRequest.t)
  (now : time.Time) (new_id : uuid.UUID)
  : ItemService * result error Item.t :=
  let item :=
    Item.mk uuid.Nil (CreateItemRequest.Name req) (CreateItemRequest.Stock req)
            (CreateItemRequest.Price req) time.zero time.zero None in
  match gorm.Create item now new_id (db s) with
  | (d, Err e) => (with_db d s, Err (FailedToCreate e))
  | (d, Ok item) => (invalidateCache (with_db d s), Ok item)
  end.

Definition GetItem (s : ItemService) (id : string) (now : time.Time)
  : ItemService * result error Item.t :=
  match getFromCache s id now with
  | Some item => (s, Ok item)
  | None =>
      match gorm.First id (db s) with
      | (d, Err gorm.ErrRecordNotFound) => (with_db d s, Err ItemNotFound)
      | (d, Err e) => (with_db d s, Err (FailedToGet e))
      | (d, Ok item) => (setCache (with_db d s) id item now, Ok item)
      end
  end.

(** The fields of the request that are set replace those of the row. *)
Definition patch (item : Item.t) (req : UpdateItemRequest.t) : Item.t :=
  let item :=
    match UpdateItemRequest.Name req with
    | Some name =>
        Item.mk (Item.ID item) name (Item.Stock item) (Item.Price item)
                (Item.CreatedAt item) (Item.UpdatedAt item)
                (Item.DeletedAt item)
    | None => item
    end in
  let item :=
    match UpdateItemRequest.Stock req with
    | Some stock =>
        Item.mk (Item.ID item) (Item.Name item) stock (Item.Price item)
                (Item.CreatedAt item) (Item.UpdatedAt item)
                (Item.DeletedAt item)
    | None => item
    end in
  match UpdateItemRequest.Price req with
  | Some price =>
      Item.mk (Item.ID item) (Item.Name item) (Item.Stock item) price
              (Item.CreatedAt item) (Item.UpdatedAt item)
              (Item.DeletedAt item)
  | None => item
  end.

Definition UpdateItem (s : ItemService) (id : string)
  (req : UpdateItemRequest.t) (now : time.Time)
  : ItemService * result error Item.t :=
  match gorm.First id (db s) with
  | (d, Err gorm.ErrRecordNotFound) => (with_db d s, Err ItemNotFound)
  | (d, Err e) => (with_db d s, Err (FailedToGet e))
  | (d, Ok item) =>
      match gorm.Save (patch item req) now d with
      | (d, Err e) => (with_db d s, Err (FailedToUpdate e))
      | (d, Ok item) => (invalidateCache (with_db d s), Ok item)
      end
  end.

Definition DeleteItem (s : ItemService) (id : string) (now : time.Time)
  : ItemService * result error unit :=
  match gorm.Delete id now (db s) with
  | (d, Err e) => (with_db d s, Err (FailedToDelete e))
  | (d, Ok rowsAffected) =>
      if rowsAffected =? 0 then (with_db d s, Err ItemNotFound)
      else (invalidateCache (with_db d s), Ok tt)
  end.

(** Go's [int] is 64 bits wide. *)
Definition int (z : Z) : Z := (z + 2 ^ 63) mod 2 ^ 64 - 2 ^ 63.

(** The conditions of the filters, in the order they are added. *)
Definition filter_conds (filters : option FilterRequest.t) : list gorm.cond :=
  match filters with
  | None => []
  | Some f =>
      (if String.eqb (FilterRequest.Name f) "" then []
       else [gorm.NameILike ("%" ++ FilterRequest.Name f ++ "%")])
      ++ match FilterRequest.MinStock f with
         | Some n => [gorm.StockGe n] | None => [] end
      ++ match FilterRequest.MinPrice f with
         | Some n => [gorm.PriceGe n] | None => [] end
      ++ match FilterRequest.MaxPrice f with
         | Some n => [gorm.PriceLe n] | None => [] end
  end.

Definition sort_order (sort : option SortRequest.t) : string * bool :=
  match sort with
  | Some so =>
      if String.eqb (SortRequest.SortBy so) "" then ("created_at", true)
      else (SortRequest.SortBy so, String.eqb (SortRequest.SortOrder so) "desc")
  | None => ("created_at", true)
  end.

Definition page_limit (pagination : option PaginationRequest.t) : Z :=
  match pagination with
  | Some p =>
      if 0 <? PaginationRequest.Limit p then PaginationRequest.Limit p else 10
  | None => 10
  end.

Definition cursor_of (pagination : option PaginationRequest.t) : string :=
  match pagination with
  | Some p => PaginationRequest.Cursor p
  | None => ""
  end.

(** The query after the cursor of the request, when there is one: the
    range condition on [(created_at, id)]. *)
Definition with_cursor (pagination : option PaginationRequest.t)
  (query : gorm.Query) : result error gorm.Query :=
  if String.eqb (cursor_of pagination) "" then Ok query
  else
    match decodeCursor (cursor_of pagination) with
    | Err e => Err (InvalidCursor e)
    | Ok cursorData =>
        Ok (gorm.Where
              (gorm.After (CursorData.CreatedAt cursorData)
                          (CursorData.ID cursorData)) query)
    end.

(** The cursor of a page that has more: the last row that was kept. *)
Definition next_cursor (hasMore : bool) (items : list Item.t) : string :=
  match hasMore, last items with
  | true, Some lastItem =>
      match encodeCursor
              (CursorData.mk (uuid.String (Item.ID lastItem))
                 (time.FormatRFC3339Nano (Item.CreatedAt lastItem))) with
      | Ok c => c
      | Err _ => ""
      end
  | _, _ => ""
  end.

Definition GetItems (s : ItemService)
  (pagination : option PaginationRequest.t)
  (filters : option FilterRequest.t) (sort : option SortRequest.t)
  : ItemService * result error PaginatedResponse.t :=
  let query :=
    gorm.mkQuery (filter_conds filters) (sort_order sort) None in
  match gorm.Count query (db s) with
  | (d, Err e) => (with_db d s, Err (FailedToCount e))
  | (d, Ok total) =>
      match with_cursor pagination query with
      | Err e => (with_db d s, Err e)
      | Ok query =>
          let limit := page_limit pagination in
          let query := gorm.Limit (int (limit + 1)) query in
          match gorm.Find query d with
          | (d, Err e) => (with_db d s, Err (FailedToGetItems e))
          | (d, Ok items) =>
              let hasMore := limit <? Z.of_nat (List.length items) in
              let items :=
                if hasMore then firstn (Z.to_nat limit) items else items in
              (with_db d s,
               Ok (PaginatedResponse.mk items (next_cursor hasMore items)
                     hasMore total))
          end
      end
  end.

End utils.

(** ** controllers: the list handler *)

Module controllers.
Import models.

(** The three structures [ShouldBindQuery] fills from the query string. *)
Record ListRequest := mkListRequest {
  pagination : PaginationRequest.t;
  filters : FilterRequest.t;
  sort : SortRequest.t
}.

Definition with_limit (n : Z) (req : ListRequest) : ListRequest :=
  mkListRequest
    (PaginationRequest.mk n (PaginationRequest.Cursor (pagination req)))
    (filters req) (sort req).

Inductive response : Type :=
| BadRequest (Error : string)
| InternalServerError (Error : string) (cause : utils.error)
| StatusOK (body : PaginatedResponse.t).

Definition GetItems (svc : utils.ItemService) (req : ListRequest)
  : utils.ItemService * response :=
  if negb (valid_PaginationRequest (pagination req))
  then (svc, BadRequest "Invalid pagination parameters")
  else if negb (valid_FilterRequest (filters req))
  then (svc, BadRequest "Invalid filter parameters")
  else if negb (valid_SortRequest (sort req))
  then (svc, BadRequest "Invalid sort parameters")
  else
    let pagination :=
      if PaginationRequest.Limit (pagination req) =? 0
      then PaginationRequest.mk 10 (PaginationRequest.Cursor (pagination req))
      else pagination req in
    let sort :=
      SortRequest.mk
        (if String.eqb (SortRequest.SortBy (sort req)) "" then "created_at"
         else SortRequest.SortBy (sort req))
        (if String.eqb (SortRequest.SortOrder (sort req)) "" then "desc"
         else SortRequest.SortOrder (sort req)) in
    match utils.GetItems svc (Some pagination) (Some (filters req))
                         (Some sort) with
    | (svc, Err e) => (svc, InternalServerError "Failed to get items" e)
    | (svc, Ok body) => (svc, StatusOK body)
    end.

End controllers.

(** ** item_service.go: the seed

    [SeedDatabase] starts one goroutine for each sample item, and each one
    inserts its item.  The store takes the inserts one at a time, in an
    order that the scheduler chooses: a [turn] is one insert, with the
    sample it inserts, the time of the clock and the identifier that
    [uuid.New] gives it. *)

Module seed.
Import models.

Definition sample (name : string) (stock price : Z) : Item.t :=
  Item.mk uuid.Nil name stock price time.zero time.zero None.

Definition sampleItems : list Item.t :=
  [sample "Laptop" 50 99999; sample "Mouse" 200 2599;
   sample "Keyboard" 150 7550; sample "Monitor" 75 29999;
   sample "Headphones" 100 14999; sample "Webcam" 80 8999;
   sample "USB Cable" 300 1299; sample "Power Adapter" 120 4500;
   sample "Tablet" 60 39999; sample "Smartphone" 40 69999].

Record turn := mkTurn {
  index : nat;
  clock : time.Time;
  new_id : uuid.UUID
}.

(** [failed to create item %s: %w]. *)
Inductive error : Type :=
| FailedToCreateItem (name : string) (e : gorm.error).

(** The body of one goroutine: the insert, and the error that goes to the
    channel when it fails. *)
Definition insert (acc : gorm.DB * list error) (t : turn)
  : gorm.DB * list error :=
  let (d, errors) := acc in
  match nth_error sampleItems (index t) with
  | None => acc
  | Some item =>
      match gorm.Create item (clock t) (new_id t) d with
      | (d, Ok _) => (d, errors)
      | (d, Err e) => (d, errors ++ [FailedToCreateItem (Item.Name item) e])
      end
  end.

(** The count whose error is not looked at leaves [count] at zero when it
    fails; a positive count ends the seed; otherwise every insert runs and
    the first error of the channel, if there is one, is returned. *)
Definition SeedDatabase (s : utils.ItemService) (schedule : list turn)
  : utils.ItemService * result error unit :=
  let (d, counted) :=
    gorm.Count (gorm.mkQuery [] ("id"%string, false) None) (utils.db s) in
  let count := match counted with Ok n => n | Err _ => 0 end in
  if 0 <? count then (utils.with_db d s, Ok tt)
  else
    let (d, errors) := List.fold_left insert schedule (d, []) in
    match errors with
    | err :: _ => (utils.with_db d s, Err err)
    | [] => (utils.with_db d s, Ok tt)
    end.

End seed.

(** ** rate_limiter.go: the middleware

    [RateLimitMiddleware] makes one limiter and returns the handler that
    asks it with the address of the client: the handler lets the request
    go on, or ends it with the JSON answer of status 429. *)

Module middleware.

Inductive field : Type :=
| Text (s : string)
| Number (n : Z).

(** What the handler does with the request: [c.Next()], or [c.JSON] and
    [c.Abort()]. *)
Inductive outcome : Type :=
| Next
| AbortJSON (code : Z) (h : list (string * field)).

Definition StatusTooManyRequests : Z := 429.

Definition handler (limiter : utils.RateLimiter) (clientIP : string)
  (now : time.Time) : utils.RateLimiter * outcome :=
  let (limiter, ok) := utils.Allow limiter clientIP now in
  if negb ok then
    (limiter,
     AbortJSON StatusTooManyRequests
       [("error"%string, Text "Rate limit exceeded");
        ("message"%string, Text "Too many requests. Please try again later.");
        ("code"%string, Number StatusTooManyRequests)])
  else (limiter, Next).

(** The requests that reach the handler, one after the other, each with the
    address of its client and the time of the clock. *)
Fixpoint serve (limiter : utils.RateLimiter)
  (requests : list (string * time.Time)) : utils.RateLimiter * list outcome :=
  match requests with
  | [] => (limiter, [])
  | (clientIP, now) :: rest =>
      let (limiter, out) := handler limiter clientIP now in
      let (limiter, outs) := serve limiter rest in
      (limiter, out :: outs)
  end.

Definition RateLimitMiddleware (requestsPerSecond burst : Z)
  (requests : list (string * time.Time)) : list outcome :=
  snd (serve (utils.NewRateLimiter requestsPerSecond burst) requests).

End middleware.

(** * Properties *)

(** ** Base64 round trip *)

Module Base64Facts.
Import Base64.

Lemma dec_enc_table :
  forallb (fun n => match dec (enc (Z.of_nat n)) with
                    | Some j => Z.eqb j (Z.of_nat n)
                    | None => false end
                    && negb (Ascii.eqb (enc (Z.of_nat n)) padChar)
                    && negb (is_newline (enc (Z.of_nat n))))
          (seq 0 64) = true.
Proof. vm_compute. reflexivity. Qed.

Lemma enc_facts i :
  0 <= i < 64 ->
  dec (enc i) = Some i /\ Ascii.eqb (enc i) padChar = false
  /\ is_newline (enc i) = false.
Proof.
  intros Hi.
  pose proof dec_enc_table as H.
  rewrite forallb_forall in H.
  specialize (H (Z.to_nat i)).
  rewrite Z2Nat.id in H by lia.
  assert (Hin : In (Z.to_nat i) (seq 0 64)) by (apply in_seq; lia).
  specialize (H Hin).
  apply andb_prop in H as [H H3]. apply andb_prop in H as [H1 H2].
  destruct (dec (enc i)) as [j|]; [|discriminate].
  apply Z.eqb_eq in H1. subst j.
  repeat split.
  - now apply negb_true_iff in H2.
  - now apply negb_true_iff in H3.
Qed.

Lemma dec_enc i : 0 <= i < 64 -> dec (enc i) = Some i.
Proof. intros H. apply enc_facts, H. Qed.

Lemma enc_not_pad i : 0 <= i < 64 -> Ascii.eqb (enc i) padChar = false.
Proof. intros H. apply enc_facts, H. Qed.

Lemma enc_not_newline i : 0 <= i < 64 -> is_newline (enc i) = false.
Proof. intros H. apply enc_facts, H. Qed.

Ltac sextet := Z.to_euclidean_division_equations; lia.

Lemma strip_newlines_encode src :
  strip_newlines (EncodeToString_go src) = EncodeToString_go src.
Proof.
  unfold strip_newlines.
  induction src as [src IH] using (induction_ltof1 _ (@List.length ascii)).
  unfold ltof in IH.
  destruct src as [|a [|b [|c rest]]]; [reflexivity| | |].
  - pose proof (bv_range a). cbn [EncodeToString_go List.filter].
    rewrite !enc_not_newline by sextet. reflexivity.
  - pose proof (bv_range a). pose proof (bv_range b).
    cbn [EncodeToString_go List.filter].
    rewrite !enc_not_newline by sextet. reflexivity.
  - pose proof (bv_range a). pose proof (bv_range b). pose proof (bv_range c).
    cbn [EncodeToString_go List.filter].
    rewrite !enc_not_newline by sextet. cbn [negb].
    rewrite IH by (cbn; lia). reflexivity.
Qed.

Lemma decode_quanta_encode src :
  decode_quanta (EncodeToString_go src) = Some src.
Proof.
  induction src as [src IH] using (induction_ltof1 _ (@List.length ascii)).
  unfold ltof in IH.
  destruct src as [|a [|b [|c rest]]]; [reflexivity| | |].
  - pose proof (bv_range a). cbn [EncodeToString_go decode_quanta].
    rewrite !dec_enc by sextet. rewrite !Ascii.eqb_refl.
    replace (bv a / 4 * 4 + bv a mod 4 * 16 / 16) with (bv a) by sextet.
    now rewrite byte_of_bv.
  - pose proof (bv_range a). pose proof (bv_range b).
    cbn [EncodeToString_go decode_quanta].
    rewrite !dec_enc by sextet. rewrite Ascii.eqb_refl.
    rewrite enc_not_pad by sextet.
    replace (bv a / 4 * 4 + (bv a mod 4 * 16 + bv b / 16) / 16)
      with (bv a) by sextet.
    replace ((bv a mod 4 * 16 + bv b / 16) mod 16 * 16 + bv b mod 16 * 4 / 4)
      with (bv b) by sextet.
    now rewrite !byte_of_bv.
  - pose proof (bv_range a). pose proof (bv_range b). pose proof (bv_range c).
    cbn [EncodeToString_go decode_quanta].
    rewrite !dec_enc by sextet. rewrite !enc_not_pad by sextet.
    rewrite IH by (cbn; lia).
    replace (bv a / 4 * 4 + (bv a mod 4 * 16 + bv b / 16) / 16)
      with (bv a) by sextet.
    replace ((bv a mod 4 * 16 + bv b / 16) mod 16 * 16
             + (bv b mod 16 * 4 + bv c / 64) / 4)
      with (bv b) by sextet.
    replace ((bv b mod 16 * 4 + bv c / 64) mod 4 * 64 + bv c mod 64)
      with (bv c) by sextet.
    now rewrite !byte_of_bv.
Qed.

(** Decoding what [EncodeToString] produced gives the bytes back. *)
Lemma DecodeString_EncodeToString src :
  DecodeString (EncodeToString src) = Some src.
Proof.
  unfold DecodeString, EncodeToString.
  rewrite bytes_of_string_of_bytes, strip_newlines_encode.
  apply decode_quanta_encode.
Qed.

End Base64Facts.

(** ** The rate limiter *)

Module RateLimiterFacts.
Import utils.




(** The sweep of the cleanup loop is the identity. *)
Lemma sweep_id maxAge rl : sweep maxAge rl = rl.
Proof.
  unfold sweep.
  induction (List.map fst (map_to_list (limiters rl))) as [|k ks IH];
    [reflexivity | exact IH].
Qed.

Lemma Allow_dom rl key now :
  dom (limiters (fst (Allow rl key now))) = {[key]} ∪ dom (limiters rl).
Proof.
  unfold Allow, GetLimiter.
  destruct (limiters rl !! key) as [lim|] eqn:Hk;
    destruct (rate.Allow _ now) as [lim' ok]; cbn.
  - rewrite dom_insert_L. reflexivity.
  - rewrite !dom_insert_L. set_solver.
Qed.

Lemma run_dom maxAge es : forall rl,
  dom (limiters (run maxAge rl es))
  = list_to_set (requested es) ∪ dom (limiters rl).
Proof.
  induction es as [|e es IH]; intros rl.
  - cbn. set_solver.
  - unfold run in *. cbn [List.fold_left]. rewrite IH.
    destruct e as [key now|]; cbn [step requested].
    + rewrite Allow_dom. cbn [list_to_set]. set_solver.
    + rewrite sweep_id. reflexivity.
Qed.

End RateLimiterFacts.

(** ** The item service *)

Module ServiceFacts.
Import models utils.

Lemma int_small z : - 2 ^ 63 <= z < 2 ^ 63 -> int z = z.
Proof.
  intros Hz. unfold int.
  change (2 ^ 63) with 9223372036854775808 in *.
  change (2 ^ 64) with 18446744073709551616.
  rewrite Z.mod_small by lia. lia.
Qed.

Lemma length_insert_by le x l :
  List.length (gorm.insert_by le x l) = S (List.length l).
Proof.
  induction l as [|y l IH]; [reflexivity|].
  cbn [gorm.insert_by]. destruct (le x y); cbn [List.length]; congruence.
Qed.

Lemma length_sort_by le l :
  List.length (gorm.sort_by le l) = List.length l.
Proof.
  unfold gorm.sort_by.
  induction l as [|x l IH]; [reflexivity|].
  cbn [List.fold_right List.length]. rewrite length_insert_by. congruence.
Qed.

Lemma length_ordered column desc l l' :
  gorm.ordered column desc l = Some l' -> List.length l' = List.length l.
Proof.
  unfold gorm.ordered. destruct (gorm.column_le column); [|discriminate].
  intros [= <-]. apply length_sort_by.
Qed.

(** The filters never fail to type: their parameters are numbers and a
    pattern. *)
Lemma filter_conds_well_typed filters :
  forallb gorm.well_typed (filter_conds filters) = true.
Proof.
  destruct filters as [[name ms mp xp]|]; [|reflexivity].
  unfold filter_conds. cbn [FilterRequest.Name FilterRequest.MinStock
    FilterRequest.MinPrice FilterRequest.MaxPrice].
  destruct (String.eqb name ""), ms, mp, xp; reflexivity.
Qed.

Lemma with_cursor_conds pagination q q' :
  with_cursor pagination q = Ok q' ->
  gorm.order q' = gorm.order q /\ gorm.limit q' = gorm.limit q.
Proof.
  unfold with_cursor.
  destruct (String.eqb (cursor_of pagination) "").
  - intros [= <-]. split; reflexivity.
  - destruct (decodeCursor (cursor_of pagination)); [|discriminate].
    intros [= <-]. split; reflexivity.
Qed.

(** What a list that succeeds is made of. *)
Lemma GetItems_Ok s pagination filters sort s' resp :
  GetItems s pagination filters sort = (s', Ok resp) ->
  exists q l,
    with_cursor pagination
      (gorm.mkQuery (filter_conds filters) (sort_order sort) None) = Ok q
    /\ gorm.conn_ok (db s) = true
    /\ forallb gorm.well_typed (gorm.conds q) = true
    /\ gorm.ordered (fst (sort_order sort)) (snd (sort_order sort))
         (gorm.matching (gorm.conds q) (gorm.rows (db s))) = Some l
    /\ let limit := page_limit pagination in
       let items := gorm.limited (Some (int (limit + 1))) l in
       let hasMore := limit <? Z.of_nat (List.length items) in
       let kept := if hasMore then firstn (Z.to_nat limit) items else items in
       resp = PaginatedResponse.mk kept (next_cursor hasMore kept) hasMore
                (Z.of_nat (List.length
                   (gorm.matching (filter_conds filters) (gorm.rows (db s))))).
Proof.
  unfold GetItems, gorm.Count.
  cbn [gorm.conn_ok gorm.issue gorm.conds gorm.rows].
  destruct (gorm.conn_ok (db s)) eqn:Hconn; cbn [negb]; [|discriminate].
  rewrite filter_conds_well_typed. cbn [negb].
  destruct (with_cursor pagination _) as [q|e] eqn:Hq; [|discriminate].
  destruct (with_cursor_conds _ _ _ Hq) as [Hord Hlim].
  cbn [gorm.order gorm.limit] in Hord, Hlim.
  unfold gorm.Find, gorm.Limit.
  cbn [gorm.conn_ok gorm.issue gorm.conds gorm.rows gorm.order gorm.limit].
  rewrite Hconn, Hord. cbn [negb fst snd].
  destruct (forallb gorm.well_typed (gorm.conds q)) eqn:Hwt; cbn [negb];
    [|discriminate].
  destruct (gorm.ordered _ _ _) as [l|] eqn:Hl; [|discriminate].
  intros [= <- <-]. exists q, l. repeat split; assumption.
Qed.

(** A list succeeds when the store answers, the cursor decodes to values
    of the types of its columns, and the order names a column. *)
Lemma GetItems_returns s pagination filters sort q :
  gorm.conn_ok (db s) = true ->
  with_cursor pagination
    (gorm.mkQuery (filter_conds filters) (sort_order sort) None) = Ok q ->
  forallb gorm.well_typed (gorm.conds q) = true ->
  is_Some (gorm.column_le (fst (sort_order sort))) ->
  exists s' resp, GetItems s pagination filters sort = (s', Ok resp).
Proof.
  intros Hconn Hq Hwt [le Hle].
  unfold GetItems, gorm.Count.
  cbn [gorm.conn_ok gorm.issue gorm.conds gorm.rows].
  rewrite Hconn, filter_conds_well_typed. cbn [negb]. rewrite Hq.
  destruct (with_cursor_conds _ _ _ Hq) as [Hord Hlim].
  cbn [gorm.order gorm.limit] in Hord, Hlim.
  unfold gorm.Find, gorm.Limit.
  cbn [gorm.conn_ok gorm.issue gorm.conds gorm.rows gorm.order gorm.limit].
  rewrite Hconn, Hord, Hwt. cbn [negb fst snd].
  unfold gorm.ordered. rewrite Hle. eauto.
Qed.

Lemma length_limited n l :
  0 <= n ->
  List.length (gorm.limited (Some n) l) = Nat.min (Z.to_nat n) (List.length l).
Proof.
  intros Hn. unfold gorm.limited.
  destruct (Z.leb_spec 0 n); [|lia]. apply length_firstn.
Qed.

(** The size of the page and the [has_more] flag of a limit that fits
    an [int]. *)
Lemma page_shape limit l :
  1 <= limit < 2 ^ 62 ->
  let items := gorm.limited (Some (int (limit + 1))) l in
  let hasMore := limit <? Z.of_nat (List.length items) in
  let kept := if hasMore then firstn (Z.to_nat limit) items else items in
  Z.of_nat (List.length kept) <= limit
  /\ (hasMore = true <-> limit < Z.of_nat (List.length l))
  /\ kept = firstn (Z.to_nat limit) l.
Proof.
  intros Hlimit. cbv zeta.
  assert (H62 : 2 ^ 62 = 4611686018427387904) by reflexivity.
  rewrite int_small
    by (change (2 ^ 63) with 9223372036854775808; lia).
  assert (Hlen := length_limited (limit + 1) l ltac:(lia)).
  unfold gorm.limited in *. destruct (Z.leb_spec 0 (limit + 1)); [|lia].
  destruct (Z.ltb_spec limit (Z.of_nat (List.length (firstn (Z.to_nat (limit + 1)) l))))
    as [Hlt|Hge].
  - repeat split.
    + rewrite length_firstn. lia.
    + intros _. rewrite length_firstn in Hlt. lia.
    + rewrite firstn_firstn. f_equal. lia.
  - repeat split.
    + lia.
    + discriminate.
    + intros Hl. rewrite length_firstn in Hge. lia.
    + rewrite length_firstn in Hge.
      rewrite !firstn_all2 by lia. reflexivity.
Qed.

(** *** The cache *)

(** Nothing is stored and nothing waits on the channel. *)
Definition cache_empty (s : ItemService) : Prop :=
  match cache s with
  | None => True
  | Some c => c = ∅
  end.

Lemma invalidateCache_empty s : cache_empty (invalidateCache s).
Proof.
  unfold cache_empty, invalidateCache.
  destruct (cache s) as [c|] eqn:Hc; [reflexivity|].
  rewrite Hc. exact I.
Qed.

Lemma cache_empty_miss s id now :
  cache_empty s -> getFromCache s id now = None.
Proof.
  unfold cache_empty, getFromCache, ristretto.Get.
  destruct (cache s) as [c|]; [|reflexivity].
  intros ->. cbn [ristretto.storedItems empty ristretto.NewCache].
  rewrite lookup_empty. reflexivity.
Qed.

(** The goroutine of an empty cache has nothing to do. *)
Lemma processItems_empty turns :
  ristretto.processItems turns ∅ = ∅.
Proof.
  unfold ristretto.processItems.
  induction turns as [|t turns IH]; [reflexivity|].
  cbn [List.fold_left].
  assert (Hstep : ristretto.processItem ∅ t = ∅).
  { destruct t as [v|now keys]; [reflexivity|].
    unfold ristretto.processItem.
    cbn [ristretto.storedItems ristretto.setBuf empty ristretto.NewCache].
    f_equal. induction keys as [|k keys IHk]; [reflexivity|].
    cbn [List.fold_left]. unfold ristretto.remove_expired at 2.
    rewrite lookup_empty. exact IHk. }
  rewrite Hstep. exact IH.
Qed.

Lemma cache_empty_processItems turns s :
  cache_empty s -> cache_empty (processItems turns s).
Proof.
  unfold cache_empty, processItems.
  destruct (cache s) as [c|] eqn:Hc; [|now rewrite Hc].
  intros ->. cbn [cache]. apply processItems_empty.
Qed.

Lemma processItems_nil s : processItems [] s = s.
Proof. unfold processItems. destruct s as [d [c|]]; reflexivity. Qed.

Lemma db_processItems turns s : db (processItems turns s) = db s.
Proof. unfold processItems. now destruct (cache s). Qed.

(** A read that misses the cache is a read of the store. *)
Definition read_store (s : ItemService) (id : string)
  : result error Item.t :=
  match snd (gorm.First id (db s)) with
  | Ok item => Ok item
  | Err gorm.ErrRecordNotFound => Err ItemNotFound
  | Err e => Err (FailedToGet e)
  end.

Lemma GetItem_miss s id now :
  getFromCache s id now = None -> snd (GetItem s id now) = read_store s id.
Proof.
  intros Hmiss. unfold GetItem, read_store. rewrite Hmiss.
  destruct (gorm.First id (db s)) as [d [item|[]]]; reflexivity.
Qed.

(** The cache holds nothing and nothing is on its way into it, so that
    every read goes to the store, whatever the goroutine of the cache does
    in between. *)
Definition cache_cleared (s : ItemService) : Prop :=
  cache_empty s
  /\ forall turns id now,
       getFromCache (processItems turns s) id now = None
       /\ snd (GetItem (processItems turns s) id now) = read_store s id.

Lemma invalidateCache_cleared s : cache_cleared (invalidateCache s).
Proof.
  split; [apply invalidateCache_empty|].
  intros turns id now.
  assert (Hmiss : getFromCache (processItems turns (invalidateCache s))
                               id now = None)
    by apply cache_empty_miss, cache_empty_processItems,
         invalidateCache_empty.
  split; [exact Hmiss|].
  rewrite (GetItem_miss _ _ _ Hmiss). unfold read_store.
  now rewrite db_processItems.
Qed.

(** *** The store *)

Lemma First_Ok id d item :
  snd (gorm.First id d) = Ok item ->
  gorm.conn_ok d = true
  /\ In item (gorm.rows d)
  /\ gorm.First id d = (gorm.issue gorm.SelectFirst d, Ok item).
Proof.
  unfold gorm.First. cbn [gorm.conn_ok gorm.issue gorm.rows].
  destruct (gorm.conn_ok d); cbn [negb]; [|discriminate].
  destruct (uuid.Parse id) as [u|]; [|discriminate].
  destruct (List.find _ (gorm.rows d)) as [it|] eqn:Hfind; [|discriminate].
  cbn [snd]. intros [= ->]. apply List.find_some in Hfind as [Hin _].
  repeat split; assumption.
Qed.

Lemma Save_Ok item now d :
  gorm.conn_ok d = true ->
  exists d',
    gorm.Save item now d = (d', Ok (gorm.touch now item))
    /\ (In (gorm.touch now item) (gorm.rows d')).
Proof.
  intros Hconn. unfold gorm.Save.
  cbn [gorm.conn_ok gorm.issue gorm.rows]. rewrite Hconn. cbn [negb].
  destruct (existsb _ (gorm.rows d)) eqn:Hex.
  - eexists. split; [reflexivity|]. cbn [gorm.rows gorm.with_rows].
    apply existsb_exists in Hex as (r & Hr & Hid).
    apply in_map_iff. exists r. rewrite Hid. split; [reflexivity|exact Hr].
  - eexists. split; [reflexivity|]. cbn [gorm.rows gorm.with_rows].
    apply in_or_app. right. now left.
Qed.

Lemma oneof_refuses allowed v :
  v <> ""%string -> ~ In v allowed -> oneof allowed v = false.
Proof.
  intros Hne Hout. unfold oneof.
  apply orb_false_iff. split.
  - now apply String.eqb_neq.
  - destruct (existsb (String.eqb v) allowed) eqn:Hex; [|reflexivity].
    apply existsb_exists in Hex as (x & Hin & Heq).
    apply String.eqb_eq in Heq. subst x. contradiction.
Qed.

End ServiceFacts.

(** ** The cursor codec *)

Module JsonFacts.
Import Utf8 Json.

Ltac euclid := Z.to_euclidean_division_equations; lia.

Lemma in_range_spec c lo hi :
  in_range c lo hi = true <-> lo <= bv c <= hi.
Proof. unfold in_range. rewrite andb_true_iff, !Z.leb_le. tauto. Qed.

Lemma EncodeRune_2 v0 v1 :
  0xC2 <= v0 <= 0xDF -> 0x80 <= v1 <= 0xBF ->
  EncodeRune (v0 mod 32 * 64 + v1 mod 64) = [byte_of v0; byte_of v1].
Proof.
  intros H0 H1.
  set (r := v0 mod 32 * 64 + v1 mod 64).
  assert (Hr : 0x80 <= r <= 0x7FF) by (subst r; euclid).
  assert (Hq : 0xC0 + r / 64 = v0) by (subst r; euclid).
  assert (Hm : 0x80 + r mod 64 = v1) by (subst r; euclid).
  unfold EncodeRune, surrogate, RuneError.
  destruct (Z.ltb_spec r 0); [lia|].
  destruct (Z.ltb_spec 0x10FFFF r); [lia|].
  destruct (Z.leb_spec 0xD800 r); [lia|]. cbn [orb andb].
  destruct (Z.leb_spec r 0x7F); [lia|].
  destruct (Z.leb_spec r 0x7FF); [|lia].
  now rewrite Hq, Hm.
Qed.

Lemma EncodeRune_3 v0 v1 v2 :
  0xE0 <= v0 <= 0xEF -> 0x80 <= v1 <= 0xBF -> 0x80 <= v2 <= 0xBF ->
  (v0 = 0xE0 -> 0xA0 <= v1) -> (v0 = 0xED -> v1 <= 0x9F) ->
  EncodeRune (v0 mod 16 * 4096 + v1 mod 64 * 64 + v2 mod 64)
  = [byte_of v0; byte_of v1; byte_of v2].
Proof.
  intros H0 H1 H2 Hlo Hhi.
  set (r := v0 mod 16 * 4096 + v1 mod 64 * 64 + v2 mod 64).
  assert (Hx : v0 mod 16 = v0 - 0xE0) by euclid.
  assert (Hy : v1 mod 64 = v1 - 0x80) by euclid.
  assert (Hz : v2 mod 64 = v2 - 0x80) by euclid.
  assert (Hr : 0x800 <= r <= 0xFFFF /\ (r < 0xD800 \/ 0xE000 <= r))
    by (subst r; rewrite Hx, Hy, Hz; lia).
  assert (Hq : 0xE0 + r / 4096 = v0) by (subst r; rewrite Hx, Hy, Hz; euclid).
  assert (Hm : 0x80 + r / 64 mod 64 = v1)
    by (subst r; rewrite Hx, Hy, Hz; euclid).
  assert (Hl : 0x80 + r mod 64 = v2) by (subst r; rewrite Hx, Hy, Hz; euclid).
  unfold EncodeRune, surrogate, RuneError.
  destruct (Z.ltb_spec r 0); [lia|].
  destruct (Z.ltb_spec 0x10FFFF r); [lia|].
  assert (Hs : (0xD800 <=? r) && (r <? 0xE000) = false).
  { destruct (Z.leb_spec 0xD800 r); [|reflexivity].
    destruct (Z.ltb_spec r 0xE000); [lia|reflexivity]. }
  rewrite Hs. cbn [orb].
  destruct (Z.leb_spec r 0x7F); [lia|].
  destruct (Z.leb_spec r 0x7FF); [lia|].
  destruct (Z.leb_spec r 0xFFFF); [|lia].
  now rewrite Hq, Hm, Hl.
Qed.

Lemma EncodeRune_4 v0 v1 v2 v3 :
  0xF0 <= v0 <= 0xF4 -> 0x80 <= v1 <= 0xBF -> 0x80 <= v2 <= 0xBF ->
  0x80 <= v3 <= 0xBF ->
  (v0 = 0xF0 -> 0x90 <= v1) -> (v0 = 0xF4 -> v1 <= 0x8F) ->
  EncodeRune (v0 mod 8 * 262144 + v1 mod 64 * 4096 + v2 mod 64 * 64
              + v3 mod 64)
  = [byte_of v0; byte_of v1; byte_of v2; byte_of v3].
Proof.
  intros H0 H1 H2 H3 Hlo Hhi.
  set (r := v0 mod 8 * 262144 + v1 mod 64 * 4096 + v2 mod 64 * 64
            + v3 mod 64).
  assert (Hx : v0 mod 8 = v0 - 0xF0) by euclid.
  assert (Hy : v1 mod 64 = v1 - 0x80) by euclid.
  assert (Hz : v2 mod 64 = v2 - 0x80) by euclid.
  assert (Hw : v3 mod 64 = v3 - 0x80) by euclid.
  assert (Hr : 0x10000 <= r <= 0x10FFFF)
    by (subst r; rewrite Hx, Hy, Hz, Hw; lia).
  assert (Hq : 0xF0 + r / 262144 = v0)
    by (subst r; rewrite Hx, Hy, Hz, Hw; euclid).
  assert (Hm : 0x80 + r / 4096 mod 64 = v1)
    by (subst r; rewrite Hx, Hy, Hz, Hw; euclid).
  assert (Hl : 0x80 + r / 64 mod 64 = v2)
    by (subst r; rewrite Hx, Hy, Hz, Hw; euclid).
  assert (Hk : 0x80 + r mod 64 = v3)
    by (subst r; rewrite Hx, Hy, Hz, Hw; euclid).
  unfold EncodeRune, surrogate, RuneError.
  destruct (Z.ltb_spec r 0); [lia|].
  destruct (Z.ltb_spec 0x10FFFF r); [lia|].
  destruct (Z.ltb_spec r 0xE000); [lia|]. rewrite andb_false_r. cbn [orb].
  destruct (Z.leb_spec r 0x7F); [lia|].
  destruct (Z.leb_spec r 0x7FF); [lia|].
  destruct (Z.leb_spec r 0xFFFF); [lia|].
  now rewrite Hq, Hm, Hl, Hk.
Qed.

Lemma second_spec c0 c1 :
  second c0 c1 = true ->
  0x80 <= bv c1 <= 0xBF
  /\ (bv c0 = 0xE0 -> 0xA0 <= bv c1) /\ (bv c0 = 0xED -> bv c1 <= 0x9F)
  /\ (bv c0 = 0xF0 -> 0x90 <= bv c1) /\ (bv c0 = 0xF4 -> bv c1 <= 0x8F).
Proof.
  unfold second, cont.
  destruct (Z.eqb_spec (bv c0) 0xE0);
    [|destruct (Z.eqb_spec (bv c0) 0xED);
      [|destruct (Z.eqb_spec (bv c0) 0xF0);
        [|destruct (Z.eqb_spec (bv c0) 0xF4)]]];
    rewrite in_range_spec; lia.
Qed.

(** The shapes of a rune of more than one byte. *)
Inductive wide : bytes -> Z -> nat -> Prop :=
| wide2 c0 c1 :
    in_range c0 0xC2 0xDF = true -> cont c1 = true ->
    wide [c0; c1] (bv c0 mod 32 * 64 + bv c1 mod 64) 2
| wide3 c0 c1 c2 :
    in_range c0 0xE0 0xEF = true -> second c0 c1 = true -> cont c2 = true ->
    wide [c0; c1; c2]
         (bv c0 mod 16 * 4096 + bv c1 mod 64 * 64 + bv c2 mod 64) 3
| wide4 c0 c1 c2 c3 :
    in_range c0 0xF0 0xF4 = true -> second c0 c1 = true ->
    cont c2 = true -> cont c3 = true ->
    wide [c0; c1; c2; c3]
         (bv c0 mod 8 * 262144 + bv c1 mod 64 * 4096 + bv c2 mod 64 * 64
          + bv c3 mod 64) 4.

Lemma wide_EncodeRune raw r n : wide raw r n -> EncodeRune r = raw.
Proof.
  intros [c0 c1 H0 H1|c0 c1 c2 H0 H1 H2|c0 c1 c2 c3 H0 H1 H2 H3];
    unfold cont in *; rewrite ?in_range_spec in *;
    try apply second_spec in H1.
  - rewrite EncodeRune_2 by lia. now rewrite !byte_of_bv.
  - rewrite EncodeRune_3 by lia. now rewrite !byte_of_bv.
  - rewrite EncodeRune_4 by lia. now rewrite !byte_of_bv.
Qed.

Lemma wide_DecodeRune raw r n tail :
  wide raw r n -> DecodeRune (raw ++ tail) = (r, n).
Proof.
  intros [c0 c1 H0 H1|c0 c1 c2 H0 H1 H2|c0 c1 c2 c3 H0 H1 H2 H3];
    cbn [app DecodeRune].
  - pose proof H0 as H0'. apply in_range_spec in H0'.
    destruct (Z.ltb_spec (bv c0) 0x80); [lia|]. now rewrite H0, H1.
  - pose proof H0 as H0'. apply in_range_spec in H0'.
    destruct (Z.ltb_spec (bv c0) 0x80); [lia|].
    assert (Hn : in_range c0 0xC2 0xDF = false).
    { destruct (in_range c0 0xC2 0xDF) eqn:E; [|reflexivity].
      apply in_range_spec in E. lia. }
    now rewrite Hn, H0, H1, H2.
  - pose proof H0 as H0'. apply in_range_spec in H0'.
    destruct (Z.ltb_spec (bv c0) 0x80); [lia|].
    assert (Hn : in_range c0 0xC2 0xDF = false).
    { destruct (in_range c0 0xC2 0xDF) eqn:E; [|reflexivity].
      apply in_range_spec in E. lia. }
    assert (Hn' : in_range c0 0xE0 0xEF = false).
    { destruct (in_range c0 0xE0 0xEF) eqn:E; [|reflexivity].
      apply in_range_spec in E. lia. }
    now rewrite Hn, Hn', H0, H1, H2, H3.
Qed.

Lemma wide_head raw r n :
  wide raw r n -> exists c0 t, raw = c0 :: t /\ 0x80 <= bv c0.
Proof.
  intros [c0 c1 H0 H1|c0 c1 c2 H0 H1 H2|c0 c1 c2 c3 H0 H1 H2 H3];
    apply in_range_spec in H0; eexists; eexists; (split; [reflexivity|lia]).
Qed.

(** A string that is valid and does not start with an ASCII byte starts
    with a rune of two to four bytes and goes on with a valid string. *)
Lemma ValidString_wide c0 t :
  0x80 <= bv c0 -> ValidString (c0 :: t) = true ->
  exists raw r n t',
    c0 :: t = raw ++ t' /\ wide raw r n /\ ValidString t' = true.
Proof.
  intros Hc0. cbn [ValidString].
  destruct (Z.ltb_spec (bv c0) 0x80); [lia|].
  cbn [DecodeRune]. destruct (Z.ltb_spec (bv c0) 0x80); [lia|].
  destruct (in_range c0 0xC2 0xDF) eqn:E2.
  { destruct t as [|c1 t]; [discriminate|].
    destruct (cont c1) eqn:Ec1; cbn [snd]; [|discriminate].
    intros Hv. exists [c0; c1]. do 2 eexists. exists t.
    split; [reflexivity|]. split; [now constructor | exact Hv]. }
  destruct (in_range c0 0xE0 0xEF) eqn:E3.
  { destruct t as [|c1 [|c2 t]]; try discriminate.
    destruct (second c0 c1) eqn:Ec1; cbn [andb snd]; [|discriminate].
    destruct (cont c2) eqn:Ec2; cbn [snd]; [|discriminate].
    intros Hv. exists [c0; c1; c2]. do 2 eexists. exists t.
    split; [reflexivity|]. split; [now constructor | exact Hv]. }
  destruct (in_range c0 0xF0 0xF4) eqn:E4; [|discriminate].
  destruct t as [|c1 [|c2 [|c3 t]]]; try discriminate.
  destruct (second c0 c1) eqn:Ec1; cbn [andb snd]; [|discriminate].
  destruct (cont c2) eqn:Ec2; cbn [andb snd]; [|discriminate].
  destruct (cont c3) eqn:Ec3; cbn [snd]; [|discriminate].
  intros Hv. exists [c0; c1; c2; c3]. do 2 eexists. exists t.
  split; [reflexivity|]. split; [now constructor | exact Hv].
Qed.


(** *** Strings through [appendString] and [unquote] *)

Lemma push_push a b x : push a (push b x) = push (a ++ b) x.
Proof. destruct x as [[s r]|]; cbn; [now rewrite app_assoc|reflexivity]. Qed.

Lemma high_neq c d :
  0x80 <= bv c -> (bv d <? 0x80) = true -> Ascii.eqb c d = false.
Proof.
  intros Hc Hd. apply Z.ltb_lt in Hd. apply Ascii.eqb_neq. intros ->. lia.
Qed.

(** The encoding of one ASCII byte. *)
Definition encode_ascii (b : ascii) : bytes :=
  if htmlSafeSet b then [b] else escape b.

Lemma unquote_encode_ascii b tail :
  (bv b <? 0x80) = true ->
  unquote (encode_ascii b ++ tail) = push [b] (unquote tail).
Proof.
  destruct b as [b0 b1 b2 b3 b4 b5 b6 b7].
  destruct b7.
  - destruct b0, b1, b2, b3, b4, b5, b6; intros H; vm_compute in H;
      discriminate.
  - intros _. destruct b0, b1, b2, b3, b4, b5, b6; reflexivity.
Qed.

Definition encode_wide (raw : bytes) (r : Z) : bytes :=
  if (r =? 0x2028) || (r =? 0x2029)
  then lit "\u202" ++ [hexdigit (r mod 16)] else raw.

Lemma appendString_go_ascii b t :
  (bv b <? 0x80) = true ->
  appendString_go (b :: t) = encode_ascii b ++ appendString_go t.
Proof.
  intros Hb. cbn [appendString_go]. rewrite Hb. unfold encode_ascii.
  destruct (htmlSafeSet b); reflexivity.
Qed.

Lemma wide_high raw r n :
  wide raw r n ->
  match raw with c0 :: _ => 0x80 <= bv c0 | [] => False end.
Proof.
  intros [c0 c1 H0 H1|c0 c1 c2 H0 H1 H2|c0 c1 c2 c3 H0 H1 H2 H3];
    apply in_range_spec in H0; lia.
Qed.

Lemma appendString_go_wide raw r n t :
  wide raw r n ->
  appendString_go (raw ++ t) = encode_wide raw r ++ appendString_go t.
Proof.
  intros Hw. pose proof (wide_DecodeRune raw r n t Hw) as Hd.
  pose proof (wide_high raw r n Hw) as Hc0.
  destruct Hw; cbn [app] in *; cbn [appendString_go];
    (destruct (Z.ltb_spec (bv c0) 0x80); [lia|]);
    rewrite Hd; reflexivity.
Qed.

Lemma unquote_encode_wide raw r n tail :
  wide raw r n ->
  unquote (encode_wide raw r ++ tail) = push raw (unquote tail).
Proof.
  intros Hw. unfold encode_wide.
  destruct (Z.eqb_spec r 0x2028) as [->|H1].
  { rewrite <- (wide_EncodeRune _ _ _ Hw). reflexivity. }
  destruct (Z.eqb_spec r 0x2029) as [->|H2].
  { rewrite <- (wide_EncodeRune _ _ _ Hw). reflexivity. }
  cbn [orb].
  pose proof (wide_DecodeRune raw r n tail Hw) as Hd.
  pose proof (wide_EncodeRune raw r n Hw) as He.
  pose proof (wide_high raw r n Hw) as Hc0.
  destruct Hw; cbn [app] in *; cbn [unquote];
    rewrite !(high_neq c0) by (assumption || reflexivity);
    (destruct (Z.ltb_spec (bv c0) 0x20); [lia|]);
    (destruct (Z.ltb_spec (bv c0) 0x80); [lia|]);
    rewrite Hd, He; reflexivity.
Qed.

(** What [appendString] wrote between the quotes is read back as it was,
    for a string that is valid UTF-8. *)
Lemma unquote_appendString_go s : forall rest,
  ValidString s = true ->
  unquote (appendString_go s ++ quote :: rest) = Some (s, rest).
Proof.
  induction s as [s IH] using (induction_ltof1 _ (@List.length ascii)).
  unfold ltof in IH. intros rest Hv.
  destruct s as [|b t]; [reflexivity|].
  destruct (bv b <? 0x80) eqn:Hb.
  - rewrite appendString_go_ascii by exact Hb.
    rewrite <- app_assoc, unquote_encode_ascii by exact Hb.
    cbn [ValidString] in Hv. rewrite Hb in Hv.
    rewrite IH by (cbn; lia || exact Hv). reflexivity.
  - apply Z.ltb_ge in Hb.
    destruct (ValidString_wide b t Hb Hv) as (raw & r & n & t' & Hs & Hw & Hv').
    rewrite Hs, (appendString_go_wide raw r n t' Hw).
    rewrite <- app_assoc, (unquote_encode_wide raw r n _ Hw).
    rewrite IH; [reflexivity| |exact Hv'].
    rewrite Hs, length_app.
    pose proof (wide_high raw r n Hw) as Hh.
    destruct raw; [contradiction|]. cbn. lia.
Qed.

End JsonFacts.

(** ** The cursor through [Marshal] and [Unmarshal] *)

Module CursorFacts.
Import Utf8 Json utils.

Lemma Marshal_shape c :
  Marshal c
  = ch "{" :: quote :: lit "id"
    ++ quote :: ch ":" :: quote
    :: appendString_go (bytes_of_string (CursorData.ID c))
    ++ quote :: ch "," :: quote :: lit "created_at"
    ++ quote :: ch ":" :: quote
    :: appendString_go (bytes_of_string (CursorData.CreatedAt c))
    ++ quote :: ch "}" :: [].
Proof.
  unfold Marshal, appendString.
  change (appendString_go (bytes_of_string "id")) with (lit "id").
  change (appendString_go (bytes_of_string "created_at"))
    with (lit "created_at").
  cbn [lit bytes_of_string list_ascii_of_string app].
  repeat (rewrite <- ?app_assoc; cbn [app]). reflexivity.
Qed.

(** What [parse_members] does after the value of a member. *)
Definition member_rest (fuel : nat) (depth : Z) (key : bytes)
  (r : option (value * bytes)) : option (list (bytes * value) * bytes) :=
  match r with
  | None => None
  | Some (v, r3) =>
      match skip_ws r3 with
      | [] => None
      | c4 :: t4 =>
          if Ascii.eqb c4 (ch ",") then
            match parse_members fuel depth t4 with
            | Some (ms, r) => Some ((key, v) :: ms, r)
            | None => None
            end
          else if Ascii.eqb c4 (ch "}") then Some ([(key, v)], t4)
          else None
      end
  end.

Lemma parse_value_object fuel t :
  parse_value (S fuel) 0 (ch "{" :: quote :: t)
  = match parse_members fuel 1 (quote :: t) with
    | Some (ms, r) => Some (Object ms, r)
    | None => None
    end.
Proof. reflexivity. Qed.

Lemma parse_value_string fuel depth s :
  parse_value (S fuel) depth (quote :: s)
  = match unquote s with
    | Some (str, r) => Some (Str str, r)
    | None => None
    end.
Proof. reflexivity. Qed.

Lemma parse_members_id fuel depth t :
  parse_members (S fuel) depth (quote :: lit "id" ++ quote :: ch ":" :: t)
  = member_rest fuel depth (lit "id") (parse_value fuel depth t).
Proof. reflexivity. Qed.

Lemma parse_members_created_at fuel depth t :
  parse_members (S fuel) depth
    (quote :: lit "created_at" ++ quote :: ch ":" :: t)
  = member_rest fuel depth (lit "created_at") (parse_value fuel depth t).
Proof. reflexivity. Qed.

Lemma member_rest_comma fuel depth key v t :
  member_rest fuel depth key (Some (v, ch "," :: t))
  = match parse_members fuel depth t with
    | Some (ms, r) => Some ((key, v) :: ms, r)
    | None => None
    end.
Proof. reflexivity. Qed.

Lemma member_rest_close fuel depth key v t :
  member_rest fuel depth key (Some (v, ch "}" :: t)) = Some ([(key, v)], t).
Proof. reflexivity. Qed.

Lemma parse_value_Marshal c fuel :
  ValidString (bytes_of_string (CursorData.ID c)) = true ->
  ValidString (bytes_of_string (CursorData.CreatedAt c)) = true ->
  parse_value (S (S (S (S fuel)))) 0 (Marshal c)
  = Some (Object [(lit "id", Str (bytes_of_string (CursorData.ID c)));
                  (lit "created_at",
                   Str (bytes_of_string (CursorData.CreatedAt c)))], []).
Proof.
  intros Hid Hts. rewrite Marshal_shape.
  rewrite parse_value_object, parse_members_id, parse_value_string.
  rewrite (JsonFacts.unquote_appendString_go _ _ Hid).
  rewrite member_rest_comma, parse_members_created_at, parse_value_string.
  rewrite (JsonFacts.unquote_appendString_go _ _ Hts).
  rewrite member_rest_close. reflexivity.
Qed.

Lemma Marshal_length c : (3 <= List.length (Marshal c))%nat.
Proof. rewrite Marshal_shape. cbn. lia. Qed.

Lemma parse_Marshal c :
  ValidString (bytes_of_string (CursorData.ID c)) = true ->
  ValidString (bytes_of_string (CursorData.CreatedAt c)) = true ->
  parse (Marshal c)
  = Some (Object [(lit "id", Str (bytes_of_string (CursorData.ID c)));
                  (lit "created_at",
                   Str (bytes_of_string (CursorData.CreatedAt c)))]).
Proof.
  intros Hid Hts. unfold parse.
  pose proof (Marshal_length c) as Hlen.
  destruct (List.length (Marshal c)) as [|[|[|n]]]; try lia.
  rewrite (parse_value_Marshal c n Hid Hts). reflexivity.
Qed.

Lemma Unmarshal_Marshal c :
  ValidString (bytes_of_string (CursorData.ID c)) = true ->
  ValidString (bytes_of_string (CursorData.CreatedAt c)) = true ->
  Unmarshal (Marshal c) = Ok c.
Proof.
  intros Hid Hts. unfold Unmarshal. rewrite (parse_Marshal c Hid Hts).
  cbn [List.fold_left]. unfold set_member at 2.
  change (equalFold (lit "id") "id") with true. cbv iota.
  unfold set_member.
  change (equalFold (lit "created_at") "id") with false.
  change (equalFold (lit "created_at") "created_at") with true. cbv iota.
  cbn [CursorData.ID CursorData.CreatedAt].
  rewrite !string_of_bytes_of_string. destruct c; reflexivity.
Qed.

Lemma decodeCursor_encode c :
  ValidString (bytes_of_string (CursorData.ID c)) = true ->
  ValidString (bytes_of_string (CursorData.CreatedAt c)) = true ->
  decodeCursor (Base64.EncodeToString (Marshal c)) = Ok c.
Proof.
  intros Hid Hts. unfold decodeCursor.
  rewrite Base64Facts.DecodeString_EncodeToString.
  now apply Unmarshal_Marshal.
Qed.

End CursorFacts.

(** ** The pages of a list *)

Module ListFacts.
Import models utils.

(** *** The order of a page *)

Lemma insert_by_In le x l y :
  In y (gorm.insert_by le x l) <-> y = x \/ In y l.
Proof.
  induction l as [|z l IH]; cbn [gorm.insert_by].
  - cbn. intuition congruence.
  - destruct (le x z); cbn [In] in *; [intuition congruence|].
    rewrite IH. intuition congruence.
Qed.

Lemma sort_by_In le l y : In y (gorm.sort_by le l) <-> In y l.
Proof.
  unfold gorm.sort_by. induction l as [|x l IH]; [reflexivity|].
  cbn [List.fold_right In]. rewrite insert_by_In, IH. intuition congruence.
Qed.

Definition total (le : Item.t -> Item.t -> bool) : Prop :=
  forall a b, le a b = true \/ le b a = true.

Lemma insert_by_Sorted le x l :
  total le ->
  Sorted (fun a b => le a b = true) l ->
  Sorted (fun a b => le a b = true) (gorm.insert_by le x l).
Proof.
  intros Htot Hs. induction Hs as [|y l Hs IH Hhd]; cbn [gorm.insert_by].
  - repeat constructor.
  - destruct (le x y) eqn:Hxy.
    + constructor; [now constructor | now constructor].
    + constructor; [exact IH|].
      destruct l as [|z l]; cbn [gorm.insert_by].
      * constructor. destruct (Htot x y); congruence.
      * destruct (le x z); constructor.
        -- destruct (Htot x y); congruence.
        -- now inversion Hhd.
Qed.

Lemma sort_by_Sorted le l :
  total le -> Sorted (fun a b => le a b = true) (gorm.sort_by le l).
Proof.
  intros Htot. unfold gorm.sort_by.
  induction l as [|x l IH]; [constructor|].
  cbn [List.fold_right]. now apply insert_by_Sorted.
Qed.

Lemma Sorted_firstn {A} (R : A -> A -> Prop) n l :
  Sorted R l -> Sorted R (firstn n l).
Proof.
  intros Hs. revert n. induction Hs as [|x l Hs IH Hhd]; intros [|n];
    cbn [firstn]; try constructor.
  - apply IH.
  - destruct Hhd as [|y l' Hxy]; destruct n; cbn [firstn]; constructor.
    exact Hxy.
Qed.

Lemma column_le_total column le :
  gorm.column_le column = Some le -> total le.
Proof.
  unfold gorm.column_le.
  repeat match goal with
         | |- context [String.eqb column ?c] => destruct (String.eqb column c)
         end; intros [= <-]; intros a b; try (rewrite !Z.leb_le; lia).
  apply String.leb_total.
Qed.

Lemma total_flip le : total le -> total (fun a b => le b a).
Proof. intros H a b. destruct (H a b); auto. Qed.


(** *** What a list leaves as it was *)

Lemma GetItems_state s pagination filters sort :
  let s' := fst (GetItems s pagination filters sort) in
  gorm.rows (db s') = gorm.rows (db s)
  /\ gorm.conn_ok (db s') = gorm.conn_ok (db s)
  /\ cache s' = cache s
  /\ (gorm.log (db s') = gorm.log (db s) ++ [gorm.SelectCount]
      \/ gorm.log (db s')
         = gorm.log (db s) ++ [gorm.SelectCount; gorm.SelectRows]).
Proof.
  cbv zeta. unfold GetItems, gorm.Count.
  cbn [gorm.conn_ok gorm.issue gorm.conds gorm.rows].
  destruct (gorm.conn_ok (db s)) eqn:Hconn; cbn [negb];
    [|cbn; rewrite Hconn; auto].
  rewrite ServiceFacts.filter_conds_well_typed. cbn [negb].
  destruct (with_cursor pagination _) as [q|e]; [|cbn; rewrite Hconn; auto].
  unfold gorm.Find, gorm.Limit.
  cbn [gorm.conn_ok gorm.issue gorm.conds gorm.rows gorm.order gorm.limit].
  rewrite Hconn. cbn [negb].
  assert (Hlog : forall l : list gorm.stmt,
             (l ++ [gorm.SelectCount]) ++ [gorm.SelectRows]
             = l ++ [gorm.SelectCount; gorm.SelectRows])
    by (intros l; now rewrite <- app_assoc).
  destruct (forallb gorm.well_typed (gorm.conds q)); cbn [negb];
    [|cbn; rewrite Hconn, Hlog; auto].
  destruct (gorm.ordered _ _ _); cbn; rewrite Hconn, Hlog; auto.
Qed.

Lemma with_cursor_filters pagination q q' :
  with_cursor pagination q = Ok q' ->
  exists extra, gorm.conds q' = gorm.conds q ++ extra.
Proof.
  unfold with_cursor.
  destruct (String.eqb (cursor_of pagination) "").
  - intros [= <-]. exists []. now rewrite app_nil_r.
  - destruct (decodeCursor (cursor_of pagination)); [|discriminate].
    intros [= <-]. eexists. reflexivity.
Qed.

Lemma matching_In cs l it :
  In it (gorm.matching cs l)
  <-> In it l /\ gorm.live it = true /\ gorm.satisfies cs it = true.
Proof.
  unfold gorm.matching. rewrite filter_In, andb_true_iff. tauto.
Qed.

Lemma satisfies_app cs1 cs2 it :
  gorm.satisfies (cs1 ++ cs2) it
  = gorm.satisfies cs1 it && gorm.satisfies cs2 it.
Proof. unfold gorm.satisfies. apply forallb_app. Qed.

Lemma In_firstn {A} n (l : list A) x : In x (firstn n l) -> In x l.
Proof.
  revert l. induction n as [|n IH]; intros [|y l]; cbn; try tauto.
  intros [->|H]; auto.
Qed.

(** The items of a page, whatever the limit is. *)
Lemma GetItems_items s pagination filters sort s' resp :
  GetItems s pagination filters sort = (s', Ok resp) ->
  exists q l n,
    with_cursor pagination
      (gorm.mkQuery (filter_conds filters) (sort_order sort) None) = Ok q
    /\ gorm.ordered (fst (sort_order sort)) (snd (sort_order sort))
         (gorm.matching (gorm.conds q) (gorm.rows (db s))) = Some l
    /\ PaginatedResponse.Items resp = firstn n l.
Proof.
  intros Hrun.
  apply ServiceFacts.GetItems_Ok in Hrun as (q & l & Hq & _ & _ & Hl & Hresp).
  exists q, l. cbv zeta in Hresp. rewrite Hresp.
  cbn [PaginatedResponse.Items]. unfold gorm.limited.
  destruct (0 <=? int (page_limit pagination + 1));
    match goal with
    | |- context [if ?b then _ else _] => destruct b
    end.
  - eexists. split; [exact Hq|]. split; [exact Hl|].
    rewrite firstn_firstn. reflexivity.
  - eexists. split; [exact Hq|]. split; [exact Hl|]. reflexivity.
  - eexists. split; [exact Hq|]. split; [exact Hl|]. reflexivity.
  - exists (List.length l). split; [exact Hq|]. split; [exact Hl|].
    now rewrite firstn_all.
Qed.

End ListFacts.

(** ** The text of identifiers and times *)

Module AsciiFacts.
Import models utils.

(** The bytes below 128. *)
Definition ascii7 (c : ascii) : Prop := bv c < 0x80.

Lemma ValidString_ascii s : Forall ascii7 s -> Utf8.ValidString s = true.
Proof.
  induction 1 as [|c s Hc _ IH]; [reflexivity|].
  cbn [Utf8.ValidString]. unfold ascii7 in Hc.
  destruct (Z.ltb_spec (bv c) 0x80); [exact IH|lia].
Qed.

Lemma ascii7_lit (s : string) :
  forallb (fun c => bv c <? 0x80) (Json.lit s) = true ->
  Forall ascii7 (Json.lit s).
Proof.
  intros H. apply Forall_forall. intros c Hc.
  rewrite forallb_forall in H. apply Z.ltb_lt. apply H.
  now apply list_elem_of_In.
Qed.

Lemma hexdigit_ascii i : ascii7 (Json.hexdigit i).
Proof.
  unfold Json.hexdigit.
  destruct (nth_in_or_default (Z.to_nat i) Json.hex (Json.ch "0"))
    as [Hin| ->]; [|reflexivity].
  assert (H : Forall ascii7 Json.hex) by (apply ascii7_lit; reflexivity).
  rewrite Forall_forall in H. apply H. now apply list_elem_of_In.
Qed.

Lemma hexadecimal_ascii w n : Forall ascii7 (uuid.hexadecimal w n).
Proof.
  revert n. induction w as [|w IH]; intros n; cbn [uuid.hexadecimal].
  - constructor.
  - apply Forall_app. split; [apply IH|]. repeat constructor.
    apply hexdigit_ascii.
Qed.

Lemma uuid_String_ascii u : Forall ascii7 (bytes_of_string (uuid.String u)).
Proof.
  unfold uuid.String. rewrite bytes_of_string_of_bytes.
  pose proof (hexadecimal_ascii 32 u) as H.
  assert (Hd : Forall ascii7 (Json.lit "-")) by (apply ascii7_lit; reflexivity).
  rewrite !Forall_app.
  repeat split;
    repeat (apply Forall_take || apply Forall_drop); assumption.
Qed.

Lemma decimal_ascii w n : Forall ascii7 (time.decimal w n).
Proof.
  revert n. induction w as [|w IH]; intros n; cbn [time.decimal].
  - constructor.
  - apply Forall_app. split; [apply IH|]. repeat constructor.
    unfold ascii7. rewrite bv_byte_of; Z.to_euclidean_division_equations; lia.
Qed.

Lemma drop_zeros_rev_ascii r :
  Forall ascii7 r -> Forall ascii7 (time.drop_zeros_rev r).
Proof.
  induction 1 as [|c r Hc Hr IH]; cbn [time.drop_zeros_rev]; [constructor|].
  destruct (Ascii.eqb c _); [exact IH | now constructor].
Qed.

Lemma fraction_ascii ns : Forall ascii7 (time.fraction ns).
Proof.
  unfold time.fraction.
  assert (H : Forall ascii7
                (rev (time.drop_zeros_rev (rev (time.decimal 9 ns))))).
  { apply Forall_rev, drop_zeros_rev_ascii, Forall_rev, decimal_ascii. }
  destruct (rev _); [constructor|].
  constructor; [reflexivity | exact H].
Qed.

Lemma FormatRFC3339Nano_ascii t :
  Forall ascii7 (bytes_of_string (time.FormatRFC3339Nano t)).
Proof.
  unfold time.FormatRFC3339Nano.
  destruct (time.civil_from_days _) as [[y m] d].
  rewrite bytes_of_string_of_bytes.
  rewrite !Forall_app.
  repeat split;
    first [ apply decimal_ascii | apply fraction_ascii
          | apply ascii7_lit; reflexivity ].
Qed.

(** *** Base64 *)

Lemma decode_quanta_length s out :
  Base64.decode_quanta s = Some out -> (List.length s mod 4 = 0)%nat.
Proof.
  revert out.
  induction s as [s IH] using (induction_ltof1 _ (@List.length ascii)).
  unfold ltof in IH. intros out.
  destruct s as [|c1 [|c2 [|c3 [|c4 rest]]]]; try discriminate;
    [reflexivity|].
  cbn [Base64.decode_quanta].
  destruct (Base64.dec c1), (Base64.dec c2); try discriminate.
  destruct (Ascii.eqb c3 Base64.padChar).
  { destruct (Ascii.eqb c4 Base64.padChar); [|discriminate].
    destruct rest; [reflexivity|discriminate]. }
  destruct (Base64.dec c3); [|discriminate].
  destruct (Ascii.eqb c4 Base64.padChar).
  { destruct rest; [reflexivity|discriminate]. }
  destruct (Base64.dec c4); [|discriminate].
  destruct (Base64.decode_quanta rest) as [o|] eqn:Hrest; [|discriminate].
  intros _. specialize (IH rest ltac:(cbn; lia) o Hrest).
  change (List.length (c1 :: c2 :: c3 :: c4 :: rest))
    with (4 + List.length rest)%nat.
  rewrite <- Nat.Div0.add_mod_idemp_r, IH. reflexivity.
Qed.

Lemma EncodeToString_nonempty src :
  src <> [] -> Base64.EncodeToString src <> ""%string.
Proof.
  intros Hsrc. unfold Base64.EncodeToString.
  destruct src as [|a [|b [|c rest]]]; [contradiction| | |]; discriminate.
Qed.

Lemma page_limit_pos pagination : 1 <= page_limit pagination.
Proof.
  unfold page_limit. destruct pagination as [p|]; [|lia].
  destruct (Z.ltb_spec 0 (PaginationRequest.Limit p)); lia.
Qed.

End AsciiFacts.

(** ** Identifiers as text *)

Module UuidFacts.

Lemma hexval_hexdigit_table :
  forallb (fun n => match Json.hexval (Json.hexdigit (Z.of_nat n)) with
                    | Some v => v =? Z.of_nat n
                    | None => false
                    end) (seq 0 16) = true.
Proof. vm_compute. reflexivity. Qed.

Lemma hexval_hexdigit d : 0 <= d < 16 -> Json.hexval (Json.hexdigit d) = Some d.
Proof.
  intros Hd. pose proof hexval_hexdigit_table as H.
  rewrite forallb_forall in H. specialize (H (Z.to_nat d)).
  rewrite Z2Nat.id in H by lia.
  destruct (Json.hexval (Json.hexdigit d)) as [v|].
  - f_equal. apply Z.eqb_eq, H, in_seq. lia.
  - discriminate H. apply in_seq. lia.
Qed.

Lemma hexnumber_app l1 l2 acc :
  uuid.hexnumber acc (l1 ++ l2)
  = match uuid.hexnumber acc l1 with
    | Some a => uuid.hexnumber a l2
    | None => None
    end.
Proof.
  revert acc. induction l1 as [|c l1 IH]; intros acc; [reflexivity|].
  cbn [app uuid.hexnumber]. destruct (Json.hexval c); [apply IH|reflexivity].
Qed.

Lemma hexnumber_hexadecimal w : forall n acc,
  uuid.hexnumber acc (uuid.hexadecimal w n)
  = Some (acc * 16 ^ Z.of_nat w + n mod 16 ^ Z.of_nat w).
Proof.
  induction w as [|w IH]; intros n acc.
  - cbn [uuid.hexadecimal uuid.hexnumber]. f_equal.
    change (16 ^ Z.of_nat 0) with 1. rewrite Z.mod_1_r. lia.
  - cbn [uuid.hexadecimal]. rewrite hexnumber_app, IH.
    cbn [uuid.hexnumber].
    rewrite hexval_hexdigit by (apply Z.mod_pos_bound; lia).
    f_equal. rewrite Nat2Z.inj_succ, Z.pow_succ_r by lia.
    rewrite (Z.rem_mul_r n 16 (16 ^ Z.of_nat w)) by lia.
    lia.
Qed.

Lemma length_hexadecimal w n : List.length (uuid.hexadecimal w n) = w.
Proof.
  revert n. induction w as [|w IH]; intros n; [reflexivity|].
  cbn [uuid.hexadecimal]. rewrite length_app, IH. cbn. lia.
Qed.

(** The text of an identifier reads back as the identifier. *)
Lemma Parse_String u : 0 <= u < 2 ^ 128 -> uuid.Parse (uuid.String u) = Some u.
Proof.
  intros Hu. unfold uuid.Parse, uuid.String.
  rewrite bytes_of_string_of_bytes.
  pose proof (length_hexadecimal 32 u) as Hlen.
  pose proof (hexnumber_hexadecimal 32 u 0) as Hnum.
  remember (uuid.hexadecimal 32 u) as h eqn:Hh. clear Hh.
  do 32 (destruct h as [|? h]; [discriminate Hlen|]).
  destruct h; [|discriminate Hlen].
  cbn -[uuid.hexnumber]. rewrite Hnum. f_equal.
  change (16 ^ Z.of_nat 32) with (2 ^ 128).
  rewrite Z.mod_small by lia. lia.
Qed.

End UuidFacts.

(** ** Create, read, update and delete *)

Module CrudFacts.
Import models utils.

(** A soft delete of the rows that [hit] selects. *)
Definition mark (now : time.Time) (it : Item.t) : Item.t :=
  Item.mk (Item.ID it) (Item.Name it) (Item.Stock it) (Item.Price it)
          (Item.CreatedAt it) (Item.UpdatedAt it) (Some now).

Definition hit (u : uuid.UUID) (it : Item.t) : bool :=
  gorm.live it && (Item.ID it =? u).

Lemma Delete_Ok id now d d' n :
  gorm.Delete id now d = (d', Ok n) ->
  exists u,
    uuid.Parse id = Some u
    /\ gorm.conn_ok d = true
    /\ gorm.conn_ok d' = true
    /\ gorm.rows d'
       = List.map (fun it => if hit u it then mark now it else it)
                  (gorm.rows d)
    /\ n = Z.of_nat (List.length (List.filter (hit u) (gorm.rows d))).
Proof.
  unfold gorm.Delete. cbn [gorm.conn_ok gorm.issue gorm.rows].
  destruct (gorm.conn_ok d) eqn:Hc; cbn [negb]; [|discriminate].
  destruct (uuid.Parse id) as [u|]; [|discriminate].
  intros [= <- <-]. exists u. cbn. rewrite Hc. repeat split; reflexivity.
Qed.

Lemma find_marked u now l :
  List.find (hit u)
    (List.map (fun it => if hit u it then mark now it else it) l) = None.
Proof.
  induction l as [|it l IH]; [reflexivity|].
  cbn [List.map List.find].
  destruct (hit u it) eqn:Hit; [|rewrite Hit; exact IH].
  unfold hit at 1, gorm.live, mark. cbn. exact IH.
Qed.

Lemma filter_none_map u now l :
  List.filter (hit u) l = [] ->
  List.map (fun it => if hit u it then mark now it else it) l = l.
Proof.
  induction l as [|it l IH]; [reflexivity|].
  cbn [List.filter List.map].
  destruct (hit u it); [discriminate|].
  intros H. now rewrite IH.
Qed.

Lemma First_find id d u :
  gorm.conn_ok d = true -> uuid.Parse id = Some u ->
  snd (gorm.First id d)
  = match List.find (hit u) (gorm.rows d) with
    | Some it => Ok it
    | None => Err gorm.ErrRecordNotFound
    end.
Proof.
  intros Hc Hu. unfold gorm.First.
  cbn [gorm.conn_ok gorm.issue gorm.rows]. rewrite Hc, Hu. cbn [negb].
  unfold hit. destruct (List.find _ _); reflexivity.
Qed.

End CrudFacts.

(** ** The layout of a time: what is written is what is read *)

Module TimeFacts.

(** [f] on each of the [n] numbers from [z]. *)
Fixpoint all_from (f : Z -> bool) (n : nat) (z : Z) : bool :=
  match n with
  | O => true
  | S n' => f z && all_from f n' (z + 1)
  end.

Lemma all_from_spec f n : forall z k,
  all_from f n z = true -> z <= k < z + Z.of_nat n -> f k = true.
Proof.
  induction n as [|n IH]; intros z k Hall Hk; [lia|].
  cbn [all_from] in Hall. apply andb_prop in Hall as [Hz Hrest].
  destruct (Z.eq_dec k z) as [->|Hne]; [exact Hz|].
  apply (IH (z + 1)); [exact Hrest | lia].
Qed.

(** The day [doe] of an era of 400 years: its year, month and day are in
    range, and counting the days back gives [doe]. *)
Definition era_ok (doe : Z) : bool :=
  let yoe := (doe - doe / 1460 + doe / 36524 - doe / 146096) / 365 in
  let doy := doe - (365 * yoe + yoe / 4 - yoe / 100) in
  let mp := (5 * doy + 2) / 153 in
  let d := doy - (153 * mp + 2) / 5 + 1 in
  let m := if mp <? 10 then mp + 3 else mp - 9 in
  let y := yoe + (if m <=? 2 then 1 else 0) in
  (0 <=? yoe) && (yoe <=? 399) && (1 <=? m) && (m <=? 12) && (1 <=? d)
  && (d <=? time.days_in_month y m)
  && (yoe * 365 + yoe / 4 - yoe / 100
      + ((153 * (if 2 <? m then m - 3 else m + 9) + 2) / 5 + d - 1) =? doe).

Lemma era_ok_all : all_from era_ok (Z.to_nat 146097) 0 = true.
Proof. vm_compute. reflexivity. Qed.

Lemma days_in_month_era y era m :
  time.days_in_month (y + era * 400) m = time.days_in_month y m.
Proof.
  unfold time.days_in_month.
  replace ((y + era * 400) mod 4) with (y mod 4)
    by (replace (y + era * 400) with (y + (era * 100) * 4) by lia;
        now rewrite Z_mod_plus_full).
  replace ((y + era * 400) mod 100) with (y mod 100)
    by (replace (y + era * 400) with (y + (era * 4) * 100) by lia;
        now rewrite Z_mod_plus_full).
  replace ((y + era * 400) mod 400) with (y mod 400)
    by now rewrite Z_mod_plus_full.
  reflexivity.
Qed.

(** [civil_from_days] gives a date of the calendar, and
    [days_from_civil] is its inverse. *)
Lemma civil_from_days_spec z y m d :
  time.civil_from_days z = (y, m, d) ->
  1 <= m <= 12 /\ 1 <= d <= time.days_in_month y m
  /\ time.days_from_civil y m d = z.
Proof.
  unfold time.civil_from_days.
  set (era := (z + 719468) / 146097).
  set (doe := z + 719468 - era * 146097).
  assert (Hdoe : 0 <= doe < 146097).
  { subst doe era. pose proof (Z.div_mod (z + 719468) 146097 ltac:(lia)).
    pose proof (Z.mod_pos_bound (z + 719468) 146097 ltac:(lia)). lia. }
  pose proof (all_from_spec _ _ 0 doe era_ok_all ltac:(lia)) as Hok.
  unfold era_ok in Hok.
  set (yoe := (doe - doe / 1460 + doe / 36524 - doe / 146096) / 365) in *.
  set (doy := doe - (365 * yoe + yoe / 4 - yoe / 100)) in *.
  set (mp := (5 * doy + 2) / 153) in *.
  set (dd := doy - (153 * mp + 2) / 5 + 1) in *.
  set (mm := if mp <? 10 then mp + 3 else mp - 9) in *.
  intros Heq. injection Heq as <- <- <-.
  repeat (apply andb_prop in Hok as [Hok ?]).
  assert (Hy : yoe + era * 400 + (if mm <=? 2 then 1 else 0)
               = yoe + (if mm <=? 2 then 1 else 0) + era * 400) by lia.
  rewrite Hy, days_in_month_era.
  split; [lia|]. split; [lia|].
  unfold time.days_from_civil.
  set (y1 := if mm <=? 2
             then yoe + (if mm <=? 2 then 1 else 0) + era * 400 - 1
             else yoe + (if mm <=? 2 then 1 else 0) + era * 400).
  assert (Hy1 : y1 = yoe + era * 400)
    by (subst y1; destruct (mm <=? 2); lia).
  rewrite Hy1.
  assert (Hera : (yoe + era * 400) / 400 = era).
  { rewrite Z.div_add by lia. rewrite Z.div_small by lia. lia. }
  rewrite Hera.
  replace (yoe + era * 400 - era * 400) with yoe by lia.
  subst doe. lia.
Qed.

(** *** Digits *)

Lemma digit_byte d :
  0 <= d < 10 ->
  Json.isDigit (byte_of (48 + d)) = true /\ bv (byte_of (48 + d)) - 48 = d.
Proof.
  intros Hd. unfold Json.isDigit, Utf8.in_range.
  rewrite bv_byte_of by lia. split; [|lia].
  apply andb_true_iff. split; apply Z.leb_le; lia.
Qed.

Lemma number_app l : forall acc c,
  time.number acc (l ++ [c])
  = match time.number acc l with
    | Some n => if Json.isDigit c then Some (n * 10 + (bv c - 48)) else None
    | None => None
    end.
Proof.
  induction l as [|x l IH]; intros acc c; cbn [app time.number].
  - now destruct (Json.isDigit c).
  - destruct (Json.isDigit x); [apply IH|reflexivity].
Qed.

Lemma number_decimal w : forall n,
  0 <= n < 10 ^ Z.of_nat w ->
  time.number 0 (time.decimal w n) = Some n.
Proof.
  induction w as [|w IH]; intros n Hn.
  - cbn in *. f_equal. lia.
  - cbn [time.decimal]. rewrite number_app.
    rewrite Nat2Z.inj_succ, Z.pow_succ_r in Hn by lia.
    rewrite IH by (split; [apply Z.div_pos; lia
                          | apply Z.div_lt_upper_bound; lia]).
    destruct (digit_byte (n mod 10)) as [-> ->];
      [apply Z.mod_pos_bound; lia|].
    f_equal. pose proof (Z.div_mod n 10 ltac:(lia)). lia.
Qed.

Lemma length_decimal w : forall n, List.length (time.decimal w n) = w.
Proof.
  induction w as [|w IH]; intros n; [reflexivity|].
  cbn [time.decimal]. rewrite length_app, IH. cbn. lia.
Qed.

Lemma decimal4 n :
  time.decimal 4 n
  = [byte_of (48 + n / 10 / 10 / 10 mod 10); byte_of (48 + n / 10 / 10 mod 10);
     byte_of (48 + n / 10 mod 10); byte_of (48 + n mod 10)].
Proof. reflexivity. Qed.

Lemma decimal2 n :
  time.decimal 2 n = [byte_of (48 + n / 10 mod 10); byte_of (48 + n mod 10)].
Proof. reflexivity. Qed.

(** *** The fraction of a second *)

Lemma drop_zeros_rev_spec r :
  exists k, r = repeat (Json.ch "0") k ++ time.drop_zeros_rev r.
Proof.
  induction r as [|c r [k IH]]; [now exists 0%nat|].
  cbn [time.drop_zeros_rev].
  destruct (Ascii.eqb_spec c (Json.ch "0")) as [->|Hne].
  - exists (S k). cbn [repeat app]. now rewrite <- IH.
  - now exists 0%nat.
Qed.

Lemma number_zeros k : forall l n,
  time.number 0 l = Some n ->
  time.number 0 (l ++ repeat (Json.ch "0") k) = Some (n * 10 ^ Z.of_nat k).
Proof.
  induction k as [|k IH]; intros l n Hl.
  - cbn [repeat]. rewrite app_nil_r, Hl. f_equal. cbn. lia.
  - replace (l ++ repeat (Json.ch "0") (S k))
      with ((l ++ [Json.ch "0"]) ++ repeat (Json.ch "0") k)
      by (rewrite <- app_assoc; reflexivity).
    rewrite (IH _ (n * 10)).
    + f_equal. rewrite Nat2Z.inj_succ, Z.pow_succ_r by lia. lia.
    + rewrite number_app, Hl.
      change (Json.isDigit (Json.ch "0")) with true.
      change (bv (Json.ch "0")) with 48. cbv iota. f_equal. lia.
Qed.

Lemma number_prefix l : forall acc k,
  time.number acc (l ++ repeat (Json.ch "0") k) <> None ->
  time.number acc l <> None.
Proof.
  induction l as [|x l IH]; intros acc k H; cbn [app time.number] in *.
  - discriminate.
  - destruct (Json.isDigit x); [now apply (IH _ k)|exact H].
Qed.

Lemma parse_fraction_fraction ns :
  0 <= ns < 1000000000 ->
  time.parse_fraction (time.fraction ns) = Some ns.
Proof.
  intros Hns. unfold time.fraction.
  pose proof (number_decimal 9 ns ltac:(cbn; lia)) as Hnum.
  pose proof (length_decimal 9 ns) as Hlen.
  destruct (drop_zeros_rev_spec (rev (time.decimal 9 ns))) as [k Hk].
  set (r := time.drop_zeros_rev (rev (time.decimal 9 ns))) in *.
  assert (Hds : time.decimal 9 ns = rev r ++ repeat (Json.ch "0") k).
  { rewrite <- (rev_involutive (time.decimal 9 ns)), Hk, rev_app_distr.
    f_equal. clear. induction k as [|k IH]; [reflexivity|].
    cbn [repeat rev]. rewrite IH. clear.
    induction k as [|k IH]; [reflexivity|]. cbn [repeat app]. now rewrite IH. }
  rewrite Hds in Hnum, Hlen.
  rewrite length_app, repeat_length in Hlen.
  destruct (time.number 0 (rev r)) as [n|] eqn:Hn.
  2:{ exfalso. apply (number_prefix (rev r) 0 k); [|exact Hn].
      rewrite Hnum. discriminate. }
  rewrite (number_zeros k _ n Hn) in Hnum. injection Hnum as Hnum.
  destruct (rev r) as [|c d] eqn:Hr.
  - cbn in Hn. injection Hn as <-. cbn [time.parse_fraction]. f_equal.
    now rewrite Z.mul_0_l in Hnum.
  - cbn [time.parse_fraction]. rewrite Ascii.eqb_refl.
    cbn [List.length] in Hlen.
    change (List.length (Json.ch "." :: c :: d))
      with (S (List.length (c :: d))) in *.
    cbn [andb List.length Nat.eqb negb].
    destruct (Nat.leb_spec (S (List.length d)) 9) as [_|Hbig]; [|lia].
    rewrite Hn. f_equal. rewrite <- Hnum. f_equal. f_equal. lia.
Qed.

(** *** The whole layout *)

(** The years that the layout writes with four digits. *)
Definition in_layout (t : time.Time) : Prop :=
  0 <= fst (fst (time.civil_from_days (t / time.Second / 86400))) <= 9999.

(** A time of the years 0000 to 9999 that is written in the layout is
    read back as the same time. *)
Lemma ParseRFC3339_Format t :
  in_layout t ->
  time.ParseRFC3339 (time.FormatRFC3339Nano t) = Some t.
Proof.
  unfold in_layout, time.FormatRFC3339Nano.
  set (secs := t / time.Second). set (ns := t mod time.Second).
  set (days := secs / 86400). set (rem := secs mod 86400).
  destruct (time.civil_from_days days) as [[y m] d] eqn:Hcivil.
  cbn [fst]. intros Hy.
  apply civil_from_days_spec in Hcivil as (Hm & Hd & Hdays).
  assert (Hrem : 0 <= rem < 86400) by (apply Z.mod_pos_bound; lia).
  assert (Hns : 0 <= ns < 1000000000) by (apply Z.mod_pos_bound; reflexivity).
  assert (Hdim : time.days_in_month y m <= 31).
  { unfold time.days_in_month.
    repeat match goal with |- context [if ?b then _ else _] => destruct b end;
      lia. }
  assert (Hhh : 0 <= rem / 3600 < 24)
    by (split; [apply Z.div_pos; lia | apply Z.div_lt_upper_bound; lia]).
  assert (Hmi : 0 <= rem mod 3600 / 60 < 60).
  { pose proof (Z.mod_pos_bound rem 3600 ltac:(lia)).
    split; [apply Z.div_pos; lia | apply Z.div_lt_upper_bound; lia]. }
  assert (Hss : 0 <= rem mod 60 < 60) by (apply Z.mod_pos_bound; lia).
  unfold time.ParseRFC3339. rewrite bytes_of_string_of_bytes.
  rewrite decimal4, !decimal2.
  change (Json.lit "-") with [Json.ch "-"].
  change (Json.lit "T") with [Json.ch "T"].
  change (Json.lit ":") with [Json.ch ":"].
  change (Json.lit "Z") with [Json.ch "Z"].
  cbn [app]. cbv beta iota.
  rewrite <- decimal4, <- !decimal2.
  rewrite (number_decimal 4 y) by (cbn; lia).
  rewrite (number_decimal 2 m) by (cbn; lia).
  rewrite (number_decimal 2 d) by (cbn; lia).
  rewrite (number_decimal 2 (rem / 3600)) by (cbn; lia).
  rewrite (number_decimal 2 (rem mod 3600 / 60)) by (cbn; lia).
  rewrite (number_decimal 2 (rem mod 60)) by (cbn; lia).
  rewrite rev_app_distr. cbn [rev app]. rewrite !Ascii.eqb_refl.
  cbn [andb].
  destruct (Z.leb_spec 1 m); [|lia]. destruct (Z.leb_spec m 12); [|lia].
  destruct (Z.leb_spec 1 d); [|lia].
  destruct (Z.leb_spec d (time.days_in_month y m)); [|lia].
  destruct (Z.ltb_spec (rem / 3600) 24); [|lia].
  destruct (Z.ltb_spec (rem mod 3600 / 60) 60); [|lia].
  destruct (Z.ltb_spec (rem mod 60) 60); [|lia].
  cbn [andb]. rewrite rev_involutive, parse_fraction_fraction by exact Hns.
  f_equal. rewrite Hdays. subst days rem ns secs. unfold time.Second.
  Z.to_euclidean_division_equations. lia.
Qed.

End TimeFacts.

(** ** Rounding *)

Module FloatFacts.
Import float64.

Lemma ulp_pos a : 0 < ulp a.
Proof. unfold ulp. apply Z.pow_pos_nonneg; lia. Qed.

Lemma nearest_even_floor n d : n / d <= nearest_even n d.
Proof.
  unfold nearest_even.
  destruct (2 * (n mod d) ?= d); [destruct (Z.even _)| |]; lia.
Qed.

(** A number that has a place among the numbers of 53 bits. *)
Definition representable (y : t) : Prop := (ulp (Z.abs y) | y).

Lemma round_representable y : representable y -> round y 1 = y.
Proof.
  intros [k Hk]. unfold round. rewrite Z.div_1_r, Z.mul_1_l.
  pose proof (ulp_pos (Z.abs y)) as Hu.
  set (u := ulp (Z.abs y)) in *. unfold nearest_even.
  assert (Hmod : y mod u = 0) by (rewrite Hk; apply Z_mod_mult).
  rewrite Hmod. change (2 * 0) with 0.
  destruct (Z.compare_spec 0 u) as [Heq|_|Hlt]; [lia| |lia].
  pose proof (Z.div_mod y u ltac:(lia)). lia.
Qed.

Lemma representable_int k :
  Z.abs k <= 2 ^ 53 -> representable (k * scale).
Proof.
  intros Hk. unfold representable.
  destruct (Z.eq_dec k 0) as [->|Hne]; [exists 0; reflexivity|].
  rewrite Z.abs_mul, (Z.abs_eq scale) by (unfold scale; lia).
  unfold ulp, scale. rewrite Z.log2_mul_pow2 by lia.
  assert (Hlog : Z.log2 (Z.abs k) <= 53).
  { destruct (Z.eq_dec (Z.abs k) (2 ^ 53)) as [->|Hlt]; [reflexivity|].
    apply Z.lt_le_incl, Z.log2_lt_pow2; lia. }
  pose proof (Z.log2_nonneg (Z.abs k)).
  rewrite Z.max_r by lia.
  destruct (Z_le_gt_dec (Z.log2 (Z.abs k)) 52) as [Hsmall|Hbig].
  - exists (k * 2 ^ (52 - Z.log2 (Z.abs k))).
    replace (2 ^ 1074)
      with (2 ^ (52 - Z.log2 (Z.abs k))
            * 2 ^ (1074 + Z.log2 (Z.abs k) - 52)); [ring|].
    rewrite <- Z.pow_add_r by lia. f_equal. lia.
  - assert (Hk53 : Z.abs k = 2 ^ 53).
    { assert (Hl : Z.log2 (Z.abs k) = 53) by lia.
      pose proof (Z.log2_spec (Z.abs k) ltac:(lia)) as Hs.
      rewrite Hl in Hs. lia. }
    replace (1074 + Z.log2 (Z.abs k) - 52) with 1075 by lia.
    exists (k / 2).
    assert (Hcases : k = 2 ^ 53 \/ k = - 2 ^ 53) by lia.
    destruct Hcases as [->| ->]; vm_compute; reflexivity.
Qed.

Lemma of_int_exact k : Z.abs k <= 2 ^ 53 -> of_int k = k * scale.
Proof. intros Hk. apply round_representable, representable_int, Hk. Qed.

(** Rounding does not go below a number that the exact result does not go
    below. *)
Lemma round_ge y n d :
  0 <= y -> representable y -> 0 < d -> y * d <= n -> y <= round n d.
Proof.
  intros Hy [ky Hky] Hd Hle.
  assert (Hn : 0 <= n) by nia.
  unfold round. rewrite (Z.abs_eq n) by exact Hn.
  rewrite (Z.abs_eq y) in Hky by exact Hy.
  set (a := n / d).
  assert (Hya : y <= a) by (apply Z.div_le_lower_bound; lia).
  pose proof (ulp_pos a) as Hu. pose proof (ulp_pos y) as Huy.
  pose proof (nearest_even_floor n (d * ulp a)) as Hfloor.
  rewrite <- Z.div_div in Hfloor by lia. fold a in Hfloor.
  set (m := nearest_even n (d * ulp a)) in *.
  destruct (Z.eq_dec y 0) as [->|Hy0].
  { assert (0 <= a / ulp a) by (apply Z.div_pos; lia). nia. }
  assert (Hlogle : Z.log2 y <= Z.log2 a) by (apply Z.log2_le_mono; lia).
  unfold ulp in *.
  destruct (Z_le_gt_dec (Z.max 0 (Z.log2 a - 52)) (Z.max 0 (Z.log2 y - 52)))
    as [Hsame|Hhigher].
  - assert (Heq : Z.max 0 (Z.log2 a - 52) = Z.max 0 (Z.log2 y - 52)) by lia.
    rewrite Heq in *.
    set (u := 2 ^ Z.max 0 (Z.log2 y - 52)) in *.
    assert (ky <= a / u).
    { apply Z.div_le_lower_bound; [lia|]. lia. }
    nia.
  - assert (Hexp : Z.max 0 (Z.log2 a - 52) = Z.log2 a - 52) by lia.
    rewrite Hexp in *.
    set (u := 2 ^ (Z.log2 a - 52)) in *.
    assert (Ha : u * 2 ^ 52 <= a).
    { unfold u. rewrite <- Z.pow_add_r by lia.
      replace (Z.log2 a - 52 + 52) with (Z.log2 a) by lia.
      apply Z.log2_spec. lia. }
    assert (Hyu : y < u * 2 ^ 52).
    { unfold u. rewrite <- Z.pow_add_r by lia.
      replace (Z.log2 a - 52 + 52) with (Z.log2 a) by lia.
      apply Z.log2_lt_pow2; lia. }
    assert (2 ^ 52 <= a / u) by (apply Z.div_le_lower_bound; lia).
    nia.
Qed.

Lemma round_nonneg n d : 0 <= n -> 0 < d -> 0 <= round n d.
Proof.
  intros Hn Hd. apply round_ge; [lia|exists 0; reflexivity|exact Hd|lia].
Qed.

End FloatFacts.

(** ** The bucket of one key *)

Module LimiterFacts.
Import utils.

Lemma scale_pos : 0 < float64.scale.
Proof. reflexivity. Qed.

Lemma one : float64.of_int 1 = float64.scale.
Proof.
  rewrite FloatFacts.of_int_exact by (cbn; lia). apply Z.mul_1_l.
Qed.

Lemma of_int_whole k :
  0 <= k <= 2 ^ 53 -> float64.of_int k = k * float64.scale.
Proof. intros Hk. apply FloatFacts.of_int_exact. lia. Qed.

Lemma sub_ge j x :
  1 <= j <= 2 ^ 53 -> j * float64.scale <= x ->
  (j - 1) * float64.scale <= float64.sub x (float64.of_int 1).
Proof.
  intros Hj Hx. rewrite one. unfold float64.sub.
  pose proof scale_pos.
  apply FloatFacts.round_ge; [nia| |lia|lia].
  apply FloatFacts.representable_int. lia.
Qed.

Lemma add_ge j x y :
  0 <= j <= 2 ^ 53 -> j * float64.scale <= x -> 0 <= y ->
  j * float64.scale <= float64.add x y.
Proof.
  intros Hj Hx Hy. unfold float64.add. pose proof scale_pos.
  apply FloatFacts.round_ge; [nia| |lia|lia].
  apply FloatFacts.representable_int. lia.
Qed.

Lemma Sub_nonneg t u : u <= t -> 0 <= rate.Sub t u.
Proof.
  intros Hle. unfold rate.Sub.
  destruct (Z.ltb_spec rate.maxDuration (t - u)); [discriminate|].
  destruct (Z.ltb_spec (t - u) rate.minDuration); [|lia].
  unfold rate.minDuration in *. lia.
Qed.

Lemma Seconds_nonneg d : 0 <= d -> 0 <= rate.Seconds d.
Proof.
  intros Hd. unfold rate.Seconds, float64.add.
  pose proof scale_pos.
  assert (Hsec : 0 <= Z.quot d time.Second)
    by (apply Z.quot_pos; [lia|reflexivity]).
  assert (Hnsec : 0 <= Z.rem d time.Second)
    by (apply Z.rem_nonneg; [discriminate|lia]).
  assert (Hpos : (0 <? float64.of_int 1000000000) = true)
    by (vm_compute; reflexivity).
  apply FloatFacts.round_nonneg; [|lia].
  apply Z.add_nonneg_nonneg.
  - unfold float64.of_int. apply FloatFacts.round_nonneg; [nia|lia].
  - unfold float64.div. rewrite Hpos.
    apply FloatFacts.round_nonneg; [|now apply Z.ltb_lt].
    apply Z.mul_nonneg_nonneg; [|lia].
    unfold float64.of_int. apply FloatFacts.round_nonneg; [nia|lia].
Qed.

Lemma tokensFromDuration_nonneg limit d :
  0 <= d -> 0 <= rate.tokensFromDuration limit d.
Proof.
  intros Hd. unfold rate.tokensFromDuration.
  destruct (Z.leb_spec limit 0); [lia|].
  unfold float64.mul. apply FloatFacts.round_nonneg; [|reflexivity].
  apply Z.mul_nonneg_nonneg; [now apply Seconds_nonneg | lia].
Qed.

(** The time between two checks of a bucket is never negative. *)
Lemma elapsed_nonneg lim t :
  0 <= rate.Sub t (if t <? rate.last lim then t else rate.last lim).
Proof.
  apply Sub_nonneg. destruct (Z.ltb_spec t (rate.last lim)); lia.
Qed.

(** A bucket that holds [j] tokens holds them at any time of the clock,
    and a check of it is admitted and leaves [j - 1]. *)
Lemma Allow_admits (j : Z) lim t :
  1 <= j <= rate.burst lim -> rate.burst lim <= 2 ^ 53 ->
  0 < rate.limit lim ->
  j * float64.scale <= rate.tokens lim ->
  exists tokens,
    rate.Allow lim t
    = (rate.mkLimiter (rate.limit lim) (rate.burst lim) tokens t, true)
    /\ (j - 1) * float64.scale <= tokens.
Proof.
  intros Hj Hb Hlimit Htokens. unfold rate.Allow.
  destruct (Z.eqb_spec (rate.limit lim) 0); [lia|].
  pose proof scale_pos.
  assert (Hadv : j * float64.scale <= rate.advance lim t).
  { unfold rate.advance.
    assert (Hsum : j * float64.scale
                   <= float64.add (rate.tokens lim)
                        (rate.tokensFromDuration (rate.limit lim)
                           (rate.Sub t (if t <? rate.last lim then t
                                        else rate.last lim)))).
    { apply add_ge; [lia|exact Htokens|].
      apply tokensFromDuration_nonneg, elapsed_nonneg. }
    rewrite (of_int_whole (rate.burst lim)) by lia.
    destruct (Z.ltb_spec (rate.burst lim * float64.scale)
                (float64.add (rate.tokens lim)
                   (rate.tokensFromDuration (rate.limit lim)
                      (rate.Sub t (if t <? rate.last lim then t
                                   else rate.last lim))))); [nia|exact Hsum]. }
  pose proof (sub_ge j _ ltac:(lia) Hadv) as Hleft.
  set (tokens := float64.sub (rate.advance lim t) (float64.of_int 1)) in *.
  exists tokens. split; [|exact Hleft].
  destruct (Z.ltb_spec tokens 0); [nia|].
  destruct (Z.leb_spec 1 (rate.burst lim)); [|lia]. reflexivity.
Qed.


(** The seconds of the longest duration. *)
Lemma Seconds_maxDuration :
  9223372036 * float64.scale <= rate.Seconds rate.maxDuration.
Proof. apply Z.leb_le. vm_compute. reflexivity. Qed.

(** The first check of a new bucket, at a time of the clock that is not
    before 1970, finds the bucket full. *)
Lemma advance_NewLimiter r b t :
  1 <= r <= 2 ^ 53 -> 0 <= b <= 9223372036 * r -> b <= 2 ^ 53 -> 0 <= t ->
  rate.advance (rate.NewLimiter (float64.of_int r) b) t = float64.of_int b.
Proof.
  intros Hr Hb Hb53 Ht. unfold rate.advance, rate.NewLimiter.
  cbn [rate.last rate.tokens rate.limit rate.burst].
  pose proof scale_pos as Hs.
  assert (Hzero : time.zero = -62135596800000000000) by reflexivity.
  destruct (Z.ltb_spec t time.zero); [lia|].
  assert (Hsub : rate.Sub t time.zero = rate.maxDuration).
  { unfold rate.Sub.
    destruct (Z.ltb_spec rate.maxDuration (t - time.zero)); [reflexivity|].
    unfold rate.maxDuration in *. lia. }
  rewrite Hsub. unfold rate.tokensFromDuration.
  rewrite (of_int_whole r), (of_int_whole b) by lia.
  destruct (Z.leb_spec (r * float64.scale) 0); [nia|].
  pose proof Seconds_maxDuration as Hsec.
  assert (Hdelta : b * float64.scale
                   <= float64.mul (rate.Seconds rate.maxDuration)
                        (r * float64.scale)).
  { unfold float64.mul. apply FloatFacts.round_ge; [nia| |exact Hs|].
    - apply FloatFacts.representable_int. lia.
    - assert (b * float64.scale <= 9223372036 * r * float64.scale) by nia.
      nia. }
  assert (Hsum : b * float64.scale
                 <= float64.add 0
                      (float64.mul (rate.Seconds rate.maxDuration)
                         (r * float64.scale))).
  { unfold float64.add. apply FloatFacts.round_ge; [nia| |lia|lia].
    apply FloatFacts.representable_int. lia. }
  destruct (Z.ltb_spec (b * float64.scale)
              (float64.add 0
                 (float64.mul (rate.Seconds rate.maxDuration)
                    (r * float64.scale)))); lia.
Qed.

(** The first check of a new bucket is admitted and leaves all the tokens
    of the burst but one. *)
Lemma Allow_NewLimiter r b t :
  1 <= r <= 2 ^ 53 -> 1 <= b <= 9000000000 -> 0 <= t ->
  rate.Allow (rate.NewLimiter (float64.of_int r) b) t
  = (rate.mkLimiter (float64.of_int r) b ((b - 1) * float64.scale) t, true).
Proof.
  intros Hr Hb Ht. pose proof scale_pos as Hs.
  assert (H53 : 2 ^ 53 = 9007199254740992) by reflexivity.
  unfold rate.Allow. rewrite advance_NewLimiter by lia.
  unfold rate.NewLimiter. cbn [rate.limit rate.burst rate.tokens rate.last].
  rewrite (of_int_whole r), (of_int_whole b) by lia.
  destruct (Z.eqb_spec (r * float64.scale) 0); [nia|].
  rewrite one. unfold float64.sub.
  replace (b * float64.scale - float64.scale) with ((b - 1) * float64.scale)
    by lia.
  rewrite FloatFacts.round_representable
    by (apply FloatFacts.representable_int; lia).
  destruct (Z.ltb_spec ((b - 1) * float64.scale) 0); [nia|].
  destruct (Z.leb_spec 1 b); [|lia]. reflexivity.
Qed.




End LimiterFacts.

(** ** The claims of the specification *)

Module Claims.
Import models utils.





(** C10.  [CleanupOldLimiters] removes no entry: every number of ticks
    leaves the limiter as it was, and when admission checks and ticks are
    interleaved in any order the map ends with every key it started with
    and every key that was asked for. *)
Theorem C10_cleanup_removes_nothing (maxAge : Z) (rl : RateLimiter) :
  (forall ticks, CleanupOldLimiters maxAge ticks rl = rl)
  /\ (forall es,
        dom (limiters (run maxAge rl es))
        = list_to_set (requested es) ∪ dom (limiters rl)).
Proof.
  split.
  - intros ticks. unfold CleanupOldLimiters.
    induction ticks as [|n IH]; [reflexivity|].
    change (Nat.iter (S n) (sweep maxAge) rl)
      with (sweep maxAge (Nat.iter n (sweep maxAge) rl)).
    rewrite IH. apply RateLimiterFacts.sweep_id.
  - intros es. apply RateLimiterFacts.run_dom.
Qed.

(** C1.  For a limit from 1 to 100, a list that succeeds holds at most
    [limit] items, and [has_more] is set exactly when more than [limit]
    rows match the conditions of the query (the filters and the position
    of the cursor), that is when there is a row after the page; and the
    list does succeed when the store answers, the cursor decodes to values
    of its columns and the order names a column. *)
Theorem C1_page_size_and_has_more (s : ItemService)
  (p : PaginationRequest.t) (filters : option FilterRequest.t)
  (sort : option SortRequest.t) :
  1 <= PaginationRequest.Limit p <= 100 ->
  let query := gorm.mkQuery (filter_conds filters) (sort_order sort) None in
  (forall s' resp,
     GetItems s (Some p) filters sort = (s', Ok resp) ->
     exists q,
       with_cursor (Some p) query = Ok q
       /\ Z.of_nat (List.length (PaginatedResponse.Items resp))
          <= PaginationRequest.Limit p
       /\ (PaginatedResponse.HasMore resp = true
           <-> PaginationRequest.Limit p
               < Z.of_nat (List.length
                   (gorm.matching (gorm.conds q) (gorm.rows (db s))))))
  /\ (forall q,
        gorm.conn_ok (db s) = true ->
        with_cursor (Some p) query = Ok q ->
        forallb gorm.well_typed (gorm.conds q) = true ->
        is_Some (gorm.column_le (fst (sort_order sort))) ->
        exists s' resp, GetItems s (Some p) filters sort = (s', Ok resp)).
Proof.
  intros Hlimit query. split.
  - intros s' resp Hrun.
    apply ServiceFacts.GetItems_Ok in Hrun
      as (q & l & Hq & _ & _ & Hl & Hresp).
    exists q. split; [exact Hq|].
    assert (Hpl : page_limit (Some p) = PaginationRequest.Limit p).
    { unfold page_limit.
      destruct (Z.ltb_spec 0 (PaginationRequest.Limit p)); [reflexivity|lia]. }
    rewrite Hpl in Hresp. cbv zeta in Hresp.
    assert (H62 : 2 ^ 62 = 4611686018427387904) by reflexivity.
    destruct (ServiceFacts.page_shape (PaginationRequest.Limit p) l
                ltac:(lia)) as (Hsize & Hmore & _).
    cbv zeta in Hsize, Hmore.
    rewrite Hresp. cbn [PaginatedResponse.Items PaginatedResponse.HasMore].
    split; [exact Hsize|].
    rewrite Hmore. now rewrite (ServiceFacts.length_ordered _ _ _ _ Hl).
  - intros q Hconn Hq Hwt Hcol.
    now apply (ServiceFacts.GetItems_returns s (Some p) filters sort q).
Qed.

Definition c1_item (id : Z) : Item.t :=
  Item.mk id "Mouse" 200 2599 (1704067200000000000 + id)
          (1704067200000000000 + id) None.

Definition c1_service : ItemService :=
  mkItemService (gorm.mkDB (List.map c1_item [1; 2; 3]) true []) (Some ∅).

Lemma C1_page_size_and_has_more_witness :
  exists resp,
    snd (GetItems c1_service (Some (PaginationRequest.mk 2 "")) None None)
    = Ok resp
    /\ Z.of_nat (List.length (PaginatedResponse.Items resp)) <= 2
    /\ PaginatedResponse.HasMore resp = true.
Proof.
  destruct (C1_page_size_and_has_more c1_service
              (PaginationRequest.mk 2 "") None None ltac:(cbn; lia))
    as [Hshape Hruns].
  destruct (Hruns _ ltac:(reflexivity) ltac:(reflexivity) ltac:(reflexivity)
              ltac:(eexists; reflexivity)) as (s' & resp & Hrun).
  exists resp. rewrite Hrun. split; [reflexivity|].
  destruct (Hshape s' resp Hrun) as (q & Hq & Hsize & Hmore).
  split; [exact Hsize|].
  apply Hmore. injection Hq as <-. vm_compute. reflexivity.
Defined.

(** C2.  On a table where two rows have the same creation time the
    default list repeats a row and skips a row: with the rows A and B of
    one time stamp stored before the older row C, the second page of two
    starts again with A, and the second page of one holds C and is the
    last, so that B is on no page. *)

Definition c2_time : time.Time := 1704067200000000000.
Definition c2_A : Item.t := Item.mk 1 "A" 1 100 c2_time c2_time None.
Definition c2_B : Item.t := Item.mk 2 "B" 1 100 c2_time c2_time None.
Definition c2_C : Item.t :=
  Item.mk 3 "C" 1 100 (c2_time - time.Second) (c2_time - time.Second) None.

Definition c2_service : ItemService :=
  mkItemService (gorm.mkDB [c2_A; c2_B; c2_C] true []) (Some ∅).

Definition c2_page (limit : Z) (cursor : string)
  : result error PaginatedResponse.t :=
  snd (GetItems c2_service (Some (PaginationRequest.mk limit cursor))
         None None).

(** The cursors the service hands out on this table. *)
Definition c2_cursor_of (r : result error PaginatedResponse.t) : string :=
  match r with
  | Ok resp => PaginatedResponse.NextCursor resp
  | Err _ => ""
  end.

Definition c2_after_AB : string := Eval vm_compute in c2_cursor_of (c2_page 2 "").
Definition c2_after_A : string := Eval vm_compute in c2_cursor_of (c2_page 1 "").

Theorem C2_rows_of_one_time_repeat_and_skip :
  (c2_page 2 "" = Ok (PaginatedResponse.mk [c2_A; c2_B] c2_after_AB true 3)
   /\ c2_page 2 c2_after_AB
      = Ok (PaginatedResponse.mk [c2_A; c2_C] "" false 3))
  /\ (c2_page 1 "" = Ok (PaginatedResponse.mk [c2_A] c2_after_A true 3)
      /\ c2_page 1 c2_after_A
         = Ok (PaginatedResponse.mk [c2_C] "" false 3)).
Proof.
  repeat split; vm_compute; reflexivity.
Qed.

(** C4.  A create, an update or a delete that succeeds leaves the cache
    without any entry, so that a read of any identifier at any later time
    misses the cache and answers from the store. *)
Theorem C4_mutation_clears_cache (s : ItemService) :
  (forall req now new_id s' item,
     CreateItem s req now new_id = (s', Ok item) ->
     ServiceFacts.cache_cleared s')
  /\ (forall id req now s' item,
        UpdateItem s id req now = (s', Ok item) ->
        ServiceFacts.cache_cleared s')
  /\ (forall id now s' u,
        DeleteItem s id now = (s', Ok u) ->
        ServiceFacts.cache_cleared s').
Proof.
  split; [|split].
  - intros req now new_id s' item. unfold CreateItem.
    destruct (gorm.Create _ now new_id (db s)) as [d [it|e]];
      [|discriminate].
    intros [= <- _]. apply ServiceFacts.invalidateCache_cleared.
  - intros id req now s' item. unfold UpdateItem.
    destruct (gorm.First id (db s)) as [d [it|[]]]; try discriminate.
    destruct (gorm.Save _ now d) as [d' [it'|e]]; [|discriminate].
    intros [= <- _]. apply ServiceFacts.invalidateCache_cleared.
  - intros id now s' u. unfold DeleteItem.
    destruct (gorm.Delete id now (db s)) as [d [n|e]]; [|discriminate].
    destruct (n =? 0); [discriminate|].
    intros [= <- _]. apply ServiceFacts.invalidateCache_cleared.
Qed.

Definition c4_item : Item.t :=
  Item.mk 7 "Laptop" 50 99999 1704067200000000000 1704067200000000000 None.

(** A service whose cache holds a copy of the row that differs from the
    store. *)
Definition c4_service : ItemService :=
  mkItemService (gorm.mkDB [c4_item] true [])
    (Some (ristretto.mkCache
             {[ uuid.String 7 :=
                  ristretto.mkEntry (Item.mk 7 "Stale" 1 1 0 0 None)
                    (Some (1704067200000000000 + 5 * time.Minute)) ]}
             [])).

Lemma C4_mutation_clears_cache_witness :
  Item.Name <$> (match snd (GetItem c4_service (uuid.String 7)
                              1704067201000000000) with
                 | Ok it => Some it | Err _ => None end) = Some "Stale"%string
  /\ ServiceFacts.cache_cleared
       (fst (UpdateItem c4_service (uuid.String 7)
               (UpdateItemRequest.mk None (Some 49) None)
               1704067202000000000)).
Proof.
  split; [vm_compute; reflexivity|].
  destruct (C4_mutation_clears_cache c4_service) as (_ & Hupdate & _).
  destruct (UpdateItem c4_service (uuid.String 7)
              (UpdateItemRequest.mk None (Some 49) None)
              1704067202000000000) as [s' r] eqn:Hrun.
  assert (Hok : exists item, r = Ok item).
  { apply (f_equal snd) in Hrun. cbn [snd] in Hrun. rewrite <- Hrun.
    vm_compute. eexists. reflexivity. }
  destruct Hok as [item ->].
  exact (Hupdate _ _ _ _ _ Hrun).
Defined.

(** C5, as the service has it.  An update of a row that is there succeeds
    and returns, and stores, the row with the fields of the request that are
    set, every other field as it was (identifier, creation time and the
    fields that are not set), and the modification time set to the time of
    the update; so an update with no field set changes the modification
    time and nothing else. *)
Theorem C5_update_patches_and_touches (s : ItemService) (id : string)
  (req : UpdateItemRequest.t) (now : time.Time) (item0 : Item.t) :
  snd (gorm.First id (db s)) = Ok item0 ->
  exists s' item,
    UpdateItem s id req now = (s', Ok item)
    /\ In item (gorm.rows (db s'))
    /\ Item.ID item = Item.ID item0
    /\ Item.Name item = default (Item.Name item0) (UpdateItemRequest.Name req)
    /\ Item.Stock item
       = default (Item.Stock item0) (UpdateItemRequest.Stock req)
    /\ Item.Price item
       = default (Item.Price item0) (UpdateItemRequest.Price req)
    /\ Item.CreatedAt item = Item.CreatedAt item0
    /\ Item.DeletedAt item = Item.DeletedAt item0
    /\ Item.UpdatedAt item = now.
Proof.
  intros Hfirst.
  apply ServiceFacts.First_Ok in Hfirst as (Hconn & _ & Hfirst).
  unfold UpdateItem. rewrite Hfirst.
  destruct (ServiceFacts.Save_Ok (patch item0 req) now
              (gorm.issue gorm.SelectFirst (db s)) Hconn)
    as (d' & Hsave & Hin).
  rewrite Hsave. eexists. eexists. split; [reflexivity|].
  split.
  { unfold invalidateCache, with_db. cbn [cache db].
    destruct (cache s); exact Hin. }
  destruct req as [[name|] [stock|] [price|]]; destruct item0;
    repeat split; reflexivity.
Qed.

Definition c5_item : Item.t :=
  Item.mk 7 "Laptop" 50 99999 1704067200000000000 1704067200000000000 None.

Definition c5_service : ItemService :=
  mkItemService (gorm.mkDB [c5_item] true []) (Some ∅).

Lemma C5_update_patches_and_touches_witness :
  exists item,
    snd (UpdateItem c5_service (uuid.String 7)
           (UpdateItemRequest.mk None None None) 1704067260000000000)
    = Ok item
    /\ Item.Name item = "Laptop"%string /\ Item.Stock item = 50
    /\ Item.UpdatedAt item = 1704067260000000000.
Proof.
  destruct (C5_update_patches_and_touches c5_service (uuid.String 7)
              (UpdateItemRequest.mk None None None) 1704067260000000000
              c5_item ltac:(vm_compute; reflexivity))
    as (s' & item & Hrun & _ & _ & Hname & Hstock & _ & _ & _ & Hupd).
  exists item. rewrite Hrun. repeat split; assumption.
Defined.

(** An update with no field set returns the row with another modification
    time. *)
Lemma C5_counterexample :
  snd (gorm.First (uuid.String 7) (db c5_service)) = Ok c5_item
  /\ exists item,
       snd (UpdateItem c5_service (uuid.String 7)
              (UpdateItemRequest.mk None None None) 1704067260000000000)
       = Ok item
       /\ Item.UpdatedAt item <> Item.UpdatedAt c5_item.
Proof.
  split; [vm_compute; reflexivity|].
  eexists. split; [vm_compute; reflexivity|].
  cbn. discriminate.
Qed.

(** C6.  A list request whose [sort_by] is given and is none of [name],
    [stock], [price], [created_at], or whose [sort_order] is given and is
    neither [asc] nor [desc], is answered with a bad request, and the
    service is as it was: no statement was sent to the store and no
    default order was used. *)
Theorem C6_unknown_sort_is_refused (svc : ItemService)
  (req : controllers.ListRequest) :
  (SortRequest.SortBy (controllers.sort req) <> ""%string
   /\ ~ In (SortRequest.SortBy (controllers.sort req))
           ["name"; "stock"; "price"; "created_at"]%string)
  \/ (SortRequest.SortOrder (controllers.sort req) <> ""%string
      /\ ~ In (SortRequest.SortOrder (controllers.sort req))
              ["asc"; "desc"]%string) ->
  exists msg,
    controllers.GetItems svc req = (svc, controllers.BadRequest msg)
    /\ gorm.log (db (fst (controllers.GetItems svc req))) = gorm.log (db svc).
Proof.
  intros Hbad.
  assert (Hsort : valid_SortRequest (controllers.sort req) = false).
  { unfold valid_SortRequest. apply andb_false_iff.
    destruct Hbad as [[Hne Hout]|[Hne Hout]];
      [left|right]; now apply ServiceFacts.oneof_refuses. }
  unfold controllers.GetItems. rewrite Hsort. cbn [negb].
  destruct (valid_PaginationRequest _); cbn [negb];
    [|eexists; split; reflexivity].
  destruct (valid_FilterRequest _); cbn [negb];
    eexists; split; reflexivity.
Qed.

Definition c6_service : ItemService :=
  mkItemService (gorm.mkDB [c5_item] true []) (Some ∅).

Definition c6_request (sort_by sort_order : string) : controllers.ListRequest :=
  controllers.mkListRequest (PaginationRequest.mk 0 "")
    (FilterRequest.mk "" None None None) (SortRequest.mk sort_by sort_order).

Lemma C6_unknown_sort_is_refused_witness :
  exists msg,
    controllers.GetItems c6_service (c6_request "invalid_field" "")
    = (c6_service, controllers.BadRequest msg)
    /\ gorm.log (db (fst (controllers.GetItems c6_service
                            (c6_request "invalid_field" ""))))
       = gorm.log (db c6_service).
Proof.
  apply (C6_unknown_sort_is_refused c6_service
           (c6_request "invalid_field" "")).
  left. split; [discriminate|].
  cbn. intros [H|[H|[H|[H|[]]]]]; discriminate.
Defined.

(** The sort that the handler passes on: the defaults in the place of the
    empty fields. *)
Definition c7_sort (so : SortRequest.t) : SortRequest.t :=
  SortRequest.mk
    (if String.eqb (SortRequest.SortBy so) "" then "created_at"
     else SortRequest.SortBy so)
    (if String.eqb (SortRequest.SortOrder so) "" then "desc"
     else SortRequest.SortOrder so).

Lemma c7_sort_column so :
  valid_SortRequest so = true ->
  is_Some (gorm.column_le (fst (sort_order (Some (c7_sort so))))).
Proof.
  intros Hsort. apply andb_prop in Hsort as [Hby _].
  unfold oneof in Hby. cbn [existsb] in Hby.
  unfold sort_order, c7_sort. cbn [SortRequest.SortBy SortRequest.SortOrder].
  destruct (String.eqb_spec (SortRequest.SortBy so) "") as [Hempty|Hgiven].
  - eexists. reflexivity.
  - apply String.eqb_neq in Hgiven. rewrite Hgiven in *. cbn [orb fst] in *.
    repeat (apply orb_prop in Hby as [Hby|Hby]);
      try discriminate Hby;
      apply String.eqb_eq in Hby; rewrite Hby; eexists; reflexivity.
Qed.

(** C7.  A list request with limit 0 is served as the same request with
    limit 10: when its filters and its sort are valid and the store
    answers, it is answered with a page, the page that the service returns
    for the limit 10, which holds 10 rows or all the rows that match when
    these are fewer, and has more exactly when more than 10 rows match.  A
    negative limit and a limit above 100 are answered with a bad request,
    and the service is as it was. *)
Theorem C7_limit_default_and_bounds (svc : ItemService)
  (req : controllers.ListRequest) :
  (PaginationRequest.Limit (controllers.pagination req) = 0 ->
   let ten :=
     PaginationRequest.mk 10
       (PaginationRequest.Cursor (controllers.pagination req)) in
   controllers.GetItems svc req
   = controllers.GetItems svc (controllers.with_limit 10 req)
   /\ (forall svc' body,
         controllers.GetItems svc req = (svc', controllers.StatusOK body) ->
         Z.of_nat (List.length (PaginatedResponse.Items body)) <= 10)
   /\ (forall q,
         valid_FilterRequest (controllers.filters req) = true ->
         valid_SortRequest (controllers.sort req) = true ->
         gorm.conn_ok (db svc) = true ->
         with_cursor (Some ten)
           (gorm.mkQuery (filter_conds (Some (controllers.filters req)))
              (sort_order (Some (c7_sort (controllers.sort req)))) None)
         = Ok q ->
         forallb gorm.well_typed (gorm.conds q) = true ->
         exists svc' body,
           controllers.GetItems svc req = (svc', controllers.StatusOK body)
           /\ utils.GetItems svc (Some ten) (Some (controllers.filters req))
                (Some (c7_sort (controllers.sort req)))
              = (svc', Ok body)
           /\ Z.of_nat (List.length (PaginatedResponse.Items body))
              = Z.min 10
                  (Z.of_nat (List.length
                     (gorm.matching (gorm.conds q) (gorm.rows (db svc)))))
           /\ (PaginatedResponse.HasMore body = true
               <-> 10 < Z.of_nat (List.length
                           (gorm.matching (gorm.conds q)
                              (gorm.rows (db svc)))))))
  /\ (PaginationRequest.Limit (controllers.pagination req) < 0
      \/ 100 < PaginationRequest.Limit (controllers.pagination req) ->
      controllers.GetItems svc req
      = (svc, controllers.BadRequest "Invalid pagination parameters")).
Proof.
  split.
  - intros Hzero ten.
    assert (Hsame : controllers.GetItems svc req
                    = controllers.GetItems svc (controllers.with_limit 10 req)).
    { unfold controllers.GetItems, controllers.with_limit,
        valid_PaginationRequest.
      cbn [controllers.pagination controllers.filters controllers.sort
           PaginationRequest.Limit PaginationRequest.Cursor].
      rewrite Hzero. reflexivity. }
    split; [exact Hsame|].
    assert (Hhandler :
      valid_FilterRequest (controllers.filters req) = true ->
      valid_SortRequest (controllers.sort req) = true ->
      controllers.GetItems svc req
      = match utils.GetItems svc (Some ten) (Some (controllers.filters req))
                (Some (c7_sort (controllers.sort req))) with
        | (svc', Err e) =>
            (svc', controllers.InternalServerError "Failed to get items" e)
        | (svc', Ok body) => (svc', controllers.StatusOK body)
        end).
    { intros Hf Hs. unfold controllers.GetItems, valid_PaginationRequest.
      rewrite Hzero, Hf, Hs. reflexivity. }
    assert (Hshape : forall svc' body,
      utils.GetItems svc (Some ten) (Some (controllers.filters req))
        (Some (c7_sort (controllers.sort req))) = (svc', Ok body) ->
      exists q l,
        with_cursor (Some ten)
          (gorm.mkQuery (filter_conds (Some (controllers.filters req)))
             (sort_order (Some (c7_sort (controllers.sort req)))) None)
        = Ok q
        /\ List.length l
           = List.length (gorm.matching (gorm.conds q) (gorm.rows (db svc)))
        /\ PaginatedResponse.Items body = firstn 10 l
        /\ (PaginatedResponse.HasMore body = true
            <-> 10 < Z.of_nat (List.length l))).
    { intros svc' body Hrun.
      apply ServiceFacts.GetItems_Ok in Hrun
        as (q & l & Hq & _ & _ & Hl & Hresp).
      exists q, l. split; [exact Hq|].
      split; [exact (ServiceFacts.length_ordered _ _ _ _ Hl)|].
      cbv zeta in Hresp. change (page_limit (Some ten)) with 10 in Hresp.
      destruct (ServiceFacts.page_shape 10 l ltac:(split; [lia|reflexivity]))
        as (_ & Hmore & Hkept).
      cbv zeta in Hmore, Hkept. rewrite Hkept in Hresp. rewrite Hresp.
      cbn [PaginatedResponse.Items PaginatedResponse.HasMore].
      split; [reflexivity | exact Hmore]. }
    split.
    + intros svc' body. unfold controllers.GetItems.
      destruct (valid_PaginationRequest _); cbn [negb]; [|discriminate].
      destruct (valid_FilterRequest _) eqn:Hf; cbn [negb]; [|discriminate].
      destruct (valid_SortRequest _) eqn:Hs; cbn [negb]; [|discriminate].
      rewrite Hzero. change (0 =? 0) with true. cbv iota.
      fold ten. fold (c7_sort (controllers.sort req)).
      destruct (utils.GetItems svc _ _ _) as [s1 [resp|e]] eqn:Hrun;
        [|discriminate].
      intros [= <- <-].
      destruct (Hshape _ _ eq_refl) as (q & l & _ & _ & Hitems & _).
      rewrite Hitems, length_firstn. lia.
    + intros q Hf Hs Hconn Hq Hwt.
      destruct (ServiceFacts.GetItems_returns svc (Some ten)
                  (Some (controllers.filters req))
                  (Some (c7_sort (controllers.sort req))) q Hconn Hq Hwt
                  (c7_sort_column _ Hs)) as (svc' & body & Hrun).
      exists svc', body. rewrite (Hhandler Hf Hs), Hrun.
      split; [reflexivity|]. split; [reflexivity|].
      destruct (Hshape _ _ Hrun) as (q' & l & Hq' & Hlen & Hitems & Hmore).
      rewrite Hq in Hq'. injection Hq' as <-.
      rewrite <- Hlen. split; [|exact Hmore].
      rewrite Hitems, length_firstn. lia.
  - intros Hout.
    unfold controllers.GetItems, valid_PaginationRequest.
    destruct (Z.eqb_spec (PaginationRequest.Limit (controllers.pagination req)) 0);
      [lia|].
    destruct (Z.leb_spec 1 (PaginationRequest.Limit (controllers.pagination req)));
      destruct (Z.leb_spec (PaginationRequest.Limit (controllers.pagination req)) 100);
      try lia; reflexivity.
Qed.

Definition c7_request (limit : Z) : controllers.ListRequest :=
  controllers.mkListRequest (PaginationRequest.mk limit "")
    (FilterRequest.mk "" None None None) (SortRequest.mk "" "").

(** Twelve rows, so that a page of ten has more. *)
Definition c7_service : ItemService :=
  mkItemService
    (gorm.mkDB (List.map c1_item [1; 2; 3; 4; 5; 6; 7; 8; 9; 10; 11; 12])
       true [])
    (Some ∅).

Lemma C7_limit_default_and_bounds_witness :
  (exists svc' body,
     controllers.GetItems c7_service (c7_request 0)
     = (svc', controllers.StatusOK body)
     /\ Z.of_nat (List.length (PaginatedResponse.Items body)) = 10
     /\ PaginatedResponse.HasMore body = true)
  /\ controllers.GetItems c7_service (c7_request 101)
     = (c7_service, controllers.BadRequest "Invalid pagination parameters")
  /\ controllers.GetItems c7_service (c7_request (-1))
     = (c7_service, controllers.BadRequest "Invalid pagination parameters").
Proof.
  split; [|split].
  - destruct (C7_limit_default_and_bounds c7_service (c7_request 0))
      as [Hzero _].
    destruct (Hzero eq_refl) as (_ & _ & Hserved).
    destruct (Hserved _ eq_refl eq_refl eq_refl eq_refl eq_refl)
      as (svc' & body & Hrun & _ & Hsize & Hmore).
    exists svc', body. split; [exact Hrun|].
    split; [exact Hsize | apply Hmore; vm_compute; reflexivity].
  - apply (C7_limit_default_and_bounds c7_service (c7_request 101)).
    right. cbn. lia.
  - apply (C7_limit_default_and_bounds c7_service (c7_request (-1))).
    left. cbn. lia.
Defined.






(** C8.  Encoding a cursor and decoding the result gives the same pair:
    for every pair of valid UTF-8, and so for the cursor of every row,
    which is the text of its identifier and of its creation time, the only
    pairs that the service encodes. *)
Theorem C8_cursor_round_trip :
  (forall c,
     Utf8.ValidString (bytes_of_string (CursorData.ID c)) = true ->
     Utf8.ValidString (bytes_of_string (CursorData.CreatedAt c)) = true ->
     exists wire, encodeCursor c = Ok wire /\ decodeCursor wire = Ok c)
  /\ (forall lastItem : Item.t,
        let c := CursorData.mk (uuid.String (Item.ID lastItem))
                   (time.FormatRFC3339Nano (Item.CreatedAt lastItem)) in
        exists wire, encodeCursor c = Ok wire /\ decodeCursor wire = Ok c).
Proof.
  assert (Hvalid : forall c,
     Utf8.ValidString (bytes_of_string (CursorData.ID c)) = true ->
     Utf8.ValidString (bytes_of_string (CursorData.CreatedAt c)) = true ->
     exists wire, encodeCursor c = Ok wire /\ decodeCursor wire = Ok c).
  { intros c Hid Hts. eexists. split; [reflexivity|].
    now apply CursorFacts.decodeCursor_encode. }
  split; [exact Hvalid|].
  intros lastItem c. apply Hvalid; apply AsciiFacts.ValidString_ascii.
  - apply AsciiFacts.uuid_String_ascii.
  - apply AsciiFacts.FormatRFC3339Nano_ascii.
Qed.

Lemma C8_cursor_round_trip_witness :
  exists wire,
    encodeCursor
      (CursorData.mk "550e8400-e29b-41d4-a716-446655440000"
                     "2024-01-01T00:00:00.5Z") = Ok wire
    /\ decodeCursor wire
       = Ok (CursorData.mk "550e8400-e29b-41d4-a716-446655440000"
                           "2024-01-01T00:00:00.5Z").
Proof.
  apply (proj1 C8_cursor_round_trip
           (CursorData.mk "550e8400-e29b-41d4-a716-446655440000"
                          "2024-01-01T00:00:00.5Z")).
  - vm_compute. reflexivity.
  - vm_compute. reflexivity.
Defined.

End Claims.

(** ** Further properties of the service, the cursor and the limiter *)

Module Extras.
Import models utils.

(** A list changes neither the rows nor the cache: it only sends the count
    and, when the cursor decodes, the select. *)
Theorem GetItems_only_reads (s : ItemService)
  (pagination : option PaginationRequest.t)
  (filters : option FilterRequest.t) (sort : option SortRequest.t) :
  let s' := fst (GetItems s pagination filters sort) in
  gorm.rows (db s') = gorm.rows (db s)
  /\ cache s' = cache s
  /\ (gorm.log (db s') = gorm.log (db s) ++ [gorm.SelectCount]
      \/ gorm.log (db s')
         = gorm.log (db s) ++ [gorm.SelectCount; gorm.SelectRows]).
Proof.
  destruct (ListFacts.GetItems_state s pagination filters sort)
    as (Hrows & _ & Hcache & Hlog).
  cbv zeta. auto.
Qed.

(** The total of a list is the number of rows that are not deleted and
    pass the filters; the cursor, the limit and the order play no part
    in it. *)
Theorem GetItems_total (s : ItemService) (filters : option FilterRequest.t)
  (p1 p2 : option PaginationRequest.t) (so1 so2 : option SortRequest.t)
  (s1 s2 : ItemService) (r1 r2 : PaginatedResponse.t) :
  GetItems s p1 filters so1 = (s1, Ok r1) ->
  GetItems s p2 filters so2 = (s2, Ok r2) ->
  PaginatedResponse.Total r1
  = Z.of_nat (List.length
      (List.filter (fun it => gorm.live it
                              && gorm.satisfies (filter_conds filters) it)
                   (gorm.rows (db s))))
  /\ PaginatedResponse.Total r1 = PaginatedResponse.Total r2.
Proof.
  intros H1 H2.
  apply ServiceFacts.GetItems_Ok in H1 as (q1 & l1 & _ & _ & _ & _ & ->).
  apply ServiceFacts.GetItems_Ok in H2 as (q2 & l2 & _ & _ & _ & _ & ->).
  split; reflexivity.
Qed.

(** Every item of a page is a row of the table that is not deleted and
    passes every filter. *)
Theorem GetItems_items_match (s : ItemService)
  (pagination : option PaginationRequest.t)
  (filters : option FilterRequest.t) (sort : option SortRequest.t)
  (s' : ItemService) (resp : PaginatedResponse.t) (it : Item.t) :
  GetItems s pagination filters sort = (s', Ok resp) ->
  In it (PaginatedResponse.Items resp) ->
  In it (gorm.rows (db s))
  /\ Item.DeletedAt it = None
  /\ gorm.satisfies (filter_conds filters) it = true.
Proof.
  intros Hrun Hin.
  apply ListFacts.GetItems_items in Hrun as (q & l & n & Hq & Hl & Hitems).
  rewrite Hitems in Hin. apply ListFacts.In_firstn in Hin.
  unfold gorm.ordered in Hl.
  destruct (gorm.column_le _) as [le|]; [|discriminate].
  injection Hl as <-. apply ListFacts.sort_by_In in Hin.
  apply ListFacts.matching_In in Hin as (Hrow & Hlive & Hsat).
  apply ListFacts.with_cursor_filters in Hq as [extra Hq].
  cbn [gorm.conds] in Hq. rewrite Hq, ListFacts.satisfies_app in Hsat.
  apply andb_true_iff in Hsat as [Hsat _].
  repeat split; try assumption.
  unfold gorm.live in Hlive. now destruct (Item.DeletedAt it).
Qed.

(** A page is in the order that was asked for: each item is before or
    equal to the next one in the column of the sort, ascending unless the
    order is [desc]; with no sort the creation times do not increase. *)
Theorem GetItems_sorted (s : ItemService)
  (pagination : option PaginationRequest.t)
  (filters : option FilterRequest.t) (sort : option SortRequest.t)
  (s' : ItemService) (resp : PaginatedResponse.t) :
  GetItems s pagination filters sort = (s', Ok resp) ->
  (exists le,
     gorm.column_le (fst (sort_order sort)) = Some le
     /\ Sorted (fun a b =>
                  (if snd (sort_order sort) then le b a else le a b) = true)
               (PaginatedResponse.Items resp))
  /\ (sort = None ->
      Sorted (fun a b => Item.CreatedAt b <= Item.CreatedAt a)
             (PaginatedResponse.Items resp)).
Proof.
  intros Hrun.
  apply ListFacts.GetItems_items in Hrun as (q & l & n & Hq & Hl & Hitems).
  assert (Hgen : exists le,
             gorm.column_le (fst (sort_order sort)) = Some le
             /\ Sorted (fun a b =>
                  (if snd (sort_order sort) then le b a else le a b) = true)
                  (PaginatedResponse.Items resp)).
  { unfold gorm.ordered in Hl.
    destruct (gorm.column_le _) as [le|] eqn:Hle; [|discriminate].
    injection Hl as <-. exists le. split; [reflexivity|].
    rewrite Hitems. apply ListFacts.Sorted_firstn.
    pose proof (ListFacts.column_le_total _ _ Hle) as Htot.
    destruct (snd (sort_order sort)).
    - apply (ListFacts.sort_by_Sorted (fun a b => le b a)).
      now apply ListFacts.total_flip.
    - now apply ListFacts.sort_by_Sorted. }
  split; [exact Hgen|].
  intros ->. destruct Hgen as (le & Hle & Hs).
  cbn in Hle. injection Hle as <-. cbn [sort_order snd] in Hs.
  eapply Sorted_ind with (P := fun l => Sorted _ l); [| |exact Hs].
  - constructor.
  - intros a l0 _ IH Hhd. constructor; [exact IH|].
    destruct Hhd; constructor. now apply Z.leb_le.
Qed.

(** The position a cursor stands for: the text of the identifier and of
    the creation time of a row. *)
Definition position (it : Item.t) : CursorData.t :=
  CursorData.mk (uuid.String (Item.ID it))
                (time.FormatRFC3339Nano (Item.CreatedAt it)).

Lemma position_valid it :
  Utf8.ValidString (bytes_of_string (CursorData.ID (position it))) = true
  /\ Utf8.ValidString (bytes_of_string (CursorData.CreatedAt (position it)))
     = true.
Proof.
  split; apply AsciiFacts.ValidString_ascii.
  - apply AsciiFacts.uuid_String_ascii.
  - apply AsciiFacts.FormatRFC3339Nano_ascii.
Qed.

Lemma GetItems_more s pagination filters sort s' resp :
  GetItems s pagination filters sort = (s', Ok resp) ->
  PaginatedResponse.HasMore resp = true ->
  exists lastItem,
    last (PaginatedResponse.Items resp) = Some lastItem
    /\ PaginatedResponse.NextCursor resp
       = Base64.EncodeToString (Marshal (position lastItem)).
Proof.
  intros Hrun Hmore.
  apply ServiceFacts.GetItems_Ok in Hrun as (q & l & _ & _ & _ & _ & Hresp).
  cbv zeta in Hresp. rewrite Hresp in *.
  cbn [PaginatedResponse.HasMore PaginatedResponse.Items
       PaginatedResponse.NextCursor] in *.
  rewrite Hmore. apply Z.ltb_lt in Hmore.
  pose proof (AsciiFacts.page_limit_pos pagination) as Hpos.
  set (items := gorm.limited _ l) in *.
  destruct (last (firstn (Z.to_nat (page_limit pagination)) items))
    as [lastItem|] eqn:Hlast.
  - exists lastItem. split; [reflexivity|].
    unfold next_cursor. rewrite Hlast. reflexivity.
  - apply last_None in Hlast.
    apply (f_equal (@List.length _)) in Hlast.
    rewrite length_firstn in Hlast. cbn [List.length] in Hlast.
    exfalso. lia.
Qed.

(** The cursor of a page that has more decodes to the identifier and the
    creation time of the last item of the page, as the service writes
    them. *)
Theorem GetItems_cursor_is_last_item (s : ItemService)
  (pagination : option PaginationRequest.t)
  (filters : option FilterRequest.t) (sort : option SortRequest.t)
  (s' : ItemService) (resp : PaginatedResponse.t) :
  GetItems s pagination filters sort = (s', Ok resp) ->
  PaginatedResponse.HasMore resp = true ->
  exists lastItem,
    last (PaginatedResponse.Items resp) = Some lastItem
    /\ decodeCursor (PaginatedResponse.NextCursor resp)
       = Ok (CursorData.mk (uuid.String (Item.ID lastItem))
               (time.FormatRFC3339Nano (Item.CreatedAt lastItem))).
Proof.
  intros Hrun Hmore.
  destruct (GetItems_more _ _ _ _ _ _ Hrun Hmore) as (it & Hlast & Hcur).
  exists it. split; [exact Hlast|]. rewrite Hcur.
  destruct (position_valid it) as [Hid Hts].
  exact (CursorFacts.decodeCursor_encode (position it) Hid Hts).
Qed.

(** A page carries a cursor exactly when it says that there is more. *)
Theorem GetItems_cursor_iff_more (s : ItemService)
  (pagination : option PaginationRequest.t)
  (filters : option FilterRequest.t) (sort : option SortRequest.t)
  (s' : ItemService) (resp : PaginatedResponse.t) :
  GetItems s pagination filters sort = (s', Ok resp) ->
  PaginatedResponse.NextCursor resp <> ""%string
  <-> PaginatedResponse.HasMore resp = true.
Proof.
  intros Hrun. split.
  - intros Hcur. destruct (PaginatedResponse.HasMore resp) eqn:Hmore;
      [reflexivity|]. exfalso. apply Hcur.
    apply ServiceFacts.GetItems_Ok in Hrun
      as (q & l & _ & _ & _ & _ & Hresp).
    cbv zeta in Hresp. rewrite Hresp in *.
    cbn [PaginatedResponse.HasMore PaginatedResponse.NextCursor] in *.
    rewrite Hmore. reflexivity.
  - intros Hmore.
    destruct (GetItems_more _ _ _ _ _ _ Hrun Hmore) as (it & _ & ->).
    apply AsciiFacts.EncodeToString_nonempty.
    pose proof (CursorFacts.Marshal_length (position it)).
    destruct (Marshal (position it)); [cbn in *; lia | discriminate].
Qed.

(** Two cursor values of valid UTF-8 that encode to the same cursor are
    the same value. *)
Theorem encodeCursor_injective (c1 c2 : CursorData.t) :
  Utf8.ValidString (bytes_of_string (CursorData.ID c1)) = true ->
  Utf8.ValidString (bytes_of_string (CursorData.CreatedAt c1)) = true ->
  Utf8.ValidString (bytes_of_string (CursorData.ID c2)) = true ->
  Utf8.ValidString (bytes_of_string (CursorData.CreatedAt c2)) = true ->
  encodeCursor c1 = encodeCursor c2 -> c1 = c2.
Proof.
  intros H1 H1' H2 H2' Heq.
  pose proof (CursorFacts.decodeCursor_encode c1 H1 H1') as D1.
  pose proof (CursorFacts.decodeCursor_encode c2 H2 H2') as D2.
  unfold encodeCursor in Heq.
  remember (Base64.EncodeToString (Marshal c1)) as w1.
  remember (Base64.EncodeToString (Marshal c2)) as w2.
  injection Heq as ->. congruence.
Qed.

(** A cursor whose length, line breaks apart, is not a multiple of four
    is refused as corrupt input. *)
Theorem decodeCursor_length (cursor : string) :
  (List.length (Base64.strip_newlines (bytes_of_string cursor)) mod 4
   <> 0)%nat ->
  decodeCursor cursor = Err CorruptInputError.
Proof.
  intros Hlen. unfold decodeCursor, Base64.DecodeString.
  destruct (Base64.decode_quanta _) as [out|] eqn:Hdec; [|reflexivity].
  apply AsciiFacts.decode_quanta_length in Hdec. contradiction.
Qed.

(** After a delete that succeeds, a read of the same identifier at any
    later time finds nothing. *)
Theorem DeleteItem_then_GetItem (s : ItemService) (id : string)
  (now : time.Time) (s' : ItemService) (u : unit) :
  DeleteItem s id now = (s', Ok u) ->
  forall now', snd (GetItem s' id now') = Err ItemNotFound.
Proof.
  unfold DeleteItem.
  destruct (gorm.Delete id now (db s)) as [d [n|e]] eqn:Hdel; [|discriminate].
  destruct (n =? 0); [discriminate|]. intros [= <- _] now'.
  destruct (ServiceFacts.invalidateCache_cleared (with_db d s)) as [_ Hread].
  destruct (Hread [] id now') as [_ Hstore].
  rewrite ServiceFacts.processItems_nil in Hstore. rewrite Hstore.
  apply CrudFacts.Delete_Ok in Hdel as (v & Hv & _ & Hc & Hrows & _).
  unfold ServiceFacts.read_store.
  assert (Hdb : db (invalidateCache (with_db d s)) = d).
  { unfold invalidateCache, with_db. cbn. now destruct (cache s). }
  rewrite Hdb, (CrudFacts.First_find id d v Hc Hv), Hrows.
  now rewrite CrudFacts.find_marked.
Qed.

(** A delete of an identifier that no live row has is answered with
    not-found and changes nothing: the rows are as they were and the cache
    is not cleared. *)
Theorem DeleteItem_missing (s : ItemService) (id : string)
  (now : time.Time) (u : uuid.UUID) :
  gorm.conn_ok (db s) = true ->
  uuid.Parse id = Some u ->
  (forall it, In it (gorm.rows (db s)) ->
              Item.DeletedAt it = None -> Item.ID it <> u) ->
  snd (DeleteItem s id now) = Err ItemNotFound
  /\ gorm.rows (db (fst (DeleteItem s id now))) = gorm.rows (db s)
  /\ cache (fst (DeleteItem s id now)) = cache s.
Proof.
  intros Hc Hu Hnone.
  assert (Hf : List.filter (CrudFacts.hit u) (gorm.rows (db s)) = []).
  { induction (gorm.rows (db s)) as [|it l IH]; [reflexivity|].
    cbn [List.filter].
    destruct (CrudFacts.hit u it) eqn:Hit.
    - exfalso. unfold CrudFacts.hit, gorm.live in Hit.
      apply andb_true_iff in Hit as [Hl He]. apply Z.eqb_eq in He.
      apply (Hnone it); [now left| |exact He].
      now destruct (Item.DeletedAt it).
    - apply IH. intros it' Hin. apply Hnone. now right. }
  unfold DeleteItem, gorm.Delete.
  cbn [gorm.conn_ok gorm.issue gorm.rows]. rewrite Hc, Hu. cbn [negb].
  fold (CrudFacts.hit u). rewrite Hf. cbn [List.length Z.of_nat Z.eqb].
  cbn [fst snd with_db db cache gorm.rows gorm.with_rows gorm.issue].
  split; [reflexivity|]. split; [|reflexivity].
  change (fun it => CrudFacts.hit u it) with (CrudFacts.hit u).
  exact (CrudFacts.filter_none_map u now _ Hf).
Qed.


(** A delete that succeeds removes no row from the table: the rows are the
    same rows in the same places, and the only change is the deletion time
    of the live rows of that identifier, after which no live row has it. *)
Theorem DeleteItem_is_soft (s : ItemService) (id : string)
  (now : time.Time) (s' : ItemService) (u : unit) :
  DeleteItem s id now = (s', Ok u) ->
  exists v,
    uuid.Parse id = Some v
    /\ Forall2
         (fun old new =>
            Item.ID new = Item.ID old /\ Item.Name new = Item.Name old
            /\ Item.Stock new = Item.Stock old
            /\ Item.Price new = Item.Price old
            /\ Item.CreatedAt new = Item.CreatedAt old
            /\ Item.UpdatedAt new = Item.UpdatedAt old
            /\ (if CrudFacts.hit v old
                then Item.DeletedAt new = Some now
                else Item.DeletedAt new = Item.DeletedAt old))
         (gorm.rows (db s)) (gorm.rows (db s'))
    /\ (forall it, In it (gorm.rows (db s')) ->
                   Item.ID it = v -> Item.DeletedAt it <> None).
Proof.
  unfold DeleteItem.
  destruct (gorm.Delete id now (db s)) as [d [n|e]] eqn:Hdel; [|discriminate].
  destruct (n =? 0); [discriminate|]. intros [= <- _].
  apply CrudFacts.Delete_Ok in Hdel as (v & Hv & _ & _ & Hrows & _).
  assert (Hdb : db (invalidateCache (with_db d s)) = d).
  { unfold invalidateCache, with_db. cbn. now destruct (cache s). }
  rewrite Hdb, Hrows. exists v. split; [exact Hv|]. split.
  - clear Hrows. induction (gorm.rows (db s)) as [|it l IH];
      cbn [List.map]; [constructor|].
    constructor; [|exact IH].
    destruct (CrudFacts.hit v it); cbn; repeat split; reflexivity.
  - intros it Hin Hid. apply in_map_iff in Hin as (old & <- & _).
    destruct (CrudFacts.hit v old) eqn:Hit; [discriminate|].
    unfold CrudFacts.hit, gorm.live in Hit. cbn in Hid.
    apply Z.eqb_eq in Hid. rewrite Hid, andb_true_r in Hit.
    destruct (Item.DeletedAt old); [discriminate|discriminate Hit].
Qed.

(** *** Create *)

Lemma Create_Ok it now new_id d d' out :
  gorm.Create it now new_id d = (d', Ok out) ->
  gorm.conn_ok d' = true
  /\ gorm.rows d' = gorm.rows d ++ [out]
  /\ (forall r, In r (gorm.rows d) -> Item.ID r <> Item.ID out)
  /\ out = Item.mk (if Item.ID it =? uuid.Nil then new_id else Item.ID it)
             (Item.Name it) (Item.Stock it) (Item.Price it)
             (if gorm.IsZero (Item.CreatedAt it) then now
              else Item.CreatedAt it)
             (if gorm.IsZero (Item.UpdatedAt it) then now
              else Item.UpdatedAt it)
             (Item.DeletedAt it).
Proof.
  unfold gorm.Create. cbn [gorm.conn_ok gorm.issue gorm.rows].
  destruct (gorm.conn_ok d) eqn:Hc; cbn [negb]; [|discriminate].
  destruct (existsb _ (gorm.rows d)) eqn:Hex; [discriminate|].
  intros [= <- <-]. cbn. rewrite Hc. repeat split; try reflexivity.
  intros r Hr Hid. apply not_true_iff_false in Hex. apply Hex.
  apply existsb_exists. exists r. split; [exact Hr|].
  apply Z.eqb_eq. exact Hid.
Qed.

Lemma find_app_new u (l : list Item.t) out :
  (forall r, In r l -> Item.ID r <> u) ->
  CrudFacts.hit u out = true ->
  List.find (CrudFacts.hit u) (l ++ [out]) = Some out.
Proof.
  intros Hfresh Hout. induction l as [|r l IH]; cbn [app List.find].
  - now rewrite Hout.
  - assert (CrudFacts.hit u r = false) as ->.
    { unfold CrudFacts.hit. apply andb_false_iff. right.
      apply Z.eqb_neq. apply Hfresh. now left. }
    apply IH. intros r' Hr'. apply Hfresh. now right.
Qed.

(** A create that succeeds returns the row it stored: the name, stock and
    price of the request, the new identifier, and both time stamps at the
    time of the call; the row is added after the rows that were there; and
    a read of the identifier at any later time returns that row. *)
Theorem CreateItem_then_GetItem (s : ItemService)
  (req : CreateItemRequest.t) (now : time.Time) (new_id : uuid.UUID)
  (s' : ItemService) (item : Item.t) :
  0 < new_id < 2 ^ 128 ->
  CreateItem s req now new_id = (s', Ok item) ->
  item = Item.mk new_id (CreateItemRequest.Name req)
           (CreateItemRequest.Stock req) (CreateItemRequest.Price req)
           now now None
  /\ gorm.rows (db s') = gorm.rows (db s) ++ [item]
  /\ forall now', snd (GetItem s' (uuid.String new_id) now') = Ok item.
Proof.
  intros Hid. unfold CreateItem.
  destruct (gorm.Create _ now new_id (db s)) as [d [out|e]] eqn:Hcr;
    [|discriminate].
  intros [= <- <-].
  apply Create_Ok in Hcr as (Hc & Hrows & Hfresh & Hout).
  cbn [Item.ID Item.Name Item.Stock Item.Price Item.CreatedAt Item.UpdatedAt
       Item.DeletedAt] in Hout.
  change (gorm.IsZero time.zero) with true in Hout.
  change (uuid.Nil =? uuid.Nil) with true in Hout. cbv iota in Hout.
  assert (Hdb : db (invalidateCache (with_db d s)) = d).
  { unfold invalidateCache, with_db. cbn. now destruct (cache s). }
  rewrite Hdb. split; [exact Hout|]. split; [exact Hrows|].
  intros now'.
  destruct (ServiceFacts.invalidateCache_cleared (with_db d s)) as [_ Hread].
  destruct (Hread [] (uuid.String new_id) now') as [_ Hstore].
  rewrite ServiceFacts.processItems_nil in Hstore. rewrite Hstore.
  unfold ServiceFacts.read_store. rewrite Hdb.
  rewrite (CrudFacts.First_find _ d new_id Hc)
    by (apply UuidFacts.Parse_String; lia).
  rewrite Hrows, (find_app_new new_id (gorm.rows (db s)) out);
    [reflexivity| |].
  - intros r Hr. rewrite Hout in Hfresh. cbn [Item.ID] in Hfresh.
    now apply Hfresh.
  - rewrite Hout. unfold CrudFacts.hit, gorm.live. cbn.
    now rewrite Z.eqb_refl.
Qed.

(** A create that fails leaves the rows and the cache as they were. *)
Theorem CreateItem_failure (s : ItemService) (req : CreateItemRequest.t)
  (now : time.Time) (new_id : uuid.UUID) (s' : ItemService) (e : error) :
  CreateItem s req now new_id = (s', Err e) ->
  gorm.rows (db s') = gorm.rows (db s) /\ cache s' = cache s
  /\ exists cause, e = FailedToCreate cause.
Proof.
  unfold CreateItem, gorm.Create.
  cbn [gorm.conn_ok gorm.issue gorm.rows].
  destruct (gorm.conn_ok (db s)); cbn [negb].
  - destruct (existsb _ _); intros [= <- <-]; cbn; eauto.
  - intros [= <- <-]; cbn; eauto.
Qed.

(** *** Update *)

Lemma db_invalidateCache d s : db (invalidateCache (with_db d s)) = d.
Proof. unfold invalidateCache, with_db. cbn. now destruct (cache s). Qed.

Lemma cache_with_db d s : cache (with_db d s) = cache s.
Proof. reflexivity. Qed.

(** An update of an identifier that no live row has is answered with
    not-found and changes neither the rows nor the cache. *)
Theorem UpdateItem_missing (s : ItemService) (id : string)
  (req : UpdateItemRequest.t) (now : time.Time) (u : uuid.UUID) :
  gorm.conn_ok (db s) = true ->
  uuid.Parse id = Some u ->
  (forall it, In it (gorm.rows (db s)) ->
              Item.DeletedAt it = None -> Item.ID it <> u) ->
  snd (UpdateItem s id req now) = Err ItemNotFound
  /\ gorm.rows (db (fst (UpdateItem s id req now))) = gorm.rows (db s)
  /\ cache (fst (UpdateItem s id req now)) = cache s.
Proof.
  intros Hc Hu Hnone.
  assert (Hf : List.find (CrudFacts.hit u) (gorm.rows (db s)) = None).
  { destruct (List.find _ _) as [it|] eqn:Hfind; [|reflexivity].
    apply List.find_some in Hfind as [Hin Hit].
    unfold CrudFacts.hit, gorm.live in Hit.
    apply andb_true_iff in Hit as [Hl He]. apply Z.eqb_eq in He.
    exfalso. apply (Hnone it Hin); [|exact He].
    now destruct (Item.DeletedAt it). }
  unfold UpdateItem, gorm.First.
  cbn [gorm.conn_ok gorm.issue gorm.rows]. rewrite Hc, Hu. cbn [negb].
  fold (CrudFacts.hit u).
  change (fun it => CrudFacts.hit u it) with (CrudFacts.hit u).
  unfold CrudFacts.hit in Hf |- *. rewrite Hf. cbn. auto.
Qed.

Lemma Forall2_map_self {A} (f : A -> A) (l : list A) :
  Forall2 (fun old new => new = f old) l (List.map f l).
Proof. induction l; cbn [List.map]; constructor; auto. Qed.

(** An update that succeeds changes the rows of the updated identifier
    and no other row: every other row stays where it was, as it was. *)
Theorem UpdateItem_frame (s : ItemService) (id : string)
  (req : UpdateItemRequest.t) (now : time.Time)
  (s' : ItemService) (item : Item.t) :
  UpdateItem s id req now = (s', Ok item) ->
  Forall2 (fun old new =>
             new = if Item.ID old =? Item.ID item then item else old)
          (gorm.rows (db s)) (gorm.rows (db s')).
Proof.
  unfold UpdateItem.
  destruct (gorm.First id (db s)) as [d [item0|e]] eqn:Hfirst;
    [|destruct e; discriminate].
  assert (Hf : snd (gorm.First id (db s)) = Ok item0) by now rewrite Hfirst.
  apply ServiceFacts.First_Ok in Hf as (Hc & Hin & Hfirst').
  rewrite Hfirst in Hfirst'. injection Hfirst' as ->.
  unfold gorm.Save. cbn [gorm.conn_ok gorm.issue gorm.rows].
  rewrite Hc. cbn [negb].
  assert (Hex : existsb
            (fun r => Item.ID r =? Item.ID (gorm.touch now (patch item0 req)))
            (gorm.rows (db s)) = true).
  { apply existsb_exists. exists item0. split; [exact Hin|].
    apply Z.eqb_eq. destruct req as [[?|] [?|] [?|]]; reflexivity. }
  rewrite Hex. intros [= <- <-]. rewrite db_invalidateCache.
  cbn [gorm.rows gorm.with_rows].
  apply Forall2_map_self.
Qed.

(** *** The primary key *)

(** No two rows have the same identifier. *)
Definition unique_ids (s : ItemService) : Prop :=
  NoDup (List.map Item.ID (gorm.rows (db s))).

Lemma map_ID_replace (it : Item.t) (l : list Item.t) :
  List.map Item.ID
    (List.map (fun r => if Item.ID r =? Item.ID it then it else r) l)
  = List.map Item.ID l.
Proof.
  induction l as [|r l IH]; [reflexivity|]. cbn [List.map]. rewrite IH.
  destruct (Z.eqb_spec (Item.ID r) (Item.ID it)) as [->|]; reflexivity.
Qed.

Lemma map_ID_mark u now (l : list Item.t) :
  List.map Item.ID
    (List.map (fun it => if CrudFacts.hit u it then CrudFacts.mark now it
                         else it) l)
  = List.map Item.ID l.
Proof.
  induction l as [|r l IH]; [reflexivity|]. cbn [List.map]. rewrite IH.
  destruct (CrudFacts.hit u r); reflexivity.
Qed.

Lemma NoDup_snoc (l : list Item.t) (it : Item.t) :
  NoDup (List.map Item.ID l) ->
  existsb (fun r => Item.ID r =? Item.ID it) l = false ->
  NoDup (List.map Item.ID (l ++ [it])).
Proof.
  intros Hnd Hex. rewrite map_app. cbn [List.map].
  apply NoDup_app. split; [exact Hnd|]. split; [|repeat constructor; intros H; inversion H].
  intros x Hx Hx'. apply list_elem_of_In in Hx, Hx'.
  destruct Hx' as [<-|[]].
  apply in_map_iff in Hx as (r & Hid & Hr).
  apply not_true_iff_false in Hex. apply Hex.
  apply existsb_exists. exists r. split; [exact Hr|]. now apply Z.eqb_eq.
Qed.

Lemma Save_unique it now d :
  NoDup (List.map Item.ID (gorm.rows d)) ->
  NoDup (List.map Item.ID (gorm.rows (fst (gorm.Save it now d)))).
Proof.
  intros Hnd. unfold gorm.Save. cbn [gorm.conn_ok gorm.issue gorm.rows].
  destruct (gorm.conn_ok d); cbn [negb]; [|exact Hnd].
  destruct (existsb _ (gorm.rows d)) eqn:Hex; cbn [fst gorm.rows gorm.with_rows].
  - now rewrite map_ID_replace.
  - now apply NoDup_snoc.
Qed.

(** Every operation of the service keeps the identifiers of the rows
    distinct. *)
Theorem service_keeps_unique_ids (s : ItemService) :
  unique_ids s ->
  (forall req now new_id, unique_ids (fst (CreateItem s req now new_id)))
  /\ (forall id now, unique_ids (fst (GetItem s id now)))
  /\ (forall id req now, unique_ids (fst (UpdateItem s id req now)))
  /\ (forall id now, unique_ids (fst (DeleteItem s id now)))
  /\ (forall pagination filters sort,
        unique_ids (fst (GetItems s pagination filters sort))).
Proof.
  unfold unique_ids. intros Hnd. repeat apply conj.
  - intros req now new_id. unfold CreateItem, gorm.Create.
    cbn [gorm.conn_ok gorm.issue gorm.rows].
    destruct (gorm.conn_ok (db s)); cbn [negb]; [|exact Hnd].
    destruct (existsb _ (gorm.rows (db s))) eqn:Hex; [exact Hnd|].
    cbn [fst]. rewrite db_invalidateCache. cbn [gorm.rows gorm.with_rows].
    now apply NoDup_snoc.
  - intros id now. unfold GetItem.
    destruct (getFromCache s id now); [exact Hnd|].
    unfold gorm.First. cbn [gorm.conn_ok gorm.issue gorm.rows].
    destruct (gorm.conn_ok (db s)); cbn [negb]; [|exact Hnd].
    destruct (uuid.Parse id); [|exact Hnd].
    destruct (List.find _ _); [|exact Hnd].
    cbn [fst]. unfold setCache. cbn [cache with_db db].
    destruct (cache s); exact Hnd.
  - intros id req now. unfold UpdateItem.
    destruct (gorm.First id (db s)) as [d [item0|e]] eqn:Hfirst.
    + assert (Hd : gorm.rows d = gorm.rows (db s)).
      { unfold gorm.First in Hfirst.
        cbn [gorm.conn_ok gorm.issue gorm.rows] in Hfirst.
        destruct (gorm.conn_ok (db s)); cbn [negb] in Hfirst;
          [|discriminate].
        destruct (uuid.Parse id); [|discriminate].
        destruct (List.find _ _); [|discriminate].
        now injection Hfirst as <- _. }
      pose proof (Save_unique (patch item0 req) now d) as Hs.
      rewrite Hd in Hs. specialize (Hs Hnd).
      destruct (gorm.Save _ now d) as [d' [it'|e']]; cbn [fst] in *.
      * now rewrite db_invalidateCache.
      * exact Hs.
    + assert (Hd : gorm.rows d = gorm.rows (db s)).
      { unfold gorm.First in Hfirst.
        cbn [gorm.conn_ok gorm.issue gorm.rows] in Hfirst.
        destruct (gorm.conn_ok (db s)); cbn [negb] in Hfirst;
          [|now injection Hfirst as <- _].
        destruct (uuid.Parse id); [|now injection Hfirst as <- _].
        destruct (List.find _ _); now injection Hfirst as <- _. }
      destruct e; cbn [fst with_db db]; now rewrite Hd.
  - intros id now. unfold DeleteItem, gorm.Delete.
    cbn [gorm.conn_ok gorm.issue gorm.rows].
    destruct (gorm.conn_ok (db s)); cbn [negb]; [|exact Hnd].
    destruct (uuid.Parse id) as [u|]; [|exact Hnd].
    fold (CrudFacts.hit u).
    destruct (_ =? 0); cbn [fst]; rewrite ?db_invalidateCache;
      cbn [with_db db gorm.rows gorm.with_rows];
      change (fun it => CrudFacts.hit u it) with (CrudFacts.hit u);
      now rewrite (map_ID_mark u now).
  - intros pagination filters sort.
    destruct (ListFacts.GetItems_state s pagination filters sort)
      as (Hrows & _). cbv zeta in Hrows. now rewrite Hrows.
Qed.

(** *** The read cache *)

Lemma lookup_evicted (ks : list string) :
  forall (m : gmap string ristretto.entry) k,
  List.fold_left (fun m k => delete k m) ks m !! k
  = if bool_decide (k ∈ ks) then None else m !! k.
Proof.
  induction ks as [|x ks IH]; intros m k; cbn [List.fold_left].
  - case_bool_decide as Hin; [|reflexivity]. now apply elem_of_nil in Hin.
  - rewrite IH. case_bool_decide as H1; case_bool_decide as H2;
      rewrite elem_of_cons in H2.
    + reflexivity.
    + tauto.
    + destruct H2 as [->|H2]; [apply lookup_delete_eq | tauto].
    + apply lookup_delete_ne. intros ->. tauto.
Qed.

(** A read that misses the cache and finds the row does not put it in the
    cache: for a key that is new to the cache, it puts the row, with an
    expiry of five minutes, on the channel of the cache, and the reads that
    come before the goroutine of the cache has taken it still miss.  When
    the goroutine has taken it and the policy has admitted it, a read of
    the identifier returns the same item and sends nothing to the store
    until five minutes after the first read, and misses again after that;
    when the policy has refused it, the reads miss. *)
Theorem GetItem_caches_for_five_minutes (s : ItemService) (id : string)
  (now : time.Time) (c : ristretto.Cache)
  (s1 : ItemService) (item : Item.t) :
  cache s = Some c ->
  ristretto.storedItems c !! id = None ->
  ristretto.setBuf c = [] ->
  GetItem s id now = (s1, Ok item) ->
  cache s1
  = Some (ristretto.mkCache (ristretto.storedItems c)
            [ristretto.mkItem ristretto.itemNew id
               (ristretto.mkEntry item (Some (now + 5 * time.Minute)))])
  /\ (forall now', getFromCache s1 id now' = None)
  /\ (forall v,
        ristretto.added v = true -> ~ In id (ristretto.victims v) ->
        let s2 := processItems [ristretto.Process v] s1 in
        (forall now', now' <= now + 5 * time.Minute ->
           GetItem s2 id now' = (s2, Ok item))
        /\ (forall now', now + 5 * time.Minute < now' ->
              getFromCache s2 id now' = None))
  /\ (forall v now',
        ristretto.added v = false ->
        getFromCache (processItems [ristretto.Process v] s1) id now' = None).
Proof.
  intros Hcache Hnew Hbuf. unfold GetItem.
  assert (Hmiss : getFromCache s id now = None).
  { unfold getFromCache, ristretto.Get. now rewrite Hcache, Hnew. }
  rewrite Hmiss.
  destruct (gorm.First id (db s)) as [d [it|e]]; [|destruct e; discriminate].
  intros [= <- <-]. unfold setCache. cbn [cache with_db db].
  rewrite Hcache. unfold ristretto.SetWithTTL.
  change (5 * time.Minute <? 0) with false.
  change (5 * time.Minute =? 0) with false. cbv iota.
  rewrite Hnew. unfold ristretto.send. rewrite Hbuf.
  change (Z.of_nat (List.length []) <? ristretto.setBufSize) with true.
  cbv iota. cbn [fst app cache].
  split; [reflexivity|].
  split.
  { intros now'. unfold getFromCache, ristretto.Get. cbn [cache].
    cbn [ristretto.storedItems]. now rewrite Hnew. }
  split.
  - intros v Hadd Hkept. cbv zeta.
    unfold processItems, ristretto.processItems. cbn [cache db List.fold_left].
    unfold ristretto.processItem.
    cbn [ristretto.setBuf ristretto.flag ristretto.Key ristretto.Entry
         ristretto.storedItems].
    rewrite Hadd.
    assert (Hlook :
      List.fold_left (fun m k => delete k m) (ristretto.victims v)
        (<[id := ristretto.mkEntry it (Some (now + 5 * time.Minute))]>
           (ristretto.storedItems c)) !! id
      = Some (ristretto.mkEntry it (Some (now + 5 * time.Minute)))).
    { rewrite lookup_evicted.
      rewrite bool_decide_eq_false_2
        by (intros Hin; apply Hkept; now apply list_elem_of_In).
      apply lookup_insert_eq. }
    split; intros now' Hnow'.
    + unfold GetItem, getFromCache, ristretto.Get.
      cbn [cache ristretto.storedItems]. rewrite Hlook.
      cbn [ristretto.expiration ristretto.value].
      destruct (Z.ltb_spec (now + 5 * time.Minute) now'); [lia|reflexivity].
    + unfold getFromCache, ristretto.Get.
      cbn [cache ristretto.storedItems]. rewrite Hlook.
      cbn [ristretto.expiration ristretto.value].
      destruct (Z.ltb_spec (now + 5 * time.Minute) now'); [reflexivity|lia].
  - intros v now' Hrej.
    unfold processItems, ristretto.processItems. cbn [cache db List.fold_left].
    unfold ristretto.processItem.
    cbn [ristretto.setBuf ristretto.flag ristretto.Key ristretto.Entry
         ristretto.storedItems].
    rewrite Hrej. unfold getFromCache, ristretto.Get.
    cbn [cache ristretto.storedItems]. rewrite lookup_evicted, Hnew.
    now destruct (bool_decide _).
Qed.

(** A read that fails stores nothing in the cache. *)
Theorem GetItem_failure_caches_nothing (s : ItemService) (id : string)
  (now : time.Time) (s1 : ItemService) (e : error) :
  GetItem s id now = (s1, Err e) ->
  cache s1 = cache s /\ gorm.rows (db s1) = gorm.rows (db s).
Proof.
  unfold GetItem. destruct (getFromCache s id now); [discriminate|].
  unfold gorm.First. cbn [gorm.conn_ok gorm.issue gorm.rows].
  destruct (gorm.conn_ok (db s)); cbn [negb].
  - destruct (uuid.Parse id); [|intros [= <- _]; split; reflexivity].
    destruct (List.find _ _); [discriminate|].
    intros [= <- _]; split; reflexivity.
  - intros [= <- _]; split; reflexivity.
Qed.

(** *** The limiter *)

Lemma Allow_config rl key now :
  rate_ (fst (Allow rl key now)) = rate_ rl
  /\ burst (fst (Allow rl key now)) = burst rl.
Proof.
  unfold Allow, GetLimiter.
  destruct (limiters rl !! key); destruct (rate.Allow _ now); split;
    reflexivity.
Qed.

Lemma Allow_other rl key now key' :
  key <> key' ->
  limiters (fst (Allow rl key now)) !! key' = limiters rl !! key'.
Proof.
  intros Hne. unfold Allow, GetLimiter.
  destruct (limiters rl !! key); destruct (rate.Allow _ now); cbn;
    rewrite ?lookup_insert_ne by exact Hne; reflexivity.
Qed.

Lemma run_other maxAge es : forall rl key,
  ~ In key (requested es) ->
  limiters (run maxAge rl es) !! key = limiters rl !! key
  /\ rate_ (run maxAge rl es) = rate_ rl
  /\ burst (run maxAge rl es) = burst rl.
Proof.
  induction es as [|e es IH]; intros rl key Hout; [repeat split|].
  unfold run in *. cbn [List.fold_left].
  destruct e as [k now|]; cbn [step requested] in *.
  - destruct (IH (fst (Allow rl k now)) key) as (H1 & H2 & H3);
      [intros H; apply Hout; now right|].
    rewrite H1, H2, H3.
    destruct (Allow_config rl k now) as [-> ->].
    rewrite Allow_other by (intros ->; apply Hout; now left).
    repeat split.
  - rewrite RateLimiterFacts.sweep_id. now apply IH.
Qed.

(** The verdict for a key depends on the requests of that key alone:
    requests of other keys and ticks of the cleanup, in any number and
    order, leave its bucket and the verdict of its next check as they
    were. *)
Theorem Allow_keys_are_independent (maxAge : Z) (rl : RateLimiter)
  (es : list event) (key : string) (now : time.Time) :
  ~ In key (requested es) ->
  limiters (run maxAge rl es) !! key = limiters rl !! key
  /\ snd (Allow (run maxAge rl es) key now) = snd (Allow rl key now).
Proof.
  intros Hout. destruct (run_other maxAge es rl key Hout) as (H1 & H2 & H3).
  split; [exact H1|].
  unfold Allow, GetLimiter. rewrite H1, H2, H3.
  destruct (limiters rl !! key); destruct (rate.Allow _ now); reflexivity.
Qed.

(** *** The seed *)

(** The row that a turn of the seed stores. *)
Definition seeded (t : seed.turn) : Item.t :=
  match nth_error seed.sampleItems (seed.index t) with
  | Some item =>
      Item.mk (seed.new_id t) (Item.Name item) (Item.Stock item)
              (Item.Price item) (seed.clock t) (seed.clock t) None
  | None => seed.sample "" 0 0
  end.

Lemma Count_all d :
  gorm.conn_ok d = true ->
  gorm.Count (gorm.mkQuery [] ("id"%string, false) None) d
  = (gorm.issue gorm.SelectCount d,
     Ok (Z.of_nat (List.length (List.filter gorm.live (gorm.rows d))))).
Proof.
  intros Hc. unfold gorm.Count.
  cbn [gorm.conn_ok gorm.issue gorm.conds gorm.rows forallb].
  rewrite Hc. cbn [negb]. unfold gorm.matching, gorm.satisfies.
  cbn [forallb]. do 3 f_equal. f_equal. apply filter_ext. intros it.
  apply andb_true_r.
Qed.

(** On a table that holds a live row the seed does nothing but count: the
    rows and the cache are as they were, whatever the schedule is. *)
Theorem SeedDatabase_on_rows (s : ItemService) (schedule : list seed.turn)
  (it : Item.t) :
  gorm.conn_ok (db s) = true ->
  In it (gorm.rows (db s)) ->
  Item.DeletedAt it = None ->
  seed.SeedDatabase s schedule
  = (with_db (gorm.issue gorm.SelectCount (db s)) s, Ok tt).
Proof.
  intros Hc Hin Hlive. unfold seed.SeedDatabase. rewrite (Count_all _ Hc).
  assert (Hpos : (0 < List.length (List.filter gorm.live (gorm.rows (db s))))%nat).
  { assert (Hf : In it (List.filter gorm.live (gorm.rows (db s)))).
    { apply filter_In. split; [exact Hin|]. unfold gorm.live.
      now rewrite Hlive. }
    destruct (List.filter gorm.live (gorm.rows (db s)));
      [contradiction|cbn; lia]. }
  destruct (Z.ltb_spec 0 (Z.of_nat (List.length
              (List.filter gorm.live (gorm.rows (db s)))))); [reflexivity|lia].
Qed.

Lemma fold_insert schedule : forall d,
  gorm.conn_ok d = true ->
  (forall t, In t schedule -> (seed.index t < 10)%nat) ->
  NoDup (List.map seed.new_id schedule) ->
  (forall t r, In t schedule -> In r (gorm.rows d) ->
               Item.ID r <> seed.new_id t) ->
  exists d',
    List.fold_left seed.insert schedule (d, []) = (d', [])
    /\ gorm.rows d' = gorm.rows d ++ List.map seeded schedule.
Proof.
  induction schedule as [|t sched IH]; intros d Hc Hidx Hnd Hfresh.
  - exists d. split; [reflexivity|]. cbn. now rewrite app_nil_r.
  - cbn [List.fold_left]. unfold seed.insert at 2.
    pose proof (Hidx t (or_introl eq_refl)) as Hi.
    destruct (nth_error seed.sampleItems (seed.index t)) as [item|] eqn:Hnth.
    2:{ apply nth_error_None in Hnth. cbn in Hnth. lia. }
    assert (Hnil : Item.ID item = uuid.Nil).
    { apply nth_error_In in Hnth. cbn in Hnth.
      repeat (destruct Hnth as [<-|Hnth]; [reflexivity|]). destruct Hnth. }
    assert (Hz1 : Item.CreatedAt item = time.zero
                  /\ Item.UpdatedAt item = time.zero
                  /\ Item.DeletedAt item = None).
    { apply nth_error_In in Hnth. cbn in Hnth.
      repeat (destruct Hnth as [<-|Hnth]; [repeat split|]). destruct Hnth. }
    destruct Hz1 as (Hz1 & Hz2 & Hz3).
    unfold gorm.Create. cbn [gorm.conn_ok gorm.issue gorm.rows].
    rewrite Hc, Hnil, Hz1, Hz2, Hz3. cbn [negb].
    change (uuid.Nil =? uuid.Nil) with true.
    change (gorm.IsZero time.zero) with true. cbv iota.
    cbn [Item.ID].
    assert (Hex : existsb (fun r => Item.ID r =? seed.new_id t) (gorm.rows d)
                  = false).
    { apply not_true_iff_false. intros Hex.
      apply existsb_exists in Hex as (r & Hr & Hid). apply Z.eqb_eq in Hid.
      now apply (Hfresh t r (or_introl eq_refl) Hr). }
    rewrite Hex.
    inversion Hnd as [|x l Hnotin Hnd']; subst.
    destruct (IH (gorm.with_rows
                    (gorm.rows d ++
                     [Item.mk (seed.new_id t) (Item.Name item)
                        (Item.Stock item) (Item.Price item) (seed.clock t)
                        (seed.clock t) None])
                    (gorm.issue gorm.Insert d)))
      as (d' & Hfold & Hrows).
    + cbn. exact Hc.
    + intros t' Ht'. apply Hidx. now right.
    + exact Hnd'.
    + cbn [gorm.rows gorm.with_rows]. intros t' r Ht' Hr.
      apply in_app_or in Hr as [Hr|[<-|[]]].
      * apply (Hfresh t' r); [now right|exact Hr].
      * cbn [Item.ID]. intros Heq. apply Hnotin. rewrite Heq.
        apply list_elem_of_In, in_map. exact Ht'.
    + exists d'. split; [exact Hfold|]. rewrite Hrows.
      cbn [gorm.rows gorm.with_rows List.map].
      rewrite <- app_assoc. cbn [app]. unfold seeded at 2. rewrite Hnth.
      reflexivity.
Qed.

(** On a table without a live row the seed stores the ten sample items
    once each, after the rows that were there, whatever the order of the
    ten inserts is, when the identifiers it is given are new and distinct;
    the cache is not touched. *)
Theorem SeedDatabase_on_empty (s : ItemService) (schedule : list seed.turn) :
  gorm.conn_ok (db s) = true ->
  (forall it, In it (gorm.rows (db s)) -> Item.DeletedAt it <> None) ->
  Permutation (List.map seed.index schedule) (seq 0 10) ->
  NoDup (List.map seed.new_id schedule) ->
  (forall t r, In t schedule -> In r (gorm.rows (db s)) ->
               Item.ID r <> seed.new_id t) ->
  exists s',
    seed.SeedDatabase s schedule = (s', Ok tt)
    /\ gorm.rows (db s') = gorm.rows (db s) ++ List.map seeded schedule
    /\ cache s' = cache s
    /\ Permutation (List.map Item.Name (List.map seeded schedule))
                   (List.map Item.Name seed.sampleItems).
Proof.
  intros Hc Hdead Hperm Hnd Hfresh.
  unfold seed.SeedDatabase. rewrite (Count_all _ Hc).
  assert (Hnone : List.filter gorm.live (gorm.rows (db s)) = []).
  { revert Hdead. generalize (gorm.rows (db s)).
    induction l as [|it l IH]; intros Hdead; [reflexivity|].
    cbn [List.filter]. unfold gorm.live at 1.
    destruct (Item.DeletedAt it) eqn:Hd.
    - apply IH. intros it' Hin. apply Hdead. now right.
    - exfalso. apply (Hdead it); [now left|exact Hd]. }
  rewrite Hnone. cbn [List.length Z.of_nat Z.ltb Z.compare].
  assert (Hidx : forall t, In t schedule -> (seed.index t < 10)%nat).
  { intros t Ht.
    assert (Hin : In (seed.index t) (seq 0 10)).
    { eapply Permutation_in; [exact Hperm|]. now apply in_map. }
    apply in_seq in Hin. lia. }
  destruct (fold_insert schedule (gorm.issue gorm.SelectCount (db s)))
    as (d' & Hfold & Hrows); try assumption.
  rewrite Hfold. eexists. split; [reflexivity|].
  cbn [db with_db cache]. split; [exact Hrows|]. split; [reflexivity|].
  rewrite map_map.
  assert (Hname : forall t, In t schedule ->
            Item.Name (seeded t)
            = nth (seed.index t) (List.map Item.Name seed.sampleItems)
                  ""%string).
  { intros t Ht. specialize (Hidx t Ht). unfold seeded.
    destruct (nth_error seed.sampleItems (seed.index t)) as [item|] eqn:Hnth.
    - cbn [Item.Name]. symmetry.
      rewrite (nth_indep _ ""%string (Item.Name (seed.sample "" 0 0)))
        by (cbn; lia).
      rewrite map_nth. f_equal. apply nth_error_nth. exact Hnth.
    - apply nth_error_None in Hnth. cbn in Hnth. lia. }
  rewrite (map_ext_in _ _ _ Hname).
  rewrite <- (map_map seed.index
                (fun i => nth i (List.map Item.Name seed.sampleItems)
                              ""%string)).
  rewrite (Permutation_map _ Hperm). reflexivity.
Qed.

(** When the store does not answer, the failure of the count is not
    looked at: every insert of the schedule is still sent, and the seed
    returns an error of a failed insert. *)
Theorem SeedDatabase_store_down (s : ItemService) (schedule : list seed.turn) :
  gorm.conn_ok (db s) = false ->
  schedule <> [] ->
  (forall t', In t' schedule -> (seed.index t' < 10)%nat) ->
  exists name s',
    seed.SeedDatabase s schedule
    = (s', Err (seed.FailedToCreateItem name gorm.ErrConnection))
    /\ gorm.rows (db s') = gorm.rows (db s)
    /\ gorm.log (db s')
       = gorm.log (db s) ++ gorm.SelectCount
         :: List.map (fun _ => gorm.Insert) schedule.
Proof.
  intros Hc Hne Hidx.
  destruct schedule as [|t rest]; [now destruct Hne|]. clear Hne.
  unfold seed.SeedDatabase, gorm.Count.
  cbn [gorm.conn_ok gorm.issue]. rewrite Hc. cbn [negb Z.ltb Z.compare].
  assert (Hfold : forall sched d errs,
            gorm.conn_ok d = false ->
            (forall t', In t' sched -> (seed.index t' < 10)%nat) ->
            exists d' more,
              List.fold_left seed.insert sched (d, errs) = (d', errs ++ more)
              /\ gorm.rows d' = gorm.rows d
              /\ gorm.log d'
                 = gorm.log d ++ List.map (fun _ => gorm.Insert) sched
              /\ List.length more = List.length sched
              /\ Forall (fun e => exists name,
                           e = seed.FailedToCreateItem name gorm.ErrConnection)
                        more).
  { induction sched as [|t' sched IH]; intros d errs Hd Hi.
    - exists d, []. rewrite !app_nil_r. repeat split. constructor.
    - cbn [List.fold_left]. unfold seed.insert at 2.
      destruct (nth_error seed.sampleItems (seed.index t')) as [item|] eqn:Hn.
      2:{ apply nth_error_None in Hn. specialize (Hi t' (or_introl eq_refl)).
          cbn in Hn. lia. }
      unfold gorm.Create. cbn [gorm.conn_ok gorm.issue]. rewrite Hd.
      cbn [negb].
      destruct (IH (gorm.issue gorm.Insert d)
                  (errs ++ [seed.FailedToCreateItem (Item.Name item)
                              gorm.ErrConnection]))
        as (d' & more & Hf & Hr & Hl & Hlen & Hall);
        [exact Hd | intros t'' Ht''; apply Hi; now right |].
      exists d', (seed.FailedToCreateItem (Item.Name item) gorm.ErrConnection
                  :: more).
      split; [rewrite Hf; now rewrite <- app_assoc|].
      split; [exact Hr|]. split.
      { rewrite Hl. cbn [gorm.log gorm.issue List.map].
        now rewrite <- app_assoc. }
      split; [cbn; now rewrite Hlen|].
      constructor; [eauto|exact Hall]. }
  destruct (Hfold (t :: rest) (gorm.issue gorm.SelectCount (db s)) [])
    as (d' & more & Hf & Hr & Hl & Hlen & Hall); [exact Hc|exact Hidx|].
  rewrite Hf. cbn [app].
  destruct more as [|e more]; [discriminate Hlen|].
  inversion Hall as [|? ? [name ->] _]; subst.
  exists name. eexists. split; [reflexivity|].
  cbn [db with_db]. split; [exact Hr|].
  rewrite Hl. cbn [gorm.log gorm.issue]. now rewrite <- app_assoc.
Qed.

(** *** Pages after a cursor *)

(** Every item of a page that was asked with a cursor lies before the
    position of the cursor: it is older than the time of the cursor, or
    of the same time with a smaller identifier.  The row of the cursor and
    the rows after it are never returned again. *)
Theorem GetItems_after_cursor (s : ItemService) (p : PaginationRequest.t)
  (filters : option FilterRequest.t) (sort : option SortRequest.t)
  (s' : ItemService) (resp : PaginatedResponse.t)
  (c : CursorData.t) (ts : time.Time) (u : uuid.UUID) (it : Item.t) :
  PaginationRequest.Cursor p <> ""%string ->
  decodeCursor (PaginationRequest.Cursor p) = Ok c ->
  time.ParseRFC3339 (CursorData.CreatedAt c) = Some ts ->
  uuid.Parse (CursorData.ID c) = Some u ->
  GetItems s (Some p) filters sort = (s', Ok resp) ->
  In it (PaginatedResponse.Items resp) ->
  Item.CreatedAt it < ts \/ (Item.CreatedAt it = ts /\ Item.ID it < u).
Proof.
  intros Hne Hdec Hts Hu Hrun Hin.
  apply ListFacts.GetItems_items in Hrun as (q & l & n & Hq & Hl & Hitems).
  rewrite Hitems in Hin. apply ListFacts.In_firstn in Hin.
  unfold gorm.ordered in Hl.
  destruct (gorm.column_le _) as [le|]; [|discriminate].
  injection Hl as <-. apply ListFacts.sort_by_In in Hin.
  apply ListFacts.matching_In in Hin as (Hrow & Hlive & Hsat).
  unfold with_cursor in Hq. cbn [cursor_of] in Hq.
  destruct (String.eqb_spec (PaginationRequest.Cursor p) "");
    [contradiction|].
  rewrite Hdec in Hq. injection Hq as <-.
  unfold gorm.Where in Hsat. cbn [gorm.conds] in Hsat.
  rewrite ListFacts.satisfies_app in Hsat.
  apply andb_true_iff in Hsat as [_ Hsat].
  unfold gorm.satisfies in Hsat. cbn [forallb gorm.holds] in Hsat.
  rewrite Hts, Hu, andb_true_r in Hsat.
  apply orb_true_iff in Hsat as [H|H].
  - left. lia.
  - apply andb_true_iff in H as [H1 H2]. right. lia.
Qed.

(** *** The middleware *)

Lemma handler_config l ip now :
  rate_ (fst (middleware.handler l ip now)) = rate_ l
  /\ burst (fst (middleware.handler l ip now)) = burst l.
Proof.
  unfold middleware.handler, Allow, GetLimiter.
  destruct (limiters l !! ip); destruct (rate.Allow _ now) as [lim' []];
    now cbn.
Qed.

Lemma handler_other l ip now key :
  ip <> key ->
  limiters (fst (middleware.handler l ip now)) !! key = limiters l !! key.
Proof.
  intros Hne. unfold middleware.handler, Allow, GetLimiter.
  destruct (limiters l !! ip); destruct (rate.Allow _ now) as [lim' []];
    cbn; now rewrite ?lookup_insert_ne by exact Hne.
Qed.

(** The requests of one client among the requests. *)
Definition requests_of (clientIP : string)
  (requests : list (string * time.Time)) : list (string * time.Time) :=
  List.filter (fun q => String.eqb (fst q) clientIP) requests.

Lemma serve_burst (r b : Z) (key : string) requests : forall l,
  1 <= r <= 2 ^ 53 -> 1 <= b <= 9000000000 ->
  rate_ l = float64.of_int r -> burst l = b ->
  (forall q, In q requests -> fst q = key -> 0 <= snd q) ->
  match limiters l !! key with
  | None => Z.of_nat (List.length (requests_of key requests)) <= b
  | Some lim =>
      rate.limit lim = float64.of_int r /\ rate.burst lim = b
      /\ exists j, Z.of_nat (List.length (requests_of key requests)) <= j
                   /\ j <= b /\ j * float64.scale <= rate.tokens lim
  end ->
  Forall2 (fun q out => fst q = key -> out = middleware.Next)
          requests (snd (middleware.serve l requests)).
Proof.
  induction requests as [|[ip now] rest IH];
    intros l Hr Hb Hrl Hbl Htimes Hinv.
  - constructor.
  - cbn [middleware.serve].
    pose proof (handler_config l ip now) as [Hc1 Hc2].
    pose proof (handler_other l ip now key) as Hother.
    pose proof LimiterFacts.scale_pos as Hs.
    assert (H53 : 2 ^ 53 = 9007199254740992) by reflexivity.
    assert (Hfr : float64.of_int r = r * float64.scale)
      by (apply LimiterFacts.of_int_whole; lia).
    assert (Hrest : forall q, In q rest -> fst q = key -> 0 <= snd q)
      by (intros q Hq; apply Htimes; now right).
    destruct (String.eqb_spec ip key) as [->|Hne].
    + assert (Hstep : snd (middleware.handler l key now) = middleware.Next
               /\ exists lim',
                    limiters (fst (middleware.handler l key now)) !! key
                    = Some lim'
                    /\ rate.limit lim' = float64.of_int r
                    /\ rate.burst lim' = b
                    /\ exists j,
                         Z.of_nat (List.length (requests_of key rest)) <= j
                         /\ j <= b /\ j * float64.scale <= rate.tokens lim').
      { unfold requests_of in Hinv. cbn [List.filter fst] in Hinv.
        rewrite String.eqb_refl in Hinv. cbn [List.length] in Hinv.
        fold (requests_of key rest) in Hinv.
        unfold middleware.handler, Allow, GetLimiter.
        destruct (limiters l !! key) as [lim|] eqn:Hk.
        - destruct Hinv as (Hl1 & Hl2 & j & Hcount & Hj & Htokens).
          assert (Hpos : 0 < rate.limit lim) by (rewrite Hl1, Hfr; nia).
          assert (Hj1 : 1 <= j <= rate.burst lim) by lia.
          assert (Hb53 : rate.burst lim <= 2 ^ 53) by lia.
          destruct (LimiterFacts.Allow_admits j lim now Hj1 Hb53 Hpos Htokens)
            as (tokens & Hallow & Hleft).
          rewrite Hallow. cbn [negb fst snd limiters].
          split; [reflexivity|]. eexists. rewrite lookup_insert_eq.
          split; [reflexivity|]. cbn [rate.limit rate.burst rate.tokens].
          split; [exact Hl1|]. split; [exact Hl2|].
          exists (j - 1). lia.
        - rewrite Hrl, Hbl.
          assert (Hnow : 0 <= now)
            by (apply (Htimes (key, now)); [now left|reflexivity]).
          rewrite (LimiterFacts.Allow_NewLimiter r b now Hr Hb Hnow).
          cbn [negb fst snd limiters].
          split; [reflexivity|]. eexists. rewrite lookup_insert_eq.
          split; [reflexivity|]. cbn [rate.limit rate.burst rate.tokens].
          split; [reflexivity|]. split; [reflexivity|].
          exists (b - 1). lia. }
      destruct Hstep as (Hout & lim' & Hk' & Hl1 & Hl2 & Hleft).
      destruct (middleware.handler l key now) as [l1 out] eqn:Hh.
      cbn [fst snd] in *.
      specialize (IH l1 Hr Hb (eq_trans Hc1 Hrl) (eq_trans Hc2 Hbl) Hrest).
      rewrite Hk' in IH.
      destruct (middleware.serve l1 rest) as [l2 outs]. cbn [snd] in *.
      constructor; [intros _; exact Hout|]. apply IH. tauto.
    + specialize (Hother Hne).
      destruct (middleware.handler l ip now) as [l1 out] eqn:Hh.
      cbn [fst snd] in *.
      specialize (IH l1 Hr Hb (eq_trans Hc1 Hrl) (eq_trans Hc2 Hbl) Hrest).
      rewrite Hother in IH.
      destruct (middleware.serve l1 rest) as [l2 outs]. cbn [snd] in *.
      constructor; [intros Heq; cbn in Heq; contradiction|]. apply IH.
      unfold requests_of in Hinv. cbn [List.filter fst] in Hinv.
      apply String.eqb_neq in Hne. rewrite Hne in Hinv. exact Hinv.
Qed.

(** The first requests of a client, as many as the burst, all pass the
    middleware, whatever their times are and whatever the other clients
    send in between. *)
Theorem RateLimitMiddleware_burst_passes
  (requestsPerSecond burst : Z) (requests : list (string * time.Time))
  (clientIP : string) :
  1 <= requestsPerSecond <= 2 ^ 53 ->
  1 <= burst <= 9000000000 ->
  (forall q, In q requests -> fst q = clientIP -> 0 <= snd q) ->
  Z.of_nat (List.length (requests_of clientIP requests)) <= burst ->
  Forall2 (fun q out => fst q = clientIP -> out = middleware.Next)
          requests
          (middleware.RateLimitMiddleware requestsPerSecond burst requests).
Proof.
  intros Hr Hb Htimes Hcount. unfold middleware.RateLimitMiddleware.
  apply (serve_burst requestsPerSecond burst clientIP);
    try assumption; try reflexivity.
Qed.

Lemma Allow_refusal lim now lim' :
  rate.Allow lim now = (lim', false) -> lim' = lim.
Proof.
  unfold rate.Allow.
  repeat match goal with
         | |- context [if ?c then _ else _] => destruct c
         end; intros [= <-]; reflexivity || discriminate.
Qed.

(** A request that is refused is answered with status 429 and costs the
    client nothing: the bucket of a client that has one, and every other
    bucket, is as it was before the request. *)
Theorem handler_refusal_is_free (limiter : RateLimiter) (clientIP : string)
  (now : time.Time) (lim : rate.Limiter)
  (limiter' : RateLimiter) (out : middleware.outcome) :
  limiters limiter !! clientIP = Some lim ->
  middleware.handler limiter clientIP now = (limiter', out) ->
  out <> middleware.Next ->
  limiter' = limiter
  /\ exists h, out = middleware.AbortJSON 429 h
               /\ In ("code"%string, middleware.Number 429) h.
Proof.
  intros Hk Hh Hout. unfold middleware.handler, Allow, GetLimiter in Hh.
  rewrite Hk in Hh.
  destruct (rate.Allow lim now) as [lim' [|]] eqn:Hallow.
  - cbn in Hh. injection Hh as _ <-. now destruct Hout.
  - apply Allow_refusal in Hallow as ->.
    cbn in Hh. injection Hh as <- <-. split.
    + rewrite insert_id by exact Hk. now destruct limiter.
    + eexists. split; [reflexivity|]. cbn. auto.
Qed.

(** *** From one page to the next *)

(** The default order: the newest row first. *)
Definition newest_first (a b : Item.t) : bool :=
  Item.CreatedAt b <=? Item.CreatedAt a.

Lemma default_order l :
  gorm.ordered (fst (sort_order None)) (snd (sort_order None)) l
  = Some (gorm.sort_by newest_first l).
Proof. reflexivity. Qed.

Lemma insert_by_Permutation le x l :
  Permutation (gorm.insert_by le x l) (x :: l).
Proof.
  induction l as [|y l IH]; [reflexivity|]. cbn [gorm.insert_by].
  destruct (le x y); [reflexivity|].
  rewrite IH. apply perm_swap.
Qed.

Lemma sort_by_Permutation le l : Permutation (gorm.sort_by le l) l.
Proof.
  induction l as [|x l IH]; [reflexivity|].
  change (gorm.sort_by le (x :: l))
    with (gorm.insert_by le x (gorm.sort_by le l)).
  now rewrite insert_by_Permutation, IH.
Qed.

Lemma NoDup_map_filter {A B} (f : A -> B) (P : A -> bool) (l : list A) :
  NoDup (List.map f l) -> NoDup (List.map f (List.filter P l)).
Proof.
  induction l as [|x l IH]; intros Hnd; [exact Hnd|].
  cbn [List.map] in Hnd. apply NoDup_cons in Hnd as [Hx Hnd].
  cbn [List.filter]. destruct (P x); [|now apply IH].
  cbn [List.map]. apply NoDup_cons. split; [|now apply IH].
  intros Hin. apply Hx. apply list_elem_of_In in Hin.
  apply in_map_iff in Hin as (y & Hy & Hin). apply filter_In in Hin as [Hin _].
  apply list_elem_of_In, in_map_iff. now exists y.
Qed.

Lemma NoDup_map_inj {A B} (f : A -> B) (l : list A) a b :
  NoDup (List.map f l) -> In a l -> In b l -> f a = f b -> a = b.
Proof.
  induction l as [|x l IH]; intros Hnd Ha Hb Hf; [destruct Ha|].
  cbn [List.map] in Hnd. apply NoDup_cons in Hnd as [Hx Hnd].
  destruct Ha as [->|Ha], Hb as [->|Hb].
  - reflexivity.
  - exfalso. apply Hx. rewrite Hf. now apply list_elem_of_In, in_map.
  - exfalso. apply Hx. rewrite <- Hf. now apply list_elem_of_In, in_map.
  - now apply IH.
Qed.

Lemma NoDup_map_apart {A B} (f : A -> B) (l1 l2 : list A) a b :
  NoDup (List.map f (l1 ++ l2)) -> In a l1 -> In b l2 -> f a <> f b.
Proof.
  rewrite map_app. intros Hnd Ha Hb Hf.
  apply NoDup_app in Hnd as (_ & Hapart & _).
  apply (Hapart (f a)).
  - now apply list_elem_of_In, in_map.
  - rewrite Hf. now apply list_elem_of_In, in_map.
Qed.

Lemma newest_first_apart l1 l2 a b :
  Sorted (fun a b => newest_first a b = true) (l1 ++ l2) ->
  In a l1 -> In b l2 -> Item.CreatedAt b <= Item.CreatedAt a.
Proof.
  intros Hs Ha Hb. apply Sorted_StronglySorted in Hs.
  2:{ intros x y z Hxy Hyz. unfold newest_first in *.
      apply Z.leb_le in Hxy, Hyz. apply Z.leb_le. lia. }
  induction l1 as [|x l1 IH]; [destruct Ha|].
  cbn [app] in Hs. apply StronglySorted_inv in Hs as [Hs Hall].
  destruct Ha as [->|Ha]; [|now apply IH].
  rewrite List.Forall_forall in Hall.
  apply Z.leb_le. apply (Hall b). apply in_or_app. now right.
Qed.

Lemma newest_first_total : ListFacts.total newest_first.
Proof.
  intros a b. unfold newest_first.
  destruct (Z.le_ge_cases (Item.CreatedAt a) (Item.CreatedAt b));
    [right|left]; now apply Z.leb_le.
Qed.

(** The query of the request that carries the cursor of a row. *)
Lemma with_cursor_position lastItem limit q :
  TimeFacts.in_layout (Item.CreatedAt lastItem) ->
  0 <= Item.ID lastItem < 2 ^ 128 ->
  with_cursor
    (Some (PaginationRequest.mk limit
             (Base64.EncodeToString (Marshal (position lastItem))))) q
  = Ok (gorm.Where
          (gorm.After (time.FormatRFC3339Nano (Item.CreatedAt lastItem))
                      (uuid.String (Item.ID lastItem))) q)
  /\ forall it,
       gorm.holds
         (gorm.After (time.FormatRFC3339Nano (Item.CreatedAt lastItem))
                     (uuid.String (Item.ID lastItem))) it
       = Some ((Item.CreatedAt it <? Item.CreatedAt lastItem)
               || ((Item.CreatedAt it =? Item.CreatedAt lastItem)
                   && (Item.ID it <? Item.ID lastItem))).
Proof.
  intros Hts Hid. split.
  - unfold with_cursor. cbn [cursor_of PaginationRequest.Cursor].
    destruct (String.eqb_spec
                (Base64.EncodeToString (Marshal (position lastItem))) "")
      as [Hempty|_].
    + exfalso. revert Hempty. apply AsciiFacts.EncodeToString_nonempty.
      pose proof (CursorFacts.Marshal_length (position lastItem)).
      destruct (Marshal (position lastItem)); [cbn in *; lia | discriminate].
    + destruct (position_valid lastItem) as [Hv1 Hv2].
      rewrite (CursorFacts.decodeCursor_encode (position lastItem) Hv1 Hv2).
      reflexivity.
  - intros it. cbn [gorm.holds].
    rewrite (TimeFacts.ParseRFC3339_Format _ Hts).
    rewrite (UuidFacts.Parse_String _ Hid). reflexivity.
Qed.

(** With creation times that are all different, the page that is asked
    with the cursor of a page goes on where that page ended, in the default
    order: it holds only rows that are older than every row of the page
    before, and a row of the table that is older than the last row of the
    page before, is not deleted and passes the filters, is on it, or is
    older than its last row when it has more. *)
Theorem GetItems_next_page_continues (s : ItemService)
  (p : option PaginationRequest.t) (filters : option FilterRequest.t)
  (s1 : ItemService) (r1 : PaginatedResponse.t)
  (s' : ItemService) (limit : Z)
  (s2 : ItemService) (r2 : PaginatedResponse.t) :
  NoDup (List.map Item.CreatedAt (gorm.rows (db s))) ->
  (forall it, In it (gorm.rows (db s)) ->
     TimeFacts.in_layout (Item.CreatedAt it) /\ 0 <= Item.ID it < 2 ^ 128) ->
  GetItems s p filters None = (s1, Ok r1) ->
  PaginatedResponse.HasMore r1 = true ->
  gorm.rows (db s') = gorm.rows (db s) ->
  limit < 2 ^ 62 ->
  GetItems s' (Some (PaginationRequest.mk limit
                       (PaginatedResponse.NextCursor r1))) filters None
  = (s2, Ok r2) ->
  exists last1,
    last (PaginatedResponse.Items r1) = Some last1
    /\ (forall a b,
          In a (PaginatedResponse.Items r1) ->
          In b (PaginatedResponse.Items r2) ->
          Item.CreatedAt b < Item.CreatedAt a)
    /\ (forall it,
          In it (gorm.rows (db s)) ->
          Item.DeletedAt it = None ->
          gorm.satisfies (filter_conds filters) it = true ->
          Item.CreatedAt it < Item.CreatedAt last1 ->
          In it (PaginatedResponse.Items r2)
          \/ (PaginatedResponse.HasMore r2 = true
              /\ exists last2,
                   last (PaginatedResponse.Items r2) = Some last2
                   /\ Item.CreatedAt it < Item.CreatedAt last2)).
Proof.
  intros Hnd Hrows Hrun1 Hmore1 Hsame Hlimit Hrun2.
  destruct (GetItems_more _ _ _ _ _ _ Hrun1 Hmore1) as (last1 & Hlast1 & Hcur).
  exists last1. split; [exact Hlast1|].
  (* the first page *)
  apply ListFacts.GetItems_items in Hrun1
    as (q1 & l1 & n1 & _ & Hl1 & Hitems1).
  rewrite default_order in Hl1. injection Hl1 as <-.
  set (l1 := gorm.sort_by newest_first
               (gorm.matching (gorm.conds q1) (gorm.rows (db s)))) in *.
  assert (Hsorted1 : Sorted (fun a b => newest_first a b = true)
                            (PaginatedResponse.Items r1)).
  { rewrite Hitems1. apply ListFacts.Sorted_firstn.
    apply ListFacts.sort_by_Sorted, newest_first_total. }
  assert (Hin1 : forall a, In a (PaginatedResponse.Items r1) ->
                           In a (gorm.rows (db s))).
  { intros a Ha. rewrite Hitems1 in Ha. apply ListFacts.In_firstn in Ha.
    apply ListFacts.sort_by_In, ListFacts.matching_In in Ha. tauto. }
  apply last_Some in Hlast1 as [pre1 Hpre1].
  assert (Hlast1in : In last1 (gorm.rows (db s))).
  { apply Hin1. rewrite Hpre1. apply in_or_app. right. now left. }
  assert (Hleast : forall a, In a (PaginatedResponse.Items r1) ->
                             Item.CreatedAt last1 <= Item.CreatedAt a).
  { intros a Ha. rewrite Hpre1 in Ha, Hsorted1.
    apply in_app_or in Ha as [Ha|[<-|[]]]; [|lia].
    apply (newest_first_apart pre1 [last1]); [exact Hsorted1|exact Ha|].
    now left. }
  destruct (Hrows last1 Hlast1in) as [Hts Hid].
  (* the second page *)
  rewrite Hcur in Hrun2.
  apply ServiceFacts.GetItems_Ok in Hrun2
    as (q2 & l2 & Hq2 & _ & _ & Hl2 & Hresp).
  destruct (with_cursor_position last1 limit
              (gorm.mkQuery (filter_conds filters) (sort_order None) None)
              Hts Hid) as [Hq Hholds].
  rewrite Hq in Hq2. injection Hq2 as <-.
  rewrite default_order in Hl2. injection Hl2 as <-.
  cbn [gorm.Where gorm.conds] in Hresp. rewrite Hsame in Hresp.
  set (after := gorm.After (time.FormatRFC3339Nano (Item.CreatedAt last1))
                           (uuid.String (Item.ID last1))) in *.
  set (l2 := gorm.sort_by newest_first
               (gorm.matching (filter_conds filters ++ [after])
                  (gorm.rows (db s)))) in *.
  set (p2 := Some (PaginationRequest.mk limit
                     (Base64.EncodeToString (Marshal (position last1))))) in *.
  pose proof (AsciiFacts.page_limit_pos p2) as Hpos.
  assert (Hup : page_limit p2 < 2 ^ 62).
  { unfold p2, page_limit. cbn [PaginationRequest.Limit].
    destruct (0 <? limit); lia. }
  pose proof (ServiceFacts.page_shape (page_limit p2) l2 (conj Hpos Hup))
    as Hshape.
  cbv zeta in Hshape, Hresp. destruct Hshape as (_ & Hmore2 & Hkept).
  rewrite Hkept in Hresp.
  assert (Hitems2 : PaginatedResponse.Items r2
                    = firstn (Z.to_nat (page_limit p2)) l2)
    by (rewrite Hresp; reflexivity).
  assert (Hhas2 : PaginatedResponse.HasMore r2 = true
                  <-> page_limit p2 < Z.of_nat (List.length l2))
    by (rewrite Hresp; exact Hmore2).
  clear Hresp Hmore2 Hkept.
  assert (Hmember : forall it,
            In it l2 <->
            In it (gorm.rows (db s)) /\ Item.DeletedAt it = None
            /\ gorm.satisfies (filter_conds filters) it = true
            /\ (Item.CreatedAt it < Item.CreatedAt last1
                \/ (Item.CreatedAt it = Item.CreatedAt last1
                    /\ Item.ID it < Item.ID last1))).
  { intros it. unfold l2.
    rewrite ListFacts.sort_by_In, ListFacts.matching_In,
      ListFacts.satisfies_app.
    unfold gorm.satisfies at 2. cbn [forallb]. rewrite Hholds, andb_true_r.
    unfold gorm.live. rewrite andb_true_iff, orb_true_iff, andb_true_iff.
    rewrite Z.ltb_lt, Z.eqb_eq, Z.ltb_lt.
    destruct (Item.DeletedAt it); intuition congruence. }
  assert (Hsorted2 : Sorted (fun a b => newest_first a b = true) l2)
    by apply ListFacts.sort_by_Sorted, newest_first_total.
  assert (Hnd2 : NoDup (List.map Item.CreatedAt l2)).
  { unfold l2. rewrite (Permutation_map _ (sort_by_Permutation _ _)).
    unfold gorm.matching. now apply NoDup_map_filter. }
  split.
  - intros a b Ha Hb. rewrite Hitems2 in Hb. apply ListFacts.In_firstn in Hb.
    apply Hmember in Hb as (Hbrow & _ & _ & [Hlt|[Heq Hidlt]]).
    + specialize (Hleast a Ha). lia.
    + exfalso.
      pose proof (NoDup_map_inj _ _ _ _ Hnd Hbrow Hlast1in Heq) as ->. lia.
  - intros it Hrow Hlive Hsat Hold.
    assert (Hit : In it l2) by (apply Hmember; tauto).
    rewrite <- (firstn_skipn (Z.to_nat (page_limit p2)) l2) in Hit.
    apply in_app_or in Hit as [Hit|Hit]; [left; now rewrite Hitems2|].
    right.
    assert (Hlen : (Z.to_nat (page_limit p2) < List.length l2)%nat).
    { destruct (Nat.lt_ge_cases (Z.to_nat (page_limit p2)) (List.length l2))
        as [Hlt|Hge]; [exact Hlt|].
      rewrite skipn_all2 in Hit by exact Hge. destruct Hit. }
    split; [apply Hhas2; lia|].
    destruct (last (firstn (Z.to_nat (page_limit p2)) l2)) as [last2|]
      eqn:Hlast2.
    2:{ apply last_None in Hlast2.
        apply (f_equal (@List.length _)) in Hlast2.
        rewrite length_firstn in Hlast2. cbn [List.length] in Hlast2.
        exfalso. lia. }
    exists last2. rewrite Hitems2. split; [exact Hlast2|].
    apply last_Some in Hlast2 as [pre2 Hpre2].
    assert (Hl2in : In last2 (firstn (Z.to_nat (page_limit p2)) l2))
      by (rewrite Hpre2; apply in_or_app; right; now left).
    rewrite <- (firstn_skipn (Z.to_nat (page_limit p2)) l2) in Hsorted2, Hnd2.
    pose proof (newest_first_apart _ _ _ _ Hsorted2 Hl2in Hit) as Hle.
    pose proof (NoDup_map_apart _ _ _ _ _ Hnd2 Hl2in Hit) as Hne.
    lia.
Qed.

(** A cursor that the service has given out is taken back: the request
    that carries it, with any limit, filters and sort the store knows, is
    answered with a page when the store answers. *)
Theorem GetItems_next_cursor_is_accepted (s : ItemService)
  (p : option PaginationRequest.t) (filters : option FilterRequest.t)
  (sort : option SortRequest.t)
  (s1 : ItemService) (r1 : PaginatedResponse.t)
  (s' : ItemService) (limit : Z)
  (filters' : option FilterRequest.t) (sort' : option SortRequest.t) :
  (forall it, In it (gorm.rows (db s)) ->
     TimeFacts.in_layout (Item.CreatedAt it) /\ 0 <= Item.ID it < 2 ^ 128) ->
  GetItems s p filters sort = (s1, Ok r1) ->
  PaginatedResponse.HasMore r1 = true ->
  gorm.conn_ok (db s') = true ->
  is_Some (gorm.column_le (fst (sort_order sort'))) ->
  exists s2 r2,
    GetItems s' (Some (PaginationRequest.mk limit
                         (PaginatedResponse.NextCursor r1))) filters' sort'
    = (s2, Ok r2).
Proof.
  intros Hrows Hrun1 Hmore1 Hconn Hsort.
  destruct (GetItems_more _ _ _ _ _ _ Hrun1 Hmore1) as (last1 & Hlast1 & Hcur).
  apply ListFacts.GetItems_items in Hrun1
    as (q1 & l1 & n1 & _ & Hl1 & Hitems1).
  assert (Hlast1in : In last1 (gorm.rows (db s))).
  { apply last_Some in Hlast1 as [pre1 Hpre1].
    assert (Hin : In last1 (PaginatedResponse.Items r1))
      by (rewrite Hpre1; apply in_or_app; right; now left).
    rewrite Hitems1 in Hin. apply ListFacts.In_firstn in Hin.
    unfold gorm.ordered in Hl1.
    destruct (gorm.column_le _) as [le|]; [|discriminate].
    injection Hl1 as <-.
    apply ListFacts.sort_by_In, ListFacts.matching_In in Hin. tauto. }
  destruct (Hrows last1 Hlast1in) as [Hts Hid].
  rewrite Hcur.
  destruct (with_cursor_position last1 limit
              (gorm.mkQuery (filter_conds filters') (sort_order sort') None)
              Hts Hid) as [Hq Hholds].
  apply (ServiceFacts.GetItems_returns s' _ filters' sort' _ Hconn Hq);
    [|exact Hsort].
  cbn [gorm.Where gorm.conds]. rewrite forallb_app.
  rewrite ServiceFacts.filter_conds_well_typed.
  cbn [forallb gorm.well_typed andb].
  rewrite (TimeFacts.ParseRFC3339_Format _ Hts).
  rewrite (UuidFacts.Parse_String _ Hid). reflexivity.
Qed.

(** *** The properties on a small table *)

(** Three rows of different times, the second one deleted, and a fourth
    row. *)
Definition x_item (id : Z) (name : string) (deleted : option time.Time)
  : Item.t :=
  Item.mk id name (10 * id) (100 * id) (1704067200000000000 + id)
          (1704067200000000000 + id) deleted.

Definition x_rows : list Item.t :=
  [x_item 1 "Mouse" None; x_item 2 "Cable" (Some 1704067200000000009);
   x_item 3 "Laptop" None; x_item 4 "Webcam" None].

Definition x_service : ItemService :=
  mkItemService (gorm.mkDB x_rows true []) (Some ∅).

(** The same table behind a connection that is down. *)
Definition x_down : ItemService :=
  mkItemService (gorm.mkDB x_rows false []) (Some ∅).

Definition x_now : time.Time := 1704067200000000100.

Definition x_id (id : Z) : string := Eval vm_compute in uuid.String id.

Definition x_response (run : ItemService * result error PaginatedResponse.t)
  : PaginatedResponse.t :=
  match snd run with
  | Ok resp => resp
  | Err _ => PaginatedResponse.mk [] "" false 0
  end.

Definition x_first_page : PaginatedResponse.t :=
  Eval vm_compute in
    x_response (GetItems x_service (Some (PaginationRequest.mk 1 "")) None None).

Definition x_by_name : PaginatedResponse.t :=
  Eval vm_compute in
    x_response (GetItems x_service None None
                  (Some (SortRequest.mk "name" "asc"))).

Definition x_second : PaginationRequest.t :=
  PaginationRequest.mk 1 (PaginatedResponse.NextCursor x_first_page).

Definition x_second_page : PaginatedResponse.t :=
  Eval vm_compute in
    x_response (GetItems x_service (Some x_second) None None).

Lemma x_ran {A} (run : ItemService * result error A) (a : A) :
  snd run = Ok a -> run = (fst run, Ok a).
Proof. destruct run as [s r]. cbn. now intros ->. Defined.

Lemma x_failed {A} (run : ItemService * result error A) (e : error) :
  snd run = Err e -> run = (fst run, Err e).
Proof. destruct run as [s r]. cbn. now intros ->. Defined.

Lemma GetItems_total_witness :
  PaginatedResponse.Total x_first_page = 3
  /\ PaginatedResponse.Total x_first_page = PaginatedResponse.Total x_by_name.
Proof.
  exact (GetItems_total x_service None
           (Some (PaginationRequest.mk 1 "")) None
           None (Some (SortRequest.mk "name" "asc")) _ _
           x_first_page x_by_name
           (x_ran (GetItems x_service (Some (PaginationRequest.mk 1 ""))
                     None None) x_first_page
                  ltac:(vm_compute; reflexivity))
           (x_ran (GetItems x_service None None
                     (Some (SortRequest.mk "name" "asc"))) x_by_name
                  ltac:(vm_compute; reflexivity))).
Defined.

Lemma GetItems_items_match_witness :
  In (x_item 1 "Mouse" None) (gorm.rows (db x_service))
  /\ Item.DeletedAt (x_item 1 "Mouse" None) = None
  /\ gorm.satisfies
       (filter_conds (Some (FilterRequest.mk "ous" (Some 5) None None)))
       (x_item 1 "Mouse" None) = true.
Proof.
  apply (GetItems_items_match x_service None
           (Some (FilterRequest.mk "ous" (Some 5) None None)) None
           (fst (GetItems x_service None
                   (Some (FilterRequest.mk "ous" (Some 5) None None)) None))
           (PaginatedResponse.mk [x_item 1 "Mouse" None] "" false 1)).
  - vm_compute. reflexivity.
  - left. reflexivity.
Defined.

Lemma GetItems_sorted_witness :
  exists le,
    gorm.column_le "name" = Some le
    /\ Sorted (fun a b => le a b = true) (PaginatedResponse.Items x_by_name).
Proof.
  destruct (GetItems_sorted x_service None None
              (Some (SortRequest.mk "name" "asc")) _ x_by_name
              (x_ran (GetItems x_service None None
                        (Some (SortRequest.mk "name" "asc"))) x_by_name
                     ltac:(vm_compute; reflexivity)))
    as [(le & Hle & Hsorted) _].
  exists le. split; [exact Hle | exact Hsorted].
Defined.

Lemma GetItems_cursor_is_last_item_witness :
  exists lastItem,
    last (PaginatedResponse.Items x_first_page) = Some lastItem
    /\ decodeCursor (PaginatedResponse.NextCursor x_first_page)
       = Ok (CursorData.mk (uuid.String (Item.ID lastItem))
               (time.FormatRFC3339Nano (Item.CreatedAt lastItem))).
Proof.
  exact (GetItems_cursor_is_last_item x_service
           (Some (PaginationRequest.mk 1 "")) None None _ x_first_page
           (x_ran (GetItems x_service (Some (PaginationRequest.mk 1 ""))
                     None None) x_first_page
                  ltac:(vm_compute; reflexivity))
           ltac:(reflexivity)).
Defined.

Lemma GetItems_cursor_iff_more_witness :
  PaginatedResponse.NextCursor x_first_page <> ""%string
  <-> PaginatedResponse.HasMore x_first_page = true.
Proof.
  exact (GetItems_cursor_iff_more x_service
           (Some (PaginationRequest.mk 1 "")) None None _ x_first_page
           (x_ran (GetItems x_service (Some (PaginationRequest.mk 1 ""))
                     None None) x_first_page
                  ltac:(vm_compute; reflexivity))).
Defined.

Definition x_cursor : CursorData.t :=
  CursorData.mk (x_id 4) "2024-01-01T00:00:00.000000004Z".

Lemma encodeCursor_injective_witness :
  x_cursor = position (x_item 4 "Webcam" None).
Proof.
  apply (encodeCursor_injective x_cursor (position (x_item 4 "Webcam" None)));
    vm_compute; reflexivity.
Defined.

Lemma decodeCursor_length_witness :
  decodeCursor "abcde" = Err CorruptInputError.
Proof.
  apply (decodeCursor_length "abcde"). vm_compute. discriminate.
Defined.

Lemma DeleteItem_then_GetItem_witness :
  snd (GetItem (fst (DeleteItem x_service (x_id 1) x_now)) (x_id 1)
         (x_now + 1))
  = Err ItemNotFound.
Proof.
  exact (DeleteItem_then_GetItem x_service (x_id 1) x_now _ tt
           (x_ran (DeleteItem x_service (x_id 1) x_now) tt
                  ltac:(vm_compute; reflexivity))
           (x_now + 1)).
Defined.

Lemma x_no_live_row (u : uuid.UUID) :
  forallb (fun it => negb (gorm.live it && (Item.ID it =? u))) x_rows = true ->
  forall it, In it (gorm.rows (db x_service)) ->
             Item.DeletedAt it = None -> Item.ID it <> u.
Proof.
  intros Hall it Hin Hlive Hid.
  apply (proj1 (forallb_forall _ _) Hall) in Hin.
  unfold gorm.live in Hin. rewrite Hlive in Hin.
  apply Z.eqb_eq in Hid. rewrite Hid in Hin. discriminate.
Defined.

Lemma DeleteItem_missing_witness :
  snd (DeleteItem x_service (x_id 2) x_now) = Err ItemNotFound
  /\ gorm.rows (db (fst (DeleteItem x_service (x_id 2) x_now)))
     = gorm.rows (db x_service)
  /\ cache (fst (DeleteItem x_service (x_id 2) x_now)) = cache x_service.
Proof.
  apply (DeleteItem_missing x_service (x_id 2) x_now 2).
  - reflexivity.
  - vm_compute. reflexivity.
  - apply x_no_live_row. vm_compute. reflexivity.
Defined.

Lemma DeleteItem_is_soft_witness :
  exists v,
    uuid.Parse (x_id 3) = Some v
    /\ forall it,
         In it (gorm.rows (db (fst (DeleteItem x_service (x_id 3) x_now)))) ->
         Item.ID it = v -> Item.DeletedAt it <> None.
Proof.
  destruct (DeleteItem_is_soft x_service (x_id 3) x_now _ tt
              (x_ran (DeleteItem x_service (x_id 3) x_now) tt
                     ltac:(vm_compute; reflexivity)))
    as (v & Hv & _ & Hdead).
  exists v. split; [exact Hv | exact Hdead].
Defined.

Definition x_request : CreateItemRequest.t := CreateItemRequest.mk "Pen" 5 120.

Lemma CreateItem_then_GetItem_witness :
  gorm.rows (db (fst (CreateItem x_service x_request x_now 9)))
  = gorm.rows (db x_service) ++ [Item.mk 9 "Pen" 5 120 x_now x_now None]
  /\ snd (GetItem (fst (CreateItem x_service x_request x_now 9)) (x_id 9)
            (x_now + 7))
     = Ok (Item.mk 9 "Pen" 5 120 x_now x_now None).
Proof.
  destruct (CreateItem_then_GetItem x_service x_request x_now 9 _
              (Item.mk 9 "Pen" 5 120 x_now x_now None)
              ltac:(vm_compute; split; reflexivity)
              (x_ran (CreateItem x_service x_request x_now 9) _
                     ltac:(vm_compute; reflexivity)))
    as (_ & Hrows & Hread).
  split; [exact Hrows | exact (Hread (x_now + 7))].
Defined.

Lemma CreateItem_failure_witness :
  gorm.rows (db (fst (CreateItem x_down x_request x_now 9)))
  = gorm.rows (db x_down)
  /\ cache (fst (CreateItem x_down x_request x_now 9)) = cache x_down
  /\ exists cause, FailedToCreate gorm.ErrConnection = FailedToCreate cause.
Proof.
  exact (CreateItem_failure x_down x_request x_now 9 _
           (FailedToCreate gorm.ErrConnection)
           (x_failed (CreateItem x_down x_request x_now 9) _
                     ltac:(vm_compute; reflexivity))).
Defined.

Definition x_update : UpdateItemRequest.t :=
  UpdateItemRequest.mk (Some "Trackball"%string) None (Some 4500).

Lemma UpdateItem_missing_witness :
  snd (UpdateItem x_service (x_id 2) x_update x_now) = Err ItemNotFound
  /\ gorm.rows (db (fst (UpdateItem x_service (x_id 2) x_update x_now)))
     = gorm.rows (db x_service)
  /\ cache (fst (UpdateItem x_service (x_id 2) x_update x_now))
     = cache x_service.
Proof.
  apply (UpdateItem_missing x_service (x_id 2) x_update x_now 2).
  - reflexivity.
  - vm_compute. reflexivity.
  - apply x_no_live_row. vm_compute. reflexivity.
Defined.

Definition x_updated : Item.t :=
  Eval vm_compute in
    match snd (UpdateItem x_service (x_id 1) x_update x_now) with
    | Ok item => item
    | Err _ => x_item 0 "" None
    end.

Lemma UpdateItem_frame_witness :
  Forall2 (fun old new =>
             new = if Item.ID old =? Item.ID x_updated then x_updated else old)
          (gorm.rows (db x_service))
          (gorm.rows (db (fst (UpdateItem x_service (x_id 1) x_update x_now)))).
Proof.
  exact (UpdateItem_frame x_service (x_id 1) x_update x_now _ x_updated
           (x_ran (UpdateItem x_service (x_id 1) x_update x_now) x_updated
                  ltac:(vm_compute; reflexivity))).
Defined.

Ltac x_distinct :=
  repeat (apply NoDup_cons_2;
          [rewrite ?elem_of_cons, elem_of_nil; intros H;
           repeat (destruct H as [H|H]; [discriminate H|]); exact H|]);
  apply NoDup_nil_2.

Lemma x_unique : unique_ids x_service.
Proof.
  unfold unique_ids. cbn. x_distinct.
Defined.

Lemma service_keeps_unique_ids_witness :
  unique_ids (fst (CreateItem x_service x_request x_now 9))
  /\ unique_ids (fst (DeleteItem x_service (x_id 1) x_now)).
Proof.
  destruct (service_keeps_unique_ids x_service x_unique)
    as (Hcreate & _ & _ & Hdelete & _).
  split; [exact (Hcreate x_request x_now 9) | exact (Hdelete (x_id 1) x_now)].
Defined.

Lemma GetItem_caches_for_five_minutes_witness :
  getFromCache (fst (GetItem x_service (x_id 3) x_now)) (x_id 3) (x_now + 1)
  = None
  /\ GetItem
       (processItems [ristretto.Process (ristretto.mkVerdict true [])]
          (fst (GetItem x_service (x_id 3) x_now)))
       (x_id 3) (x_now + 4 * time.Minute)
     = (processItems [ristretto.Process (ristretto.mkVerdict true [])]
          (fst (GetItem x_service (x_id 3) x_now)),
        Ok (x_item 3 "Laptop" None))
  /\ getFromCache
       (processItems [ristretto.Process (ristretto.mkVerdict true [])]
          (fst (GetItem x_service (x_id 3) x_now)))
       (x_id 3) (x_now + 6 * time.Minute) = None.
Proof.
  destruct (GetItem_caches_for_five_minutes x_service (x_id 3) x_now ∅ _
              (x_item 3 "Laptop" None) eq_refl
              ltac:(reflexivity) ltac:(reflexivity)
              (x_ran (GetItem x_service (x_id 3) x_now) _
                     ltac:(vm_compute; reflexivity)))
    as (_ & Hqueued & Hadmitted & _).
  split; [apply Hqueued|].
  destruct (Hadmitted (ristretto.mkVerdict true []) eq_refl
              ltac:(intros [])) as [Hhit Hmiss].
  split.
  - apply Hhit. vm_compute. discriminate.
  - apply Hmiss. vm_compute. reflexivity.
Defined.

Lemma GetItem_failure_caches_nothing_witness :
  cache (fst (GetItem x_service (x_id 2) x_now)) = cache x_service
  /\ gorm.rows (db (fst (GetItem x_service (x_id 2) x_now)))
     = gorm.rows (db x_service).
Proof.
  exact (GetItem_failure_caches_nothing x_service (x_id 2) x_now _ ItemNotFound
           (x_failed (GetItem x_service (x_id 2) x_now) _
                     ltac:(vm_compute; reflexivity))).
Defined.

(** Two clients and a tick of the cleanup. *)
Definition x_events : list event :=
  [Request "10.0.0.2" 5; Tick; Request "10.0.0.3" 7; Request "10.0.0.2" 8].

Definition x_limiter : RateLimiter :=
  fst (Allow (NewRateLimiter 1 1) "10.0.0.1" 0).

Lemma Allow_keys_are_independent_witness :
  limiters (run 60 x_limiter x_events) !! "10.0.0.1"
  = limiters x_limiter !! "10.0.0.1"
  /\ snd (Allow (run 60 x_limiter x_events) "10.0.0.1" 9)
     = snd (Allow x_limiter "10.0.0.1" 9).
Proof.
  apply (Allow_keys_are_independent 60 x_limiter x_events "10.0.0.1" 9).
  cbn. intros H.
  repeat (destruct H as [H|H]; [discriminate H|]). exact H.
Defined.

(** An empty table, and the ten inserts of the seed in an order of the
    scheduler. *)
Definition x_empty : ItemService :=
  mkItemService (gorm.mkDB [x_item 2 "Cable" (Some 1704067200000000009)]
                   true []) (Some ∅).

Definition x_schedule : list seed.turn :=
  List.map (fun i => seed.mkTurn i (x_now + Z.of_nat i) (100 + Z.of_nat i))
           [3; 0; 9; 1; 2; 8; 4; 7; 5; 6]%nat.

Lemma SeedDatabase_on_rows_witness :
  seed.SeedDatabase x_service x_schedule
  = (with_db (gorm.issue gorm.SelectCount (db x_service)) x_service, Ok tt).
Proof.
  apply (SeedDatabase_on_rows x_service x_schedule (x_item 1 "Mouse" None)).
  - reflexivity.
  - left. reflexivity.
  - reflexivity.
Defined.

Lemma x_schedule_indexes :
  Permutation (List.map seed.index x_schedule) (seq 0 10).
Proof.
  cbn. apply NoDup_Permutation.
  - x_distinct.
  - x_distinct.
  - intros i. rewrite !elem_of_cons, elem_of_nil. lia.
Defined.

Lemma SeedDatabase_on_empty_witness :
  exists s',
    seed.SeedDatabase x_empty x_schedule = (s', Ok tt)
    /\ gorm.rows (db s')
       = gorm.rows (db x_empty) ++ List.map seeded x_schedule
    /\ cache s' = cache x_empty
    /\ Permutation (List.map Item.Name (List.map seeded x_schedule))
                   (List.map Item.Name seed.sampleItems).
Proof.
  apply (SeedDatabase_on_empty x_empty x_schedule).
  - reflexivity.
  - intros it [<-|[]]. discriminate.
  - exact x_schedule_indexes.
  - cbn. x_distinct.
  - intros t r Ht [<-|[]]. cbn in Ht.
    repeat (destruct Ht as [<-|Ht]; [discriminate|]). destruct Ht.
Defined.

Lemma SeedDatabase_store_down_witness :
  exists name s',
    seed.SeedDatabase x_down x_schedule
    = (s', Err (seed.FailedToCreateItem name gorm.ErrConnection))
    /\ gorm.rows (db s') = gorm.rows (db x_down)
    /\ gorm.log (db s')
       = gorm.log (db x_down) ++ gorm.SelectCount
         :: List.map (fun _ => gorm.Insert) x_schedule.
Proof.
  apply (SeedDatabase_store_down x_down x_schedule).
  - reflexivity.
  - discriminate.
  - intros t Ht. cbn in Ht.
    repeat (destruct Ht as [<-|Ht]; [cbn; lia|]). destruct Ht.
Defined.

Definition x_position : CursorData.t :=
  Eval vm_compute in
    match decodeCursor (PaginationRequest.Cursor x_second) with
    | Ok c => c
    | Err _ => CursorData.mk "" ""
    end.

Lemma GetItems_after_cursor_witness :
  Item.CreatedAt (x_item 3 "Laptop" None) < 1704067200000000004
  \/ (Item.CreatedAt (x_item 3 "Laptop" None) = 1704067200000000004
      /\ Item.ID (x_item 3 "Laptop" None) < 4).
Proof.
  apply (GetItems_after_cursor x_service x_second None None
           (fst (GetItems x_service (Some x_second) None None))
           x_second_page x_position 1704067200000000004 4
           (x_item 3 "Laptop" None)).
  - vm_compute. discriminate.
  - vm_compute. reflexivity.
  - vm_compute. reflexivity.
  - vm_compute. reflexivity.
  - apply x_ran. vm_compute. reflexivity.
  - left. reflexivity.
Defined.

Definition x_requests : list (string * time.Time) :=
  [("10.0.0.1"%string, x_now); ("10.0.0.2"%string, x_now + 10);
   ("10.0.0.2"%string, x_now + 10); ("10.0.0.1"%string, x_now + 10);
   ("10.0.0.2"%string, x_now + 11); ("10.0.0.1"%string, x_now + 12)].

Lemma RateLimitMiddleware_burst_passes_witness :
  Forall2 (fun q out => fst q = "10.0.0.1"%string -> out = middleware.Next)
          x_requests (middleware.RateLimitMiddleware 2 3 x_requests).
Proof.
  apply (RateLimitMiddleware_burst_passes 2 3 x_requests "10.0.0.1").
  - split; [lia|]. vm_compute. discriminate.
  - lia.
  - intros q Hq _. cbn in Hq.
    repeat (destruct Hq as [<-|Hq]; [vm_compute; discriminate|]).
    destruct Hq.
  - vm_compute. discriminate.
Defined.

Lemma handler_refusal_is_free_witness :
  fst (middleware.handler x_limiter "10.0.0.1" 3) = x_limiter
  /\ exists h,
       snd (middleware.handler x_limiter "10.0.0.1" 3)
       = middleware.AbortJSON 429 h
       /\ In ("code"%string, middleware.Number 429) h.
Proof.
  apply (handler_refusal_is_free x_limiter "10.0.0.1" 3
           (rate.mkLimiter (float64.of_int 1) 1 0 0)).
  - vm_compute. reflexivity.
  - apply surjective_pairing.
  - vm_compute. discriminate.
Defined.

Lemma x_rows_in_layout it :
  In it (gorm.rows (db x_service)) ->
  TimeFacts.in_layout (Item.CreatedAt it) /\ 0 <= Item.ID it < 2 ^ 128.
Proof.
  intros Hin. cbn in Hin.
  repeat (destruct Hin as [<-|Hin];
          [split; vm_compute; split; first [discriminate | reflexivity]|]).
  destruct Hin.
Defined.

Lemma GetItems_next_page_continues_witness :
  Item.CreatedAt (x_item 3 "Laptop" None)
  < Item.CreatedAt (x_item 4 "Webcam" None).
Proof.
  destruct (GetItems_next_page_continues x_service
              (Some (PaginationRequest.mk 1 "")) None
              (fst (GetItems x_service (Some (PaginationRequest.mk 1 ""))
                      None None))
              x_first_page x_service 1
              (fst (GetItems x_service (Some x_second) None None))
              x_second_page
              ltac:(vm_compute; x_distinct)
              x_rows_in_layout
              (x_ran (GetItems x_service (Some (PaginationRequest.mk 1 ""))
                        None None) x_first_page
                     ltac:(vm_compute; reflexivity))
              ltac:(reflexivity) ltac:(reflexivity) ltac:(lia)
              (x_ran (GetItems x_service (Some x_second) None None)
                     x_second_page ltac:(vm_compute; reflexivity)))
    as (last1 & _ & Hstrict & _).
  apply Hstrict; left; reflexivity.
Defined.

Lemma GetItems_next_cursor_is_accepted_witness :
  exists s2 r2,
    GetItems x_service
      (Some (PaginationRequest.mk 5
               (PaginatedResponse.NextCursor x_first_page)))
      (Some (FilterRequest.mk "a" None None None))
      (Some (SortRequest.mk "price" "desc"))
    = (s2, Ok r2).
Proof.
  apply (GetItems_next_cursor_is_accepted x_service
           (Some (PaginationRequest.mk 1 "")) None None
           (fst (GetItems x_service (Some (PaginationRequest.mk 1 ""))
                   None None))
           x_first_page x_service 5
           (Some (FilterRequest.mk "a" None None None))
           (Some (SortRequest.mk "price" "desc"))
           x_rows_in_layout
           (x_ran (GetItems x_service (Some (PaginationRequest.mk 1 ""))
                     None None) x_first_page
                  ltac:(vm_compute; reflexivity))).
  - reflexivity.
  - reflexivity.
  - eexists. reflexivity.
Defined.

End Extras.
